(** * mkrom: the EmuTOS ROM image tool (tools/mkrom.c)

    A shallow embedding of [tools/mkrom.c] and the properties of its
    three image rules ([pad], [pak3], [stc]), of the streaming primitives
    they are built from and of the command line front end.

    The C library is modelled by a file system in three layers: a path
    has a canonical form, a directory gives the file that a canonical path
    names, and a file has its contents.  Two spellings of a path name one
    file, and so do two paths that are links to one file.  A stream holds
    a file, a position and an error indicator, and a list of faults tells
    what the environment inflicts on the upcoming library calls.  The
    program's two globals, [g_argv0] and [g_buffer], and the two output
    channels live in the same state. *)

From Stdlib Require Import ZArith Lia Ascii String Strings.Byte.
From stdpp Require Import base tactics option list gmap strings.

Local Open Scope Z_scope.

(** ** Integer types

    [size_t], [unsigned long] and [long] have the same width in both data
    models the tool is built for; [int] has 32 bits in both. *)

Inductive data_model := ILP32 | LP64.

Definition long_bits (dm : data_model) : Z :=
  match dm with ILP32 => 32 | LP64 => 64 end.

(** Conversion to [size_t] or [unsigned long]: reduction modulo [2^w]. *)
Definition to_size_t (dm : data_model) (z : Z) : Z := z mod 2 ^ long_bits dm.

Definition LONG_MAX (dm : data_model) : Z := 2 ^ (long_bits dm - 1) - 1.

(** Conversion of a [size_t] to [long], two's complement. *)
Definition to_long (dm : data_model) (z : Z) : Z :=
  if z <=? LONG_MAX dm then z else z - 2 ^ long_bits dm.

(** [#define SIZE_ERROR ((size_t)-1)] *)
Definition SIZE_ERROR (dm : data_model) : Z := to_size_t dm (-1).

(** [#define MIN(a, b) ((a)<=(b) ? (a) : (b))] *)
Definition MIN (a b : Z) : Z := if a <=? b then a else b.

(** [#define BUFFER_SIZE (16*1024)] *)
Definition BUFFER_SIZE : Z := 16 * 1024.

(** [typedef enum { CMD_NONE = 0, CMD_PAD, CMD_PAK3, CMD_STC } CMD_TYPE;] *)
Inductive CMD_TYPE := CMD_NONE | CMD_PAD | CMD_PAK3 | CMD_STC.

Definition zlength {A} (l : list A) : Z := Z.of_nat (length l).

(** ** The state of the program and of its environment *)

(** What the environment does to one library call: nothing, or an
    input/output error once [n] bytes went through (calls that move no
    data simply fail). *)
Inductive fault := NoFault | FaultAfter (n : nat).

(** Lines of the standard output, one constructor per [printf]. *)
Inductive stdout_line :=
  | OutPadding (infilename : string) (kb : Z) (outfilename : string)
  | OutPaddingSteem (infilename : string) (kb : Z) (outfilename : string)
  | OutDoneFree (outfilename : string) (free : Z)
  | OutDone (outfilename : string).

(** Lines of the standard error, one constructor per [fprintf] format. *)
Inductive stderr_line :=
  | ErrInvalidSize (argv0 strsize : string)
  | ErrErrno (argv0 filename : string)
  | ErrPrematureEOF (argv0 filename : string)
  | ErrTooBig (argv0 filename : string) (extra : Z)
  | ErrUsage (text : string)
  | ErrUsageCommand (argv0 synopsis : string).

(** A file, apart from the paths that lead to it: what a stream is open
    on, and what is left when a path is removed while another one names
    the same file. *)
Definition file_id : Type := nat.

Record world := World {
  canon : string -> string;         (* the canonical form of a path *)
  dir : gmap string file_id;        (* the file a canonical path names *)
  files : gmap file_id (list byte); (* the contents of the files *)
  opened : list string;             (* paths opened so far, oldest first *)
  faults : list fault;              (* faults of the upcoming library calls *)
  g_argv0 : string;                 (* [static const char* g_argv0] *)
  g_buffer : list byte;             (* [static uint8_t g_buffer[BUFFER_SIZE]] *)
  stdout : list stdout_line;
  stderr : list stderr_line
}.

Definition set_canon (x : string -> string) (w : world) : world :=
  World x (dir w) (files w) (opened w) (faults w) (g_argv0 w) (g_buffer w)
    (stdout w) (stderr w).
Definition set_dir (x : gmap string file_id) (w : world) : world :=
  World (canon w) x (files w) (opened w) (faults w) (g_argv0 w) (g_buffer w)
    (stdout w) (stderr w).
Definition set_files (x : gmap file_id (list byte)) (w : world) : world :=
  World (canon w) (dir w) x (opened w) (faults w) (g_argv0 w) (g_buffer w)
    (stdout w) (stderr w).
Definition set_opened (x : list string) (w : world) : world :=
  World (canon w) (dir w) (files w) x (faults w) (g_argv0 w) (g_buffer w)
    (stdout w) (stderr w).
Definition set_faults (x : list fault) (w : world) : world :=
  World (canon w) (dir w) (files w) (opened w) x (g_argv0 w) (g_buffer w)
    (stdout w) (stderr w).
Definition set_g_argv0 (x : string) (w : world) : world :=
  World (canon w) (dir w) (files w) (opened w) (faults w) x (g_buffer w)
    (stdout w) (stderr w).
Definition set_g_buffer (x : list byte) (w : world) : world :=
  World (canon w) (dir w) (files w) (opened w) (faults w) (g_argv0 w) x
    (stdout w) (stderr w).
Definition set_stdout (x : list stdout_line) (w : world) : world :=
  World (canon w) (dir w) (files w) (opened w) (faults w) (g_argv0 w)
    (g_buffer w) x (stderr w).
Definition set_stderr (x : list stderr_line) (w : world) : world :=
  World (canon w) (dir w) (files w) (opened w) (faults w) (g_argv0 w)
    (g_buffer w) (stdout w) x.

(** The file that a path names, if it names one. *)
Definition file_of (w : world) (path : string) : option file_id :=
  dir w !! canon w path.

(** A [FILE] object: the file it is open on, the file position indicator
    and the error indicator. *)
Record FILE := Stream {
  f_file : file_id;
  f_pos : Z;
  f_error : bool
}.

Definition set_pos (p : Z) (f : FILE) : FILE := Stream (f_file f) p (f_error f).

(** Position moved by [n] bytes, error indicator raised when [e]. *)
Definition advance (n : Z) (e : bool) (f : FILE) : FILE :=
  Stream (f_file f) (f_pos f + n) (f_error f || e).

(** ** The state monad of the program *)

Definition M (A : Type) : Type := world -> A * world.

Definition ret {A} (a : A) : M A := fun w => (a, w).

Definition bind {A B} (c : M A) (k : A -> M B) : M B :=
  fun w => let (a, w') := c w in k a w'.

Declare Scope prog_scope.
Delimit Scope prog_scope with prog.
Notation "'do' pat <- c ;; k" := (bind c (fun pat => k))
  (at level 10, pat pattern, c at level 99, k at level 200) : prog_scope.
Notation "'exec' c ;; k" := (bind c (fun _ => k))
  (at level 10, c at level 99, k at level 200) : prog_scope.
Local Open Scope prog_scope.

(** ** The C library *)

(** Each library call takes the next fault of the environment. *)
Definition next_fault : M fault :=
  fun w => (hd NoFault (faults w), set_faults (tl (faults w)) w).

Definition printf (l : stdout_line) : M unit :=
  fun w => (tt, set_stdout (stdout w ++ [l]) w).

Definition fprintf_stderr (l : stderr_line) : M unit :=
  fun w => (tt, set_stderr (stderr w ++ [l]) w).

(** The bytes of the file a stream is open on, in the file system [fs]. *)
Definition file_bytes (f : FILE) (fs : gmap file_id (list byte)) : list byte :=
  default [] (fs !! f_file f).

(** The bytes that go through before the fault strikes. *)
Definition transfer (flt : fault) (bytes : list byte) : list byte :=
  match flt with
  | NoFault => bytes
  | FaultAfter k => take k bytes
  end.

(** The file after [bytes] were written at offset [pos]: a gap between the
    end of the file and [pos] reads as zeros. *)
Definition write_at (pos : nat) (bytes data : list byte) : list byte :=
  take pos data ++ replicate (pos - length data)%nat x00
    ++ bytes ++ drop (pos + length bytes)%nat data.

(** [fread(g_buffer, 1, n, f)]: up to [n] bytes from the position of [f] go
    to the start of [g_buffer].  Fewer bytes come at the end of the file, or
    when a fault strikes, which raises the error indicator. *)
Definition fread_g_buffer (n : Z) (f : FILE) : M (Z * FILE) :=
  do flt <- next_fault ;;
  fun w =>
    let wanted := take (Z.to_nat n) (drop (Z.to_nat (f_pos f)) (file_bytes f (files w))) in
    let got := transfer flt wanted in
    ((zlength got, advance (zlength got) (length got <? length wanted)%nat f),
     set_g_buffer (got ++ drop (length got) (g_buffer w)) w).

(** The file system after [bytes] went to the file of [f] at its position;
    no byte, no change. *)
Definition store (f : FILE) (bytes : list byte) (fs : gmap file_id (list byte))
    : gmap file_id (list byte) :=
  match bytes with
  | [] => fs
  | _ => <[f_file f := write_at (Z.to_nat (f_pos f)) bytes
                         (file_bytes f fs)]> fs
  end.

(** [fwrite(bytes, 1, n, f)] where [bytes] are the [n] bytes offered. *)
Definition fwrite (bytes : list byte) (f : FILE) : M (Z * FILE) :=
  do flt <- next_fault ;;
  fun w =>
    let put := transfer flt bytes in
    ((zlength put, advance (zlength put) (length put <? length bytes)%nat f),
     set_files (store f put (files w)) w).

(** [fwrite(g_buffer, 1, n, f)] *)
Definition fwrite_g_buffer (n : Z) (f : FILE) : M (Z * FILE) :=
  fun w => fwrite (take (Z.to_nat n) (g_buffer w)) f w.

(** [memset(g_buffer, value, n)] *)
Definition memset_g_buffer (value : byte) (n : Z) : M unit :=
  fun w => (tt, set_g_buffer (replicate (Z.to_nat n) value
                                ++ drop (Z.to_nat n) (g_buffer w)) w).

(** [ferror(f)] *)
Definition ferror (f : FILE) : bool := f_error f.

(** [ftell(f)]: the position, or -1 when the call fails or the position
    does not fit a [long]. *)
Definition ftell (dm : data_model) (f : FILE) : M Z :=
  do flt <- next_fault ;;
  ret match flt with
      | NoFault => if f_pos f <=? LONG_MAX dm then f_pos f else -1
      | FaultAfter _ => -1
      end.

Inductive whence := SEEK_SET | SEEK_END.

(** [fseek(f, offset, whence)]: 0 and the stream moved, or -1. *)
Definition fseek (f : FILE) (offset : Z) (wh : whence) : M (Z * FILE) :=
  do flt <- next_fault ;;
  fun w =>
    let target :=
      match wh with
      | SEEK_SET => offset
      | SEEK_END => zlength (file_bytes f (files w)) + offset
      end in
    match flt with
    | NoFault =>
        if 0 <=? target then ((0, set_pos target f), w) else ((-1, f), w)
    | FaultAfter _ => ((-1, f), w)
    end.

Inductive open_mode := mode_rb | mode_wb.

(** A file that no path names and that holds nothing. *)
Definition new_file (w : world) : file_id :=
  fresh (dom (files w) ∪ map_img (dir w) : gset file_id).

(** [fopen(filename, mode)]: [None] is the null pointer.  The stream is
    open on the file that the path names.  Mode ["rb"] needs the file to
    exist; mode ["wb"] truncates it, whatever other paths name it too, or
    creates a file under that path when it names none. *)
Definition fopen (filename : string) (mode : open_mode) : M (option FILE) :=
  do flt <- next_fault ;;
  fun w =>
    match flt, mode with
    | FaultAfter _, _ => (None, w)
    | NoFault, mode_rb =>
        match file_of w filename with
        | Some file =>
            (Some (Stream file 0 false),
             set_opened (opened w ++ [filename]) w)
        | None => (None, w)
        end
    | NoFault, mode_wb =>
        match file_of w filename with
        | Some file =>
            (Some (Stream file 0 false),
             set_opened (opened w ++ [filename])
               (set_files (<[file := []]> (files w)) w))
        | None =>
            let file := new_file w in
            (Some (Stream file 0 false),
             set_opened (opened w ++ [filename])
               (set_dir (<[canon w filename := file]> (dir w))
                  (set_files (<[file := []]> (files w)) w)))
        end
    end.

(** [fclose(f)]: 0, or [EOF] when the last bytes could not be flushed. *)
Definition fclose (f : FILE) : M Z :=
  do flt <- next_fault ;;
  ret match flt with NoFault => 0 | FaultAfter _ => -1 end.

(** [remove(filename)]: the path names nothing any more.  The file is
    still there for the other paths that name it and for the streams that
    are open on it. *)
Definition remove (filename : string) : M Z :=
  do flt <- next_fault ;;
  fun w =>
    match flt, file_of w filename with
    | NoFault, Some _ =>
        (0, set_dir (delete (canon w filename) (dir w)) w)
    | _, _ => (-1, w)
    end.

(** ** [sscanf(strsize, "%lu%c%c", &val, &suffix, &tail)] *)

(** [isspace] in the C locale: space, and the controls from tab to
    carriage return. *)
Definition isspace (c : ascii) : bool :=
  let n := N_of_ascii c in ((n =? 32) || ((9 <=? n) && (n <=? 13)))%N.

Definition isdigit (c : ascii) : bool :=
  let n := N_of_ascii c in ((48 <=? n) && (n <=? 57))%N.

Definition digit_value (c : ascii) : Z := Z.of_N (N_of_ascii c) - 48.

Fixpoint skip_space (s : string) : string :=
  match s with
  | String c s' => if isspace c then skip_space s' else s
  | EmptyString => s
  end.

(** The longest run of digits at the start of [s], read in base ten on top
    of [acc], and what follows it. *)
Fixpoint scan_digits (acc : Z) (s : string) : Z * string :=
  match s with
  | String c s' =>
      if isdigit c then scan_digits (acc * 10 + digit_value c) s' else (acc, s)
  | EmptyString => (acc, s)
  end.

(** The value [strtoul] gives to a sign and a magnitude: the largest
    [unsigned long] when the magnitude does not fit, the negation modulo
    [2^w] after a minus sign. *)
Definition strtoul_value (dm : data_model) (negative : bool) (magnitude : Z) : Z :=
  if to_size_t dm (-1) <? magnitude then to_size_t dm (-1)
  else if negative then to_size_t dm (- magnitude)
  else magnitude.

(** A magnitude: at least one digit, and what follows the digits. *)
Definition scan_magnitude (dm : data_model) (negative : bool) (s : string)
    : option (Z * string) :=
  match s with
  | String c _ =>
      if isdigit c
      then let '(magnitude, rest) := scan_digits 0 s in
           Some (strtoul_value dm negative magnitude, rest)
      else None
  | EmptyString => None
  end.

(** The directive [%lu], after the white space: an optional sign and a
    magnitude. *)
Definition scan_unsigned (dm : data_model) (s : string) : option (Z * string) :=
  match s with
  | String c t =>
      if (c =? "-")%char then scan_magnitude dm true t
      else if (c =? "+")%char then scan_magnitude dm false t
      else scan_magnitude dm false s
  | EmptyString => None
  end.

(** What [sscanf] assigned: the constructor is the number of items, the
    arguments are the objects it stored into. *)
Inductive scan_result :=
  | ScanEOF
  | Scan0
  | Scan1 (val : Z)
  | Scan2 (val : Z) (suffix : ascii)
  | Scan3 (val : Z) (suffix tail : ascii).

Definition sscanf_lu_c_c (dm : data_model) (s : string) : scan_result :=
  match skip_space s with
  | EmptyString => ScanEOF
  | String _ _ as s0 =>
      match scan_unsigned dm s0 with
      | None => Scan0
      | Some (val, EmptyString) => Scan1 val
      | Some (val, String suffix EmptyString) => Scan2 val suffix
      | Some (val, String suffix (String tail _)) => Scan3 val suffix tail
      end
  end.

(** The value [sscanf] returns. *)
Definition scan_count (r : scan_result) : Z :=
  match r with
  | ScanEOF => -1
  | Scan0 => 0
  | Scan1 _ => 1
  | Scan2 _ _ => 2
  | Scan3 _ _ _ => 3
  end.

(** ** The program *)

Section Mkrom.

Variable dm : data_model.

(** [fprintf(stderr, "%s: %s: %s\n", g_argv0, filename, strerror(errno))] *)
Definition report_errno (filename : string) : M unit :=
  fun w => fprintf_stderr (ErrErrno (g_argv0 w) filename) w.

(** Get an integer value from an integer string with a k, m, or g suffix *)
Definition get_size_value (strsize : string) : M Z :=
  let invalid : M Z :=
    exec (fun w => fprintf_stderr (ErrInvalidSize (g_argv0 w) strsize) w) ;;
    ret (SIZE_ERROR dm) in
  match sscanf_lu_c_c dm strsize with
  | Scan1 val => (* No suffix *)
      ret (to_size_t dm val)
  | Scan2 val suffix =>
      if (suffix =? "k")%char || (suffix =? "K")%char
      then ret (to_size_t dm (to_size_t dm (val * 1024)))
      else if (suffix =? "m")%char || (suffix =? "M")%char
      then ret (to_size_t dm (to_size_t dm (val * (1024 * 1024))))
      else if (suffix =? "g")%char || (suffix =? "G")%char
      then ret (to_size_t dm (to_size_t dm (val * (1024 * 1024 * 1024))))
      else invalid
  | _ => invalid
  end.

(** Get the size of an open file *)
Definition get_file_size (file : FILE) (filename : string) : M (Z * FILE) :=
  (* Remember the initial position *)
  do initial_pos <- ftell dm file ;;
  if initial_pos =? -1
  then exec report_errno filename ;; ret (SIZE_ERROR dm, file)
  else
  (* Seek to end of file *)
  do (err, file) <- fseek file 0 SEEK_END ;;
  if negb (err =? 0)
  then exec report_errno filename ;; ret (SIZE_ERROR dm, file)
  else
  (* Get the end file position *)
  do end_pos <- ftell dm file ;;
  if end_pos =? -1
  then exec report_errno filename ;; ret (SIZE_ERROR dm, file)
  else
  (* Restore the initial file position *)
  do (err, file) <- fseek file initial_pos SEEK_SET ;;
  if negb (err =? 0)
  then exec report_errno filename ;; ret (SIZE_ERROR dm, file)
  else
  (* The end position is the file size *)
  ret (to_size_t dm end_pos, file).

(** The [while (count > 0)] loop of [write_byte_block].  Each round takes
    at least one byte off [count], so [count] rounds are enough. *)
Fixpoint write_byte_block_loop (rounds : nat) (outfile : FILE)
    (outfilename : string) (count : Z) : M (Z * FILE) :=
  if 0 <? count then
    match rounds with
    | O => ret (1, outfile)
    | S rounds =>
        let towrite := MIN BUFFER_SIZE count in
        do (written, outfile) <- fwrite_g_buffer towrite outfile ;;
        if negb (written =? towrite)
        then exec report_errno outfilename ;; ret (0, outfile)
        else write_byte_block_loop rounds outfile outfilename
               (to_size_t dm (count - written))
    end
  else ret (1, outfile).

(** Write a block of identical bytes to a file *)
Definition write_byte_block (outfile : FILE) (outfilename : string)
    (value : byte) (count : Z) : M (Z * FILE) :=
  exec memset_g_buffer value (MIN BUFFER_SIZE count) ;;
  write_byte_block_loop (Z.to_nat count) outfile outfilename count.

(** The [for(;;)] loop of [copy_stream]; [count] rounds are enough here
    too. *)
Fixpoint copy_stream_loop (rounds : nat) (infile : FILE) (infilename : string)
    (outfile : FILE) (outfilename : string) (count : Z) : M (Z * FILE * FILE) :=
  let toread := MIN BUFFER_SIZE count in
  if toread =? 0 then ret (1, infile, outfile)
  else
    match rounds with
    | O => ret (1, infile, outfile)
    | S rounds =>
        do (towrite, infile) <- fread_g_buffer toread infile ;;
        if towrite =? 0
        then
          if ferror infile
          then exec report_errno infilename ;; ret (0, infile, outfile)
          else
            exec (fun w => fprintf_stderr
                             (ErrPrematureEOF (g_argv0 w) infilename) w) ;;
            ret (0, infile, outfile)
        else
          do (written, outfile) <- fwrite_g_buffer towrite outfile ;;
          if negb (written =? towrite)
          then exec report_errno outfilename ;; ret (0, infile, outfile)
          else copy_stream_loop rounds infile infilename outfile outfilename
                 (to_size_t dm (count - written))
    end.

(** Copy a stream into another one *)
Definition copy_stream (infile : FILE) (infilename : string)
    (outfile : FILE) (outfilename : string) (count : Z) : M (Z * FILE * FILE) :=
  copy_stream_loop (Z.to_nat count) infile infilename outfile outfilename count.

(** [fprintf(stderr, "%s: %s is too big: %lu extra bytes\n", ...)] *)
Definition report_too_big (filename : string) (extra : Z) : M unit :=
  fun w => fprintf_stderr (ErrTooBig (g_argv0 w) filename (to_size_t dm extra)) w.

(** Append a file into a stream, and pad it with zeros.  The second
    component of the result is [*psource_size]. *)
Definition append_and_pad (infile : FILE) (infilename : string)
    (outfile : FILE) (outfilename : string) (target_size : Z)
    : M (Z * Z * FILE * FILE) :=
  (* Get the input file size *)
  do (source_size, infile) <- get_file_size infile infilename ;;
  if source_size =? SIZE_ERROR dm
  then ret (0, source_size, infile, outfile)
  else
  (* Check if the input file size is not too big *)
  if target_size <? source_size
  then
    exec report_too_big infilename (source_size - target_size) ;;
    ret (0, source_size, infile, outfile)
  else
  (* Copy the input file *)
  do (r, infile, outfile) <-
    copy_stream infile infilename outfile outfilename source_size ;;
  if r =? 0 then ret (r, source_size, infile, outfile)
  else
  (* Pad with zeros *)
  let free_size := to_size_t dm (target_size - source_size) in
  do (r, outfile) <- write_byte_block outfile outfilename x00 free_size ;;
  if r =? 0 then ret (r, source_size, infile, outfile)
  else ret (1, source_size, infile, outfile).

(** Copy and pad with zeros up to target_size *)
Definition cmd_pad (infile : FILE) (infilename : string)
    (outfile : FILE) (outfilename : string) (target_size : Z)
    : M (Z * FILE * FILE) :=
  exec printf (OutPadding infilename
                 (Z.quot (to_long dm target_size) 1024) outfilename) ;;
  do (r, source_size, infile, outfile) <-
    append_and_pad infile infilename outfile outfilename target_size ;;
  if r =? 0 then ret (r, infile, outfile)
  else
  let free_size := to_size_t dm (target_size - source_size) in
  exec printf (OutDoneFree outfilename free_size) ;;
  ret (1, infile, outfile).

(** The bytes of the 'JMP' instruction that [cmd_pak3] patches in. *)
Definition jmp_instr : list byte := [x4e; xf9; x00; xe0; x00; x00].

(** PAK/3 512kB image *)
Definition cmd_pak3 (infile : FILE) (infilename : string)
    (outfile : FILE) (outfilename : string) : M (Z * FILE * FILE) :=
  let max_size := 256 * 1024 in      (* input must be a 256KB image *)
  let target_size := 512 * 1024 in   (* which we pad to 512KB (and patch) *)
  let jmp_address := 0x40030 in
  exec printf (OutPadding infilename
                 (Z.quot (to_long dm target_size) 1024) outfilename) ;;
  (* Get the input file size *)
  do (source_size, infile) <- get_file_size infile infilename ;;
  if source_size =? SIZE_ERROR dm then ret (0, infile, outfile)
  else
  (* Check if the input file size is too big *)
  if max_size <? source_size
  then
    exec report_too_big infilename (source_size - max_size) ;;
    ret (0, infile, outfile)
  else
  do (r, source_size, infile, outfile) <-
    append_and_pad infile infilename outfile outfilename target_size ;;
  if r =? 0 then ret (r, infile, outfile)
  else
  (* Rewind to the patch address *)
  do (err, outfile) <- fseek outfile jmp_address SEEK_SET ;;
  if negb (err =? 0)
  then exec report_errno outfilename ;; ret (0, infile, outfile)
  else
  (* Write the 'JMP' instruction *)
  do (written, outfile) <- fwrite jmp_instr outfile ;;
  if negb (written =? zlength jmp_instr)
  then exec report_errno outfilename ;; ret (0, infile, outfile)
  else
  exec printf (OutDone outfilename) ;;
  ret (1, infile, outfile).

(** Steem Engine cartridge image *)
Definition cmd_stc (infile : FILE) (infilename : string)
    (outfile : FILE) (outfilename : string) : M (Z * FILE * FILE) :=
  let target_size := 128 * 1024 in
  exec printf (OutPaddingSteem infilename
                 (Z.quot (to_long dm target_size) 1024) outfilename) ;;
  (* Get the input file size *)
  do (source_size, infile) <- get_file_size infile infilename ;;
  if source_size =? SIZE_ERROR dm then ret (0, infile, outfile)
  else
  (* Check if the input file size is not too big *)
  if target_size <? source_size
  then
    exec report_too_big infilename (source_size - target_size) ;;
    ret (0, infile, outfile)
  else
  (* Insert a long zero at the beginning *)
  do (r, outfile) <- write_byte_block outfile outfilename x00 4 ;;
  if r =? 0 then ret (r, infile, outfile)
  else
  (* Copy the input file *)
  do (r, infile, outfile) <-
    copy_stream infile infilename outfile outfilename source_size ;;
  if r =? 0 then ret (r, infile, outfile)
  else
  (* Pad with zeros *)
  let free_size := to_size_t dm (target_size - source_size) in
  do (r, outfile) <- write_byte_block outfile outfilename x00 free_size ;;
  if r =? 0 then ret (r, infile, outfile)
  else
  exec printf (OutDoneFree outfilename free_size) ;;
  ret (1, infile, outfile).

(** How the process ends: [main] returns a status, or [abort()] is called. *)
Inductive termination := Exit (status : Z) | Aborted.

(** [main] from the point where the command line is decoded: the files are
    opened, the command runs and the files are closed.  [bootfilename] is
    the null pointer throughout, so that the two blocks it guards never
    run. *)
Definition main_run (op : CMD_TYPE) (target_size : Z)
    (infilename outfilename : string) : M termination :=
  let outmode := mode_wb in (* By default, write only *)
  (* Open the source file *)
  do infile <- fopen infilename mode_rb ;;
  match infile with
  | None => exec report_errno infilename ;; ret (Exit 1)
  | Some infile =>
  (* Open the destination file *)
  do outfile <- fopen outfilename outmode ;;
  match outfile with
  | None => exec report_errno outfilename ;; ret (Exit 1)
  | Some outfile =>
  let finish : Z * FILE * FILE -> M termination :=
    fun '(r, infile, outfile) =>
    if r =? 0
    then
      (* Error message already written *)
      exec fclose outfile ;;
      exec remove outfilename ;;
      ret (Exit 1)
    else
    (* Close the output file *)
    do err <- fclose outfile ;;
    if negb (err =? 0)
    then
      exec remove outfilename ;;
      exec report_errno outfilename ;;
      ret (Exit 1)
    else
    (* Close the input file *)
    do err <- fclose infile ;;
    if negb (err =? 0)
    then exec report_errno infilename ;; ret (Exit 1)
    else ret (Exit 0) in
  match op with
  | CMD_PAD =>
      do r <- cmd_pad infile infilename outfile outfilename target_size ;;
      finish r
  | CMD_PAK3 =>
      do r <- cmd_pak3 infile infilename outfile outfilename ;; finish r
  | CMD_STC =>
      do r <- cmd_stc infile infilename outfile outfilename ;; finish r
  | CMD_NONE => ret Aborted (* Should not happen *)
  end
  end
  end.

(** The usage text. *)
Definition usage : M unit :=
  fun w =>
    let argv0 := g_argv0 w in
    (tt, set_stderr
           (stderr w ++
            [ErrUsage "usage:";
             ErrUsage "  # Generic zero padding";
             ErrUsageCommand argv0 "pad <size> <source> <destination>";
             ErrUsage EmptyString;
             ErrUsage "  # Steem Engine cartridge image";
             ErrUsageCommand argv0 "stc <source.img> <destination.stc>";
             ErrUsage EmptyString;
             ErrUsage "  # PAK/3 image";
             ErrUsageCommand argv0 "pak3 <source.img> <destination.img>"]) w).

(** Main program; [argc] is the length of [argv]. *)
Definition main (argv : list string) : M termination :=
  let argc := zlength argv in
  let arg (i : nat) : string := nth i argv EmptyString in
  exec (fun w => (tt, set_g_argv0 (arg 0%nat) w)) ;; (* Remember the program name *)
  if (argc =? 5) && (arg 1%nat =? "pad")%string
  then
    do target_size <- get_size_value (arg 2%nat) ;;
    if target_size =? SIZE_ERROR dm then ret (Exit 1)
    else main_run CMD_PAD target_size (arg 3%nat) (arg 4%nat)
  else if (argc =? 4) && (arg 1%nat =? "pak3")%string
  then main_run CMD_PAK3 0 (arg 2%nat) (arg 3%nat)
  else if (argc =? 4) && (arg 1%nat =? "stc")%string
  then main_run CMD_STC 0 (arg 2%nat) (arg 3%nat)
  else exec usage ;; ret (Exit 1).

End Mkrom.

(** ** Strings of digits, for the statements about [get_size_value] *)

Fixpoint all_digits (s : string) : bool :=
  match s with
  | String c s' => isdigit c && all_digits s'
  | EmptyString => true
  end.

Fixpoint all_space (s : string) : bool :=
  match s with
  | String c s' => isspace c && all_space s'
  | EmptyString => true
  end.

(** A decimal number: one digit or more, and nothing else. *)
Definition is_decimal (s : string) : bool :=
  match s with
  | String _ _ => all_digits s
  | EmptyString => false
  end.

(** The number the digits of [s] denote in base ten, on top of [acc]. *)
Fixpoint decimal_value_from (acc : Z) (s : string) : Z :=
  match s with
  | String c s' => decimal_value_from (acc * 10 + digit_value c) s'
  | EmptyString => acc
  end.

Definition decimal_value (s : string) : Z := decimal_value_from 0 s.

Definition starts_with_digit (s : string) : bool :=
  match s with
  | String c _ => isdigit c
  | EmptyString => false
  end.

(** A decimal number stands at the start of [s], after white space and a
    sign if there are any. *)
Definition has_number (s : string) : bool :=
  match skip_space s with
  | String c t =>
      if (c =? "-")%char || (c =? "+")%char then starts_with_digit t
      else isdigit c
  | EmptyString => false
  end.

(** The sign that may stand before the digits. *)
Inductive sign := NoSign | Plus | Minus.

Definition sign_string (sg : sign) : string :=
  match sg with
  | NoSign => EmptyString
  | Plus => "+"
  | Minus => "-"
  end.

Definition is_multiplier (c : ascii) : bool :=
  (c =? "k")%char || (c =? "K")%char || (c =? "m")%char || (c =? "M")%char
  || (c =? "g")%char || (c =? "G")%char.

(** The two forms of a size argument that the specification accepts: a
    decimal number, and a decimal number followed by one of the characters
    k, K, m, M, g and G. *)
Fixpoint specified_size_form (s : string) : bool :=
  match s with
  | String c s' =>
      isdigit c
      && match s' with
         | EmptyString => true
         | String c' EmptyString => isdigit c' || is_multiplier c'
         | String _ (String _ _) => specified_size_form s'
         end
  | EmptyString => false
  end.

(** ** The part of the state that a call on one file leaves alone *)

(** From [w] to [w'] no file but [p] has changed, the file [p] is still
    there if it was, no stream was opened and [g_argv0] is what it was. *)
Definition same_but (p : file_id) (w w' : world) : Prop :=
  (forall q, q <> p -> files w' !! q = files w !! q)
  /\ (is_Some (files w !! p) -> is_Some (files w' !! p))
  /\ opened w' = opened w
  /\ g_argv0 w' = g_argv0 w.

(** The contents of the file that a path names: [None] when it names no
    file. *)
Definition contents (w : world) (path : string) : option (list byte) :=
  (fun file => default [] (files w !! file)) <$> file_of w path.

(** Two paths that do not name one file, and will not when a file is
    created under one of them: they differ in their canonical forms, and
    the files they name differ if they name any. *)
Definition apart (w : world) (path path' : string) : Prop :=
  canon w path <> canon w path'
  /\ (file_of w path = None \/ file_of w path <> file_of w path').

(** The file on which [fopen] opens a stream for a path in mode ["wb"]: the
    file that the path names, or a new one. *)
Definition out_file (w : world) (filename : string) : file_id :=
  default (new_file w) (file_of w filename).

(** The computation [c] leaves the directory as it is: every path names
    after it what it named before. *)
Definition keeps_dir {A} (c : M A) : Prop :=
  forall w, dir (snd (c w)) = dir w /\ canon (snd (c w)) = canon w.

(** ** Counting the faults *)

(** The number of faults that a list holds: [strikes (faults w) <= 1] says
    that one library call at most will fail from the state [w] on. *)
Fixpoint strikes (l : list fault) : nat :=
  match l with
  | [] => 0
  | NoFault :: l => strikes l
  | FaultAfter _ :: l => S (strikes l)
  end.

(** ** A world to run the program in *)

(** No file was opened yet, no fault is to come, the buffer holds the
    zeros of static storage and nothing was printed; every path is in its
    canonical form. *)
Definition initial_world (d : gmap string file_id)
    (fs : gmap file_id (list byte)) : world :=
  World (fun path => path) d fs [] [] EmptyString
    (replicate (Z.to_nat BUFFER_SIZE) x00) [] [].

(** The state in which [main] starts a rule: the source holds [data], the
    destination was created empty, and both streams stand at the start. *)
Definition example_world (data : list byte) : world :=
  initial_world {[ "in.img"%string := 1%nat; "out.img"%string := 2%nat ]}
    {[ 1%nat := data; 2%nat := [] ]}.

Definition example_in : FILE := Stream 1%nat 0 false.

Definition example_out : FILE := Stream 2%nat 0 false.

(** One file that holds [data], under one path. *)
Definition one_file (path : string) (data : list byte) : world :=
  initial_world {[ path := 1%nat ]} {[ 1%nat := data ]}.

(** One file that holds [data] under two paths, [rom.img] and [link.img],
    the first of which is spelled [./rom.img] as well. *)
Definition linked_world (data : list byte) : world :=
  set_canon
    (fun path =>
       if (path =? "./rom.img")%string then "rom.img"%string else path)
    (initial_world {[ "rom.img"%string := 1%nat; "link.img"%string := 1%nat ]}
       {[ 1%nat := data ]}).

(** * asm.h: assembler help routines (include/asm.h)

    The header holds one C function, [swpcopyw], and macros that wrap a few
    instructions of the 68000.  The function is embedded over a memory of
    bytes; a macro is embedded as the composition of its instructions, each
    of them a function on the 32 bits of a data register. *)

(** ** [swpcopyw] *)

(** The memory: a byte at every address.  [UBYTE_ALIAS] is the type of a
    byte of memory, which may alias any object. *)
Definition memory : Type := Z -> byte.

(** [p[i] = b;] for a pointer [p] to bytes *)
Definition poke (a : Z) (b : byte) (m : memory) : memory :=
  fun x => if x =? a then b else m x.

(** Copy and swap an UWORD from *src to *dest *)
Definition swpcopyw (src dest : Z) (m : memory) : memory :=
  let s := src in
  let d := dest in
  let m := poke (d + 0) (m (s + 1)) m in   (* d[0] = s[1]; *)
  poke (d + 1) (m (s + 0)) m.              (* d[1] = s[0]; *)

(** The 16-bit word that the 68000, a big-endian machine, reads at [a]. *)
Definition word_at (m : memory) (a : Z) : Z :=
  Z.of_N (Byte.to_N (m a)) * 256 + Z.of_N (Byte.to_N (m (a + 1))).

(** ** The instructions

    A data register holds a number below [2^32]; the low-order word of [d]
    is [d mod 2^16] and the high-order word [d / 2^16]. *)

(** Rotation of the [bits] low-order bits: bit [i] goes to bit [i - n] for
    a rotation to the right, to bit [i + n] for a rotation to the left,
    modulo [bits]. *)
Definition rotate_right (bits n x : Z) : Z :=
  x / 2 ^ n + (x mod 2 ^ n) * 2 ^ (bits - n).

Definition rotate_left (bits n x : Z) : Z :=
  (x mod 2 ^ (bits - n)) * 2 ^ n + x / 2 ^ (bits - n).

(** [ror.w #n,Dn]: the low-order word is rotated, the high-order word is
    left alone.  The size [.w] is the one of an instruction written
    without a size. *)
Definition ror_w (n d : Z) : Z :=
  (d / 2 ^ 16) * 2 ^ 16 + rotate_right 16 n (d mod 2 ^ 16).

(** [rol.w #n,Dn] *)
Definition rol_w (n d : Z) : Z :=
  (d / 2 ^ 16) * 2 ^ 16 + rotate_left 16 n (d mod 2 ^ 16).

(** [ror.l #n,Dn] and [rol.l #n,Dn] *)
Definition ror_l (n d : Z) : Z := rotate_right 32 n d.

Definition rol_l (n d : Z) : Z := rotate_left 32 n d.

(** [swap Dn]: the two words of the register change places. *)
Definition swap (d : Z) : Z := (d mod 2 ^ 16) * 2 ^ 16 + d / 2 ^ 16.

(** [subq.l #n,Dn]: the difference modulo [2^32], and the flag N, which is
    the bit 31 of the result. *)
Definition subq_l (n d : Z) : Z * bool :=
  let r := (d - n) mod 2 ^ 32 in (r, 2 ^ 31 <=? r).

(** ** The macros *)

(** [swpw(a)]: swap endianness of val, 16 bits only.
    [ror #8,%0] *)
Definition swpw (a : Z) : Z := ror_w 8 a.

(** [swpl(a)]: swap endianness of val, 32 bits only.
    [ror #8,%0; swap %0; ror #8,%0] *)
Definition swpl (a : Z) : Z := ror_w 8 (swap (ror_w 8 a)).

(** [swpw2(a)]: swap endianness of val, treated as two 16-bit words.
    [ror #8,%0; swap %0; ror #8,%0; swap %0] *)
Definition swpw2 (a : Z) : Z := swap (ror_w 8 (swap (ror_w 8 a))).

(** [rolw1(x)]: [rol.w #1,%1], where operand 1 is the register of [x]. *)
Definition rolw1 (x : Z) : Z := rol_w 1 x.

(** [rorw1(x)]: [ror.w #1,%1] *)
Definition rorw1 (x : Z) : Z := ror_w 1 x.

(** [roll(x,n)]: [rol.l %2,%1]; the constraint ["I"] wants [n] to be a
    constant from 1 to 8. *)
Definition roll (x n : Z) : Z := rol_l n x.

(** [rorl(x,n)]: [ror.l %2,%1] *)
Definition rorl (x n : Z) : Z := ror_l n x.

(** [delay_loop(count)]: [0: subq.l #1,%0; jpl 0b].  The loop goes round
    as long as the flag N is clear after the subtraction.  The result is
    the register at the end and the number of times the subtraction was
    done; [None] when the [rounds] given do not reach the end. *)
Fixpoint delay_loop (rounds : nat) (count : Z) (turns : Z) : option (Z * Z) :=
  match rounds with
  | O => None
  | S rounds =>
      let '(count, negative) := subq_l 1 count in
      if negative then Some (count, turns + 1)
      else delay_loop rounds count (turns + 1)
  end.

(** ** Registers byte by byte *)

(** The register that holds the bytes A, B, C and D, from the high-order
    one to the low-order one: ABCD in the words of the header. *)
Definition of_bytes (A B C D : Z) : Z := ((A * 256 + B) * 256 + C) * 256 + D.

Definition is_byte (b : Z) : Prop := 0 <= b < 256.

(** ** Tactics *)

(** The reductions that run the state monad and read the fields of
    explicit states, and nothing else. *)
Ltac norm :=
  repeat
    (cbv beta iota zeta;
     cbn [negb hd tail fst snd canon dir files g_buffer opened g_argv0 stdout stderr
          faults set_canon set_dir set_files set_faults set_g_buffer set_stdout set_stderr
          set_opened set_g_argv0 f_file f_pos f_error set_pos ret report_errno
          fprintf_stderr printf report_too_big transfer];
     try change (0 =? 0) with true;
     try change (1 =? 0) with false;
     try change (-1 =? 0) with false).

Ltac norm_in H :=
  repeat
    (cbv beta iota zeta in H;
     cbn [negb hd tail fst snd canon dir files g_buffer opened g_argv0 stdout stderr
          faults set_canon set_dir set_files set_faults set_g_buffer set_stdout set_stderr
          set_opened set_g_argv0 f_file f_pos f_error set_pos ret report_errno
          fprintf_stderr printf report_too_big transfer] in H;
     try change (0 =? 0) with true in H;
     try change (1 =? 0) with false in H;
     try change (-1 =? 0) with false in H).

(** From two equations for one run of a rule, [Hrun] with variables on its
    right and [Hok] with the values, the value of the result and that of
    the final state. *)
Ltac same_run Hrun Hok r w' :=
  rewrite Hrun in Hok;
  let Hr := fresh "Hr" in
  let Hw := fresh "Hw" in
  pose proof (f_equal (fun x : Z * FILE * FILE * world => fst (fst (fst x))) Hok)
    as Hr;
  pose proof (f_equal (fun x : Z * FILE * FILE * world => snd x) Hok) as Hw;
  cbn [fst snd] in Hr, Hw; subst r w'; clear Hok.

(** * Properties *)

(** ** Integers of the data model *)

Lemma long_bits_cases dm : long_bits dm = 32 \/ long_bits dm = 64.
Proof. destruct dm; auto. Qed.

Lemma SIZE_ERROR_eq dm : SIZE_ERROR dm = 2 ^ long_bits dm - 1.
Proof. destruct dm; reflexivity. Qed.

Lemma SIZE_ERROR_LONG_MAX dm : SIZE_ERROR dm = 2 * LONG_MAX dm + 1.
Proof. destruct dm; reflexivity. Qed.

Lemma LONG_MAX_ge dm : 2147483647 <= LONG_MAX dm.
Proof. destruct dm; vm_compute; discriminate. Qed.

Lemma to_size_t_small dm z : 0 <= z <= SIZE_ERROR dm -> to_size_t dm z = z.
Proof.
  rewrite SIZE_ERROR_eq. intros Hz. unfold to_size_t.
  apply Z.mod_small. lia.
Qed.

Lemma to_size_t_range dm z : 0 <= to_size_t dm z <= SIZE_ERROR dm.
Proof.
  rewrite SIZE_ERROR_eq. unfold to_size_t.
  assert (0 < 2 ^ long_bits dm) by (destruct dm; reflexivity).
  pose proof (Z.mod_pos_bound z (2 ^ long_bits dm)). lia.
Qed.

Lemma MIN_spec a b : MIN a b = Z.min a b.
Proof. unfold MIN. destruct (Z.leb_spec a b); lia. Qed.

Lemma zlength_nonneg {A} (l : list A) : 0 <= zlength l.
Proof. unfold zlength. lia. Qed.

Lemma zlength_app {A} (l k : list A) : zlength (l ++ k) = zlength l + zlength k.
Proof. unfold zlength. rewrite length_app. lia. Qed.

Lemma zlength_replicate {A} n (x : A) : zlength (replicate n x) = Z.of_nat n.
Proof. unfold zlength. by rewrite length_replicate. Qed.

(** ** The state *)

Lemma world_eta w :
  World (canon w) (dir w) (files w) (opened w) (faults w) (g_argv0 w)
    (g_buffer w) (stdout w) (stderr w) = w.
Proof. by destruct w. Qed.

Lemma FILE_eta f : Stream (f_file f) (f_pos f) (f_error f) = f.
Proof. by destruct f. Qed.

Lemma bind_step {A B} (c : M A) (k : A -> M B) w a w' :
  c w = (a, w') -> bind c k w = k a w'.
Proof. unfold bind. by intros ->. Qed.

Lemma next_fault_none w : faults w = [] -> next_fault w = (NoFault, w).
Proof.
  intros H. unfold next_fault. rewrite H. simpl. f_equal.
  rewrite <- (world_eta w) at 2. unfold set_faults. by rewrite H.
Qed.

Lemma advance_complete n f : advance n false f = Stream (f_file f) (f_pos f + n) (f_error f).
Proof. unfold advance. by rewrite orb_false_r. Qed.

(** ** Writing at an offset *)

Lemma length_write_at pos bytes data :
  length (write_at pos bytes data)
  = (Nat.max (pos + length bytes) (length data))%nat.
Proof.
  unfold write_at.
  rewrite !length_app, length_take, length_replicate, length_drop. lia.
Qed.

Lemma write_at_end bytes data : write_at (length data) bytes data = data ++ bytes.
Proof.
  unfold write_at. rewrite take_ge by lia.
  rewrite Nat.sub_diag. simpl. rewrite drop_ge by lia. by rewrite app_nil_r.
Qed.

(** Two writes, the second where the first ended, are one write. *)
Lemma write_at_write_at pos a b data :
  write_at (pos + length a) b (write_at pos a data) = write_at pos (a ++ b) data.
Proof.
  unfold write_at.
  set (gap := replicate (pos - length data)%nat x00).
  assert (Hlen : length (take pos data ++ gap) = pos).
  { subst gap. rewrite length_app, length_take, length_replicate. lia. }
  assert (Hpre : forall rest,
    take pos data ++ gap ++ a ++ rest = ((take pos data ++ gap) ++ a) ++ rest).
  { intros. by rewrite <- !app_assoc. }
  rewrite (Hpre (drop (pos + length a) data)).
  assert (Hlen' : length ((take pos data ++ gap) ++ a) = (pos + length a)%nat).
  { rewrite length_app. lia. }
  rewrite take_app_length' by done.
  rewrite (drop_app_add' _ _ (pos + length a)) by done.
  rewrite (length_app (_ ++ a)), Hlen', length_drop, (length_app a b).
  replace (pos + length a - (pos + length a + (length data - (pos + length a))))%nat
    with 0%nat by lia.
  simpl. rewrite drop_drop. rewrite <- !app_assoc.
  by rewrite Nat.add_assoc.
Qed.

(** ** The directory

    No call but [fopen] and [remove] changes what a path names. *)

Lemma keeps_dir_ret {A} (a : A) : keeps_dir (ret a).
Proof. done. Qed.

Lemma keeps_dir_bind {A B} (c : M A) (k : A -> M B) :
  keeps_dir c -> (forall a, keeps_dir (k a)) -> keeps_dir (bind c k).
Proof.
  intros Hc Hk w. unfold bind. destruct (Hc w) as [Hdir Hcanon].
  destruct (c w) as [a w1]. cbn [snd] in Hdir, Hcanon.
  destruct (Hk a w1) as [-> ->]. done.
Qed.

Lemma keeps_dir_run {A} (c : M A) w a w' :
  keeps_dir c -> c w = (a, w') -> dir w' = dir w /\ canon w' = canon w.
Proof. intros Hc Hrun. specialize (Hc w). by rewrite Hrun in Hc. Qed.

Lemma keeps_dir_next_fault : keeps_dir next_fault.
Proof. done. Qed.

Lemma keeps_dir_printf l : keeps_dir (printf l).
Proof. done. Qed.

Lemma keeps_dir_fprintf_stderr l : keeps_dir (fprintf_stderr l).
Proof. done. Qed.

Lemma keeps_dir_report_errno filename : keeps_dir (report_errno filename).
Proof. done. Qed.

Lemma keeps_dir_report_too_big dm filename extra :
  keeps_dir (report_too_big dm filename extra).
Proof. done. Qed.

Lemma keeps_dir_fread_g_buffer n f : keeps_dir (fread_g_buffer n f).
Proof. done. Qed.

Lemma keeps_dir_fwrite bytes f : keeps_dir (fwrite bytes f).
Proof. done. Qed.

Lemma keeps_dir_fwrite_g_buffer n f : keeps_dir (fwrite_g_buffer n f).
Proof. done. Qed.

Lemma keeps_dir_memset_g_buffer value n : keeps_dir (memset_g_buffer value n).
Proof. done. Qed.

Lemma keeps_dir_ftell dm f : keeps_dir (ftell dm f).
Proof. done. Qed.

Lemma keeps_dir_fseek f offset wh : keeps_dir (fseek f offset wh).
Proof.
  intros w. unfold fseek, bind, next_fault. norm.
  destruct (hd NoFault (faults w)); [|done]. by destruct (0 <=? _).
Qed.

Lemma keeps_dir_fclose f : keeps_dir (fclose f).
Proof. done. Qed.

Create HintDb keeps_dir.

#[global] Hint Resolve keeps_dir_ret keeps_dir_next_fault keeps_dir_printf
  keeps_dir_fprintf_stderr keeps_dir_report_errno keeps_dir_report_too_big
  keeps_dir_fread_g_buffer keeps_dir_fwrite keeps_dir_fwrite_g_buffer
  keeps_dir_memset_g_buffer keeps_dir_ftell keeps_dir_fseek keeps_dir_fclose
  : keeps_dir.

(** One step through a computation that is built from calls that keep the
    directory. *)
Ltac keeps_dir_step :=
  first
    [ solve [auto with keeps_dir]
    | apply keeps_dir_bind; [|intros]
    | match goal with
      | |- keeps_dir (if ?b then _ else _) => destruct b
      | |- keeps_dir (match ?x with _ => _ end) => destruct x
      | |- keeps_dir (fun w => fprintf_stderr _ w) =>
          apply keeps_dir_fprintf_stderr
      end ].

Lemma keeps_dir_get_file_size dm file filename :
  keeps_dir (get_file_size dm file filename).
Proof. unfold get_file_size. repeat keeps_dir_step. Qed.

Lemma keeps_dir_write_byte_block_loop dm outfilename rounds :
  forall outfile count,
  keeps_dir (write_byte_block_loop dm rounds outfile outfilename count).
Proof.
  induction rounds as [|rounds IH]; intros outfile count; simpl;
    repeat keeps_dir_step; apply IH.
Qed.

Lemma keeps_dir_write_byte_block dm outfile outfilename value count :
  keeps_dir (write_byte_block dm outfile outfilename value count).
Proof.
  unfold write_byte_block.
  repeat keeps_dir_step; apply keeps_dir_write_byte_block_loop.
Qed.

Lemma keeps_dir_copy_stream_loop dm infilename outfilename rounds :
  forall infile outfile count,
  keeps_dir
    (copy_stream_loop dm rounds infile infilename outfile outfilename count).
Proof.
  induction rounds as [|rounds IH]; intros infile outfile count; simpl;
    repeat keeps_dir_step; apply IH.
Qed.

Lemma keeps_dir_copy_stream dm infile infilename outfile outfilename count :
  keeps_dir (copy_stream dm infile infilename outfile outfilename count).
Proof. apply keeps_dir_copy_stream_loop. Qed.

#[global] Hint Resolve keeps_dir_get_file_size keeps_dir_write_byte_block
  keeps_dir_copy_stream : keeps_dir.

Lemma keeps_dir_append_and_pad dm infile infilename outfile outfilename
    target_size :
  keeps_dir
    (append_and_pad dm infile infilename outfile outfilename target_size).
Proof. unfold append_and_pad. repeat keeps_dir_step. Qed.

#[global] Hint Resolve keeps_dir_append_and_pad : keeps_dir.

Lemma keeps_dir_cmd_pad dm infile infilename outfile outfilename target_size :
  keeps_dir (cmd_pad dm infile infilename outfile outfilename target_size).
Proof. unfold cmd_pad. repeat keeps_dir_step. Qed.

Lemma keeps_dir_cmd_pak3 dm infile infilename outfile outfilename :
  keeps_dir (cmd_pak3 dm infile infilename outfile outfilename).
Proof. unfold cmd_pak3. repeat keeps_dir_step. Qed.

Lemma keeps_dir_cmd_stc dm infile infilename outfile outfilename :
  keeps_dir (cmd_stc dm infile infilename outfile outfilename).
Proof. unfold cmd_stc. repeat keeps_dir_step. Qed.

#[global] Hint Resolve keeps_dir_cmd_pad keeps_dir_cmd_pak3 keeps_dir_cmd_stc
  : keeps_dir.

(** ** The file system under [store] *)

Lemma store_cons f b bytes fs :
  store f (b :: bytes) fs
  = <[f_file f := write_at (Z.to_nat (f_pos f)) (b :: bytes)
                    (file_bytes f fs)]> fs.
Proof. reflexivity. Qed.

Lemma lookup_store_ne f bytes (fs : gmap file_id (list byte)) p :
  f_file f <> p -> store f bytes fs !! p = fs !! p.
Proof.
  intros Hp. destruct bytes as [|b bytes]; [done|].
  rewrite store_cons. by rewrite lookup_insert_ne.
Qed.

Lemma lookup_store_eq f bytes (fs : gmap file_id (list byte)) :
  bytes <> [] ->
  store f bytes fs !! f_file f
  = Some (write_at (Z.to_nat (f_pos f)) bytes (file_bytes f fs)).
Proof.
  destruct bytes as [|b bytes]; [done|]. intros _.
  rewrite store_cons. by rewrite lookup_insert_eq.
Qed.

(** A second [store] where the first one ended extends it. *)
Lemma store_store f f' a b (fs : gmap file_id (list byte)) :
  0 <= f_pos f -> f_file f' = f_file f -> f_pos f' = f_pos f + zlength a ->
  store f' b (store f a fs) = store f (a ++ b) fs.
Proof.
  intros Hpos Hpath Hpos'.
  destruct a as [|x a].
  { simpl. unfold zlength in Hpos'. simpl in Hpos'.
    unfold store, file_bytes. rewrite Hpath, Hpos', Z.add_0_r. done. }
  destruct b as [|y b].
  { by rewrite app_nil_r. }
  change ((x :: a) ++ y :: b) with (x :: (a ++ y :: b)).
  rewrite !store_cons. unfold file_bytes.
  rewrite Hpath, lookup_insert_eq, insert_insert_eq. simpl.
  f_equal. rewrite Hpos'. unfold zlength.
  rewrite Z2Nat.inj_add, Nat2Z.id by lia.
  apply (write_at_write_at _ (x :: a) (y :: b)).
Qed.

(** ** The library calls *)

Lemma transfer_length flt bytes :
  (length (transfer flt bytes) <= length bytes)%nat.
Proof. destruct flt; simpl; [lia|]. rewrite length_take. lia. Qed.

Lemma transfer_full flt bytes :
  length (transfer flt bytes) = length bytes -> transfer flt bytes = bytes.
Proof.
  destruct flt as [|k]; [done|]. simpl. rewrite length_take.
  intros H. apply take_ge. lia.
Qed.

Lemma fwrite_eq bytes f w :
  fwrite bytes f w
  = (let put := transfer (hd NoFault (faults w)) bytes in
     ((zlength put, advance (zlength put) (length put <? length bytes)%nat f),
      set_files (store f put (files w)) (set_faults (tl (faults w)) w))).
Proof. reflexivity. Qed.

Lemma fread_g_buffer_eq n f w :
  fread_g_buffer n f w
  = (let wanted := take (Z.to_nat n) (drop (Z.to_nat (f_pos f)) (file_bytes f (files w))) in
     let got := transfer (hd NoFault (faults w)) wanted in
     ((zlength got, advance (zlength got) (length got <? length wanted)%nat f),
      set_g_buffer (got ++ drop (length got) (g_buffer w))
        (set_faults (tl (faults w)) w))).
Proof. reflexivity. Qed.

(** ** [write_byte_block] *)

(** The loop, started with the head of the buffer filled with [value]:
    when it reports success, [count] bytes [value] went to the file at the
    position of the stream, and nothing else changed; it reports success
    when no fault comes. *)
Lemma write_byte_block_loop_spec dm value outfilename rounds :
  forall count outfile w r outfile' w',
  0 <= count <= SIZE_ERROR dm ->
  (Z.to_nat count <= rounds)%nat ->
  0 <= f_pos outfile ->
  take (Z.to_nat (MIN BUFFER_SIZE count)) (g_buffer w)
    = replicate (Z.to_nat (MIN BUFFER_SIZE count)) value ->
  write_byte_block_loop dm rounds outfile outfilename count w
    = ((r, outfile'), w') ->
  (r = 1 ->
     outfile' = Stream (f_file outfile) (f_pos outfile + count) (f_error outfile)
     /\ files w' = store outfile (replicate (Z.to_nat count) value) (files w)
     /\ g_buffer w' = g_buffer w /\ opened w' = opened w
     /\ g_argv0 w' = g_argv0 w /\ stdout w' = stdout w /\ stderr w' = stderr w)
  /\ (faults w = [] -> r = 1 /\ faults w' = []).
Proof.
  induction rounds as [|rounds IH]; intros count outfile w r outfile' w'
    Hcount Hrounds Hpos Hbuf Hrun.
  - assert (count = 0) as -> by lia. simpl in Hrun.
    injection Hrun as <- <- <-.
    rewrite Z.add_0_r, FILE_eta. simpl. auto 10.
  - simpl in Hrun. destruct (Z.ltb_spec 0 count) as [Hgt|Hle].
    2:{ assert (count = 0) as -> by lia. injection Hrun as <- <- <-.
        rewrite Z.add_0_r, FILE_eta. simpl. auto 10. }
    unfold bind, fwrite_g_buffer in Hrun. rewrite fwrite_eq in Hrun.
    rewrite Hbuf in Hrun. cbv beta iota zeta in Hrun.
    set (n := Z.to_nat (MIN BUFFER_SIZE count)) in *.
    assert (Hn : Z.of_nat n = MIN BUFFER_SIZE count).
    { subst n. rewrite MIN_spec. unfold BUFFER_SIZE. lia. }
    assert (Hmin : 0 < MIN BUFFER_SIZE count <= count).
    { rewrite MIN_spec. unfold BUFFER_SIZE. lia. }
    set (put := transfer (hd NoFault (faults w)) (replicate n value)) in *.
    revert Hrun.
    destruct (Z.eqb_spec (zlength put) (MIN BUFFER_SIZE count)) as [Heq|Hne];
      simpl; intros Hrun.
    + assert (Hput : put = replicate n value).
      { apply transfer_full. fold put. rewrite length_replicate.
        unfold zlength in Heq. lia. }
      rewrite Hput in Hrun. rewrite length_replicate, Nat.ltb_irrefl in Hrun.
      rewrite advance_complete in Hrun.
      rewrite zlength_replicate, Hn in Hrun.
      rewrite to_size_t_small in Hrun by lia.
      eapply IH in Hrun; simpl; try lia.
      2:{ set (m := Z.to_nat (MIN BUFFER_SIZE (count - MIN BUFFER_SIZE count))).
          assert (Hm : (m <= n)%nat) by (subst m n; rewrite !MIN_spec; lia).
          replace (take m (g_buffer w)) with (take m (take n (g_buffer w)))
            by (rewrite take_take; f_equal; lia).
          rewrite Hbuf, take_replicate. f_equal. lia. }
      destruct Hrun as [Hok Hfree]. split.
      * intros Hr. destruct (Hok Hr) as (-> & Hfiles & Hrest). simpl in *.
        split; [f_equal; lia|]. split; [|exact Hrest].
        rewrite Hfiles. rewrite store_store; simpl; try done.
        2:{ rewrite zlength_replicate. lia. }
        rewrite <- replicate_add. do 2 f_equal. lia.
      * intros Hfaults. apply Hfree. simpl. by rewrite Hfaults.
    + injection Hrun as <- <- <-. split; [done|].
      intros Hfaults. exfalso. apply Hne. subst put. rewrite Hfaults. simpl.
      by rewrite zlength_replicate.
Qed.

Lemma write_byte_block_spec dm outfile outfilename value count w r outfile' w' :
  0 <= count <= SIZE_ERROR dm ->
  0 <= f_pos outfile ->
  write_byte_block dm outfile outfilename value count w = ((r, outfile'), w') ->
  (r = 1 ->
     outfile' = Stream (f_file outfile) (f_pos outfile + count) (f_error outfile)
     /\ files w' = store outfile (replicate (Z.to_nat count) value) (files w)
     /\ opened w' = opened w /\ g_argv0 w' = g_argv0 w
     /\ stdout w' = stdout w /\ stderr w' = stderr w)
  /\ (faults w = [] -> r = 1 /\ faults w' = []).
Proof.
  intros Hcount Hpos Hrun. unfold write_byte_block, bind, memset_g_buffer in Hrun.
  apply (write_byte_block_loop_spec dm value) in Hrun; simpl; try done.
  - destruct Hrun as [Hok Hfree]. split; [|exact Hfree].
    intros Hr. destruct (Hok Hr) as (? & ? & ? & ?). auto.
  - rewrite take_app_length'; [done|]. by rewrite length_replicate.
Qed.

(** With no fault to come the whole call is known. *)
Lemma write_byte_block_ok dm outfile outfilename value count w :
  faults w = [] ->
  0 <= count <= SIZE_ERROR dm ->
  0 <= f_pos outfile ->
  exists buf,
    write_byte_block dm outfile outfilename value count w
    = ((1, Stream (f_file outfile) (f_pos outfile + count) (f_error outfile)),
       set_g_buffer buf
         (set_files (store outfile (replicate (Z.to_nat count) value) (files w)) w)).
Proof.
  intros Hfaults Hcount Hpos.
  destruct (write_byte_block dm outfile outfilename value count w)
    as [[r outfile'] w'] eqn:Hrun.
  destruct (write_byte_block_spec _ _ _ _ _ _ _ _ _ Hcount Hpos Hrun) as [Hok Hfree].
  destruct (Hfree Hfaults) as [-> Hfaults'].
  destruct (Hok eq_refl) as (-> & Hfiles & Hopened & Hargv0 & Hstdout & Hstderr).
  pose proof (keeps_dir_run _ _ _ _ (keeps_dir_write_byte_block _ _ _ _ _) Hrun)
    as [Hdir Hcanon].
  exists (g_buffer w'). f_equal.
  rewrite <- (world_eta w'). unfold set_g_buffer, set_files. simpl.
  by rewrite Hcanon, Hdir, Hfiles, Hopened, Hfaults', Hfaults, Hargv0,
    Hstdout, Hstderr.
Qed.

(** A call for no byte changes nothing, whatever the environment. *)
Lemma write_byte_block_zero dm outfile outfilename value w :
  write_byte_block dm outfile outfilename value 0 w = ((1, outfile), w).
Proof.
  unfold write_byte_block, bind, memset_g_buffer.
  change (MIN BUFFER_SIZE 0) with 0. simpl. unfold ret.
  change (Z.to_nat 0) with 0%nat. rewrite drop_0. f_equal.
  apply world_eta.
Qed.

(** ** [copy_stream] *)

Lemma file_bytes_frame f f' (fs fs' : gmap file_id (list byte)) :
  f_file f' = f_file f ->
  fs' !! f_file f = fs !! f_file f ->
  file_bytes f' fs' = file_bytes f fs.
Proof. intros Hpath Hfiles. unfold file_bytes. by rewrite Hpath, Hfiles. Qed.

Lemma take_zlength_app {A} (l k : list A) :
  take (Z.to_nat (zlength l)) (l ++ k) = l.
Proof. unfold zlength. by rewrite Nat2Z.id, take_app_length. Qed.

(** A source that holds fewer than [count] bytes past its position makes
    the loop fail with one complaint, whatever the environment does; with
    no fault and no error pending the complaint is the premature end of
    the file. *)
Lemma copy_stream_loop_short dm infilename outfilename rounds :
  forall count infile outfile w,
  0 < count <= SIZE_ERROR dm ->
  (Z.to_nat count <= rounds)%nat ->
  f_file infile <> f_file outfile ->
  0 <= f_pos infile ->
  zlength (file_bytes infile (files w)) - f_pos infile < count ->
  let '(r, _, _, w') :=
    copy_stream_loop dm rounds infile infilename outfile outfilename count w in
  r = 0
  /\ (exists m,
       stderr w' = stderr w ++ [m]
       /\ (m = ErrPrematureEOF (g_argv0 w) infilename
           \/ m = ErrErrno (g_argv0 w) infilename
           \/ m = ErrErrno (g_argv0 w) outfilename))
  /\ (faults w = [] -> f_error infile = false ->
      stderr w' = stderr w ++ [ErrPrematureEOF (g_argv0 w) infilename]).
Proof.
  induction rounds as [|rounds IH]; intros count infile outfile w
    Hcount Hrounds Hpaths Hpos Hshort; [lia|].
  assert (Hmin : 0 < MIN BUFFER_SIZE count <= count).
  { rewrite MIN_spec. unfold BUFFER_SIZE. lia. }
  simpl. destruct (Z.eqb_spec (MIN BUFFER_SIZE count) 0) as [|_]; [lia|].
  unfold bind. rewrite fread_g_buffer_eq. cbv beta iota zeta.
  set (wanted := take (Z.to_nat (MIN BUFFER_SIZE count))
                   (drop (Z.to_nat (f_pos infile))
                      (file_bytes infile (files w)))).
  set (got := transfer (hd NoFault (faults w)) wanted).
  assert (Hgot : zlength got <= zlength wanted
                 /\ zlength wanted <= MIN BUFFER_SIZE count
                 /\ (0 < zlength wanted ->
                     zlength wanted
                     <= zlength (file_bytes infile (files w)) - f_pos infile)).
  { pose proof (transfer_length (hd NoFault (faults w)) wanted) as Hle.
    fold got in Hle. unfold zlength. subst wanted.
    rewrite length_take, length_drop in *. lia. }
  pose proof (zlength_nonneg got) as Hgot0.
  destruct (Z.eqb_spec (zlength got) 0) as [Hzero|Hsome].
  - unfold ferror. norm. cbn [advance f_file f_pos f_error].
    destruct (f_error infile || (length got <? length wanted)%nat) eqn:Herr;
      norm; (split; [done|]); (split; [eauto|]);
      intros Hfaults Hclean; [|done].
    exfalso. subst got. rewrite Hfaults, Hclean in Herr. simpl in Herr.
    by rewrite Nat.ltb_irrefl in Herr.
  - unfold fwrite_g_buffer. rewrite fwrite_eq. norm.
    rewrite !take_zlength_app. cbv beta iota zeta.
    set (put := transfer (hd NoFault (tail (faults w))) got).
    destruct (Z.eqb_spec (zlength put) (zlength got)) as [Heq|Hne]; norm.
    + assert (Hput : put = got).
      { apply transfer_full. fold put. unfold zlength in Heq. lia. }
      rewrite Hput, Nat.ltb_irrefl, advance_complete.
      rewrite to_size_t_small by lia.
      match goal with
      | |- context [copy_stream_loop dm rounds ?i _ ?o _ ?c ?w1] =>
          specialize (IH c i o w1)
      end.
      norm_in IH. cbn [advance f_file f_pos f_error] in IH.
      rewrite (file_bytes_frame infile _ (files w)) in IH;
        [|done|by rewrite lookup_store_ne].
      destruct (copy_stream_loop dm rounds _ _ _ _ _ _) as [[[r i'] o'] w'].
      destruct IH as (Hr & Hone & Hmsg); try lia.
      split; [done|]. split; [done|].
      intros Hfaults Hclean. apply Hmsg.
      * by rewrite Hfaults.
      * rewrite Hclean. subst got. rewrite Hfaults. simpl.
        by rewrite Nat.ltb_irrefl.
    + split; [done|]. split; [eauto 6|]. intros Hfaults _. exfalso. apply Hne.
      subst put. by rewrite Hfaults.
Qed.

Lemma world_eq w1 w2 :
  canon w1 = canon w2 -> dir w1 = dir w2 -> files w1 = files w2 ->
  opened w1 = opened w2 -> faults w1 = faults w2 ->
  g_argv0 w1 = g_argv0 w2 -> g_buffer w1 = g_buffer w2 ->
  stdout w1 = stdout w2 -> stderr w1 = stderr w2 -> w1 = w2.
Proof. destruct w1, w2. simpl. by intros -> -> -> -> -> -> -> -> ->. Qed.

(** With no fault to come and [count] bytes left in the source, the loop
    succeeds: the bytes went to the destination and both streams moved. *)
Lemma copy_stream_loop_ok dm infilename outfilename rounds :
  forall count infile outfile w,
  faults w = [] ->
  0 <= count <= SIZE_ERROR dm ->
  (Z.to_nat count <= rounds)%nat ->
  f_file infile <> f_file outfile ->
  0 <= f_pos infile -> 0 <= f_pos outfile ->
  f_pos infile + count <= zlength (file_bytes infile (files w)) ->
  exists buf,
    copy_stream_loop dm rounds infile infilename outfile outfilename count w
    = ((1, Stream (f_file infile) (f_pos infile + count) (f_error infile),
           Stream (f_file outfile) (f_pos outfile + count) (f_error outfile)),
       set_g_buffer buf
         (set_files
            (store outfile
               (take (Z.to_nat count)
                  (drop (Z.to_nat (f_pos infile)) (file_bytes infile (files w))))
               (files w)) w)).
Proof.
  induction rounds as [|rounds IH]; intros count infile outfile w
    Hfaults Hcount Hrounds Hpaths Hposi Hposo Henough.
  all: destruct (Z.eq_dec count 0) as [->|Hnz]; [|try lia].
  1,2: exists (g_buffer w); simpl;
       change (MIN BUFFER_SIZE 0 =? 0) with true; cbv beta iota; unfold ret;
       rewrite !Z.add_0_r, !FILE_eta; f_equal;
       by rewrite <- (world_eta w) at 1.
  assert (Hmin : 0 < MIN BUFFER_SIZE count <= count).
  { rewrite MIN_spec. unfold BUFFER_SIZE. lia. }
  simpl. destruct (Z.eqb_spec (MIN BUFFER_SIZE count) 0) as [|_]; [lia|].
  unfold bind. rewrite fread_g_buffer_eq. rewrite Hfaults.
  cbv beta iota zeta. cbn [hd tail transfer].
  set (data := drop (Z.to_nat (f_pos infile)) (file_bytes infile (files w))).
  set (got := take (Z.to_nat (MIN BUFFER_SIZE count)) data).
  assert (Hgot : zlength got = MIN BUFFER_SIZE count).
  { unfold zlength in *. subst got data.
    rewrite length_take, length_drop. lia. }
  rewrite Hgot, Nat.ltb_irrefl, advance_complete.
  destruct (Z.eqb_spec (MIN BUFFER_SIZE count) 0) as [|_]; [lia|].
  unfold fwrite_g_buffer. rewrite fwrite_eq. simpl g_buffer. simpl faults.
  rewrite <- Hgot, !take_zlength_app. cbv beta iota zeta.
  cbn [hd tail transfer]. rewrite Nat.ltb_irrefl, advance_complete, Z.eqb_refl.
  cbn [negb]. rewrite to_size_t_small by lia.
  match goal with
  | |- context [copy_stream_loop dm rounds ?i _ ?o _ ?c ?w1] =>
      destruct (IH c i o w1) as [buf Hloop]; simpl; try done; try lia
  end.
  { rewrite (file_bytes_frame infile _ (files w));
      [lia|done|by rewrite lookup_store_ne]. }
  exists buf. simpl in Hloop. rewrite Hloop. simpl.
  rewrite (file_bytes_frame infile _ (files w));
    [|done|by rewrite lookup_store_ne].
  replace (f_pos infile + zlength got + (count - zlength got))
    with (f_pos infile + count) by lia.
  replace (f_pos outfile + zlength got + (count - zlength got))
    with (f_pos outfile + count) by lia.
  f_equal. apply world_eq; simpl; try done.
  rewrite store_store; simpl; try done. f_equal.
  rewrite Hgot, Z2Nat.inj_add, <- drop_drop by lia. fold data.
  unfold got. rewrite take_take_drop. f_equal. lia.
Qed.

(** ** The bound on the rounds of the two loops

    Each loop is written with a bound on its rounds and is started with
    [count] rounds.  A round takes at least one byte off [count]: once the
    bound reaches [count] the result no longer depends on it, so that the
    bound never cuts a loop short. *)

Lemma write_byte_block_loop_rounds dm outfilename rounds :
  forall count outfile w,
  0 <= count <= SIZE_ERROR dm ->
  (Z.to_nat count <= rounds)%nat ->
  write_byte_block_loop dm (S rounds) outfile outfilename count w
  = write_byte_block_loop dm rounds outfile outfilename count w.
Proof.
  induction rounds as [|rounds IH]; intros count outfile w Hcount Hrounds.
  - assert (count = 0) as -> by lia. reflexivity.
  - change (write_byte_block_loop dm (S (S rounds)) outfile outfilename count w)
      with ((if 0 <? count
             then
               do (written, outfile) <-
                 fwrite_g_buffer (MIN BUFFER_SIZE count) outfile ;;
               if negb (written =? MIN BUFFER_SIZE count)
               then exec report_errno outfilename ;; ret (0, outfile)
               else write_byte_block_loop dm (S rounds) outfile outfilename
                      (to_size_t dm (count - written))
             else ret (1, outfile)) w).
    change (write_byte_block_loop dm (S rounds) outfile outfilename count w)
      with ((if 0 <? count
             then
               do (written, outfile) <-
                 fwrite_g_buffer (MIN BUFFER_SIZE count) outfile ;;
               if negb (written =? MIN BUFFER_SIZE count)
               then exec report_errno outfilename ;; ret (0, outfile)
               else write_byte_block_loop dm rounds outfile outfilename
                      (to_size_t dm (count - written))
             else ret (1, outfile)) w).
    destruct (Z.ltb_spec 0 count) as [Hgt|_]; [|done].
    assert (Hmin : 0 < MIN BUFFER_SIZE count <= count).
    { rewrite MIN_spec. unfold BUFFER_SIZE. lia. }
    unfold bind.
    destruct (fwrite_g_buffer (MIN BUFFER_SIZE count) outfile w)
      as [[written outfile1] w1].
    destruct (Z.eqb_spec written (MIN BUFFER_SIZE count)) as [->|_]; [|done].
    norm. rewrite to_size_t_small by lia. apply IH; lia.
Qed.

Lemma fread_g_buffer_count n f w :
  0 <= n -> 0 <= fst (fst (fread_g_buffer n f w)) <= n.
Proof.
  intros Hn. rewrite fread_g_buffer_eq. norm.
  pose proof (transfer_length (hd NoFault (faults w))
                (take (Z.to_nat n)
                   (drop (Z.to_nat (f_pos f)) (file_bytes f (files w))))) as H.
  rewrite length_take in H. unfold zlength. lia.
Qed.

Lemma copy_stream_loop_rounds dm infilename outfilename rounds :
  forall count infile outfile w,
  0 <= count <= SIZE_ERROR dm ->
  (Z.to_nat count <= rounds)%nat ->
  copy_stream_loop dm (S rounds) infile infilename outfile outfilename count w
  = copy_stream_loop dm rounds infile infilename outfile outfilename count w.
Proof.
  induction rounds as [|rounds IH]; intros count infile outfile w Hcount Hrounds.
  - assert (count = 0) as -> by lia. reflexivity.
  - set (body := fun (loop : FILE -> FILE -> Z -> M (Z * FILE * FILE)) =>
      if MIN BUFFER_SIZE count =? 0 then ret (1, infile, outfile)
      else
        do (towrite, infile) <- fread_g_buffer (MIN BUFFER_SIZE count) infile ;;
        if towrite =? 0
        then
          if ferror infile
          then exec report_errno infilename ;; ret (0, infile, outfile)
          else
            exec (fun w => fprintf_stderr
                             (ErrPrematureEOF (g_argv0 w) infilename) w) ;;
            ret (0, infile, outfile)
        else
          do (written, outfile) <- fwrite_g_buffer towrite outfile ;;
          if negb (written =? towrite)
          then exec report_errno outfilename ;; ret (0, infile, outfile)
          else loop infile outfile (to_size_t dm (count - written))).
    change (copy_stream_loop dm (S (S rounds)) infile infilename outfile
              outfilename count w)
      with (body (fun i o c =>
                    copy_stream_loop dm (S rounds) i infilename o outfilename c)
              w).
    change (copy_stream_loop dm (S rounds) infile infilename outfile
              outfilename count w)
      with (body (fun i o c =>
                    copy_stream_loop dm rounds i infilename o outfilename c)
              w).
    unfold body. clear body.
    destruct (Z.eqb_spec (MIN BUFFER_SIZE count) 0) as [|Hnz]; [done|].
    assert (Hmin : 0 < MIN BUFFER_SIZE count <= count).
    { rewrite MIN_spec in *. unfold BUFFER_SIZE in *. lia. }
    unfold bind.
    pose proof (fread_g_buffer_count (MIN BUFFER_SIZE count) infile w
                  ltac:(lia)) as Hread.
    destruct (fread_g_buffer (MIN BUFFER_SIZE count) infile w)
      as [[towrite infile1] w1].
    cbn [fst] in Hread.
    destruct (Z.eqb_spec towrite 0) as [|Hsome]; [done|].
    destruct (fwrite_g_buffer towrite outfile w1) as [[written outfile1] w2].
    destruct (Z.eqb_spec written towrite) as [->|_]; [|done].
    norm. rewrite to_size_t_small by lia. apply IH; lia.
Qed.

(** ** [get_file_size] *)

Lemma ftell_eq dm f w :
  ftell dm f w
  = (match hd NoFault (faults w) with
     | NoFault => if f_pos f <=? LONG_MAX dm then f_pos f else -1
     | FaultAfter _ => -1
     end, set_faults (tail (faults w)) w).
Proof. reflexivity. Qed.

Lemma fseek_eq f offset wh w :
  fseek f offset wh w
  = (let target :=
       match wh with
       | SEEK_SET => offset
       | SEEK_END => zlength (file_bytes f (files w)) + offset
       end in
     match hd NoFault (faults w) with
     | NoFault =>
         if 0 <=? target
         then ((0, set_pos target f), set_faults (tail (faults w)) w)
         else ((-1, f), set_faults (tail (faults w)) w)
     | FaultAfter _ => ((-1, f), set_faults (tail (faults w)) w)
     end).
Proof.
  unfold fseek, bind, next_fault. unfold file_bytes. simpl.
  by destruct (hd NoFault (faults w)).
Qed.

(** What a call of [get_file_size] can do, whatever the environment: it
    touches no file and no buffer, and either fails with [SIZE_ERROR] and
    one complaint, or returns the length of the file and leaves the stream
    as it found it. *)
Lemma get_file_size_cases dm file filename w r file' w' :
  get_file_size dm file filename w = ((r, file'), w') ->
  files w' = files w /\ g_buffer w' = g_buffer w /\ opened w' = opened w
  /\ g_argv0 w' = g_argv0 w /\ stdout w' = stdout w
  /\ f_file file' = f_file file
  /\ ((r = SIZE_ERROR dm
       /\ stderr w' = stderr w ++ [ErrErrno (g_argv0 w) filename])
      \/ (r = zlength (file_bytes file (files w)) /\ r <= LONG_MAX dm
          /\ file' = file /\ stderr w' = stderr w
          /\ faults w' = tail (tail (tail (tail (faults w)))))).
Proof.
  pose proof (zlength_nonneg (file_bytes file (files w))) as Hnn.
  pose proof (SIZE_ERROR_LONG_MAX dm) as Hmax.
  unfold get_file_size, bind. rewrite ftell_eq.
  destruct (hd NoFault (faults w)) eqn:Hf1; norm.
  2:{ intros [= <- <- <-]. norm. auto 10. }
  destruct (Z.leb_spec (f_pos file) (LONG_MAX dm)) as [Hp1|Hp1]; norm.
  2:{ intros [= <- <- <-]. norm. auto 10. }
  destruct (Z.eqb_spec (f_pos file) (-1)) as [Hm1|Hm1]; norm.
  { intros [= <- <- <-]. norm. auto 10. }
  rewrite fseek_eq. norm.
  destruct (hd NoFault (tail (faults w))) eqn:Hf2; norm.
  2:{ intros [= <- <- <-]. norm. auto 10. }
  rewrite Z.add_0_r.
  destruct (Z.leb_spec 0 (zlength (file_bytes file (files w)))) as [_|Hneg]; [|lia].
  norm. rewrite ftell_eq. norm.
  destruct (hd NoFault (tail (tail (faults w)))) eqn:Hf3; norm.
  2:{ intros [= <- <- <-]. norm. auto 10. }
  destruct (Z.leb_spec (zlength (file_bytes file (files w))) (LONG_MAX dm)) as [Hlen|Hlen];
    norm.
  2:{ intros [= <- <- <-]. norm. auto 10. }
  destruct (Z.eqb_spec (zlength (file_bytes file (files w))) (-1)) as [|_]; [lia|].
  norm. rewrite fseek_eq. norm.
  destruct (hd NoFault (tail (tail (tail (faults w))))) eqn:Hf4; norm.
  2:{ intros [= <- <- <-]. norm. auto 10. }
  destruct (Z.leb_spec 0 (f_pos file)) as [Hp0|Hp0]; norm.
  2:{ intros [= <- <- <-]. norm. auto 10. }
  intros [= <- <- <-]. norm. repeat (split; [done|]). right.
  rewrite to_size_t_small by lia.
  by destruct file.
Qed.

(** With no fault to come, a position and a length that fit a [long], the
    call returns the length and changes nothing. *)
Lemma get_file_size_ok dm file filename w :
  faults w = [] ->
  0 <= f_pos file <= LONG_MAX dm ->
  zlength (file_bytes file (files w)) <= LONG_MAX dm ->
  get_file_size dm file filename w = ((zlength (file_bytes file (files w)), file), w).
Proof.
  intros Hfaults Hpos Hlen.
  pose proof (zlength_nonneg (file_bytes file (files w))) as Hnn.
  pose proof (SIZE_ERROR_LONG_MAX dm) as Hmax.
  assert (Hw : set_faults [] w = w).
  { rewrite <- (world_eta w) at 2. unfold set_faults. by rewrite Hfaults. }
  unfold get_file_size, bind. rewrite ftell_eq, Hfaults. cbn [hd tail].
  rewrite Hw.
  destruct (Z.leb_spec (f_pos file) (LONG_MAX dm)); [|lia].
  destruct (Z.eqb_spec (f_pos file) (-1)); [lia|].
  rewrite fseek_eq, Hfaults. cbv zeta. cbn [hd tail]. rewrite Hw, Z.add_0_r.
  destruct (Z.leb_spec 0 (zlength (file_bytes file (files w)))); [|lia].
  norm.
  rewrite ftell_eq, Hfaults. cbn [hd tail f_pos set_pos]. rewrite Hw.
  destruct (Z.leb_spec (zlength (file_bytes file (files w))) (LONG_MAX dm)); [|lia].
  destruct (Z.eqb_spec (zlength (file_bytes file (files w))) (-1)); [lia|].
  rewrite fseek_eq, Hfaults. cbv zeta. cbn [hd tail]. rewrite Hw.
  destruct (Z.leb_spec 0 (f_pos file)); [|lia].
  norm.
  rewrite to_size_t_small by lia. norm. by destruct file.
Qed.

(** ** The rules with no fault to come *)

Lemma set_io_faults buf fs w : faults (set_g_buffer buf (set_files fs w)) = faults w.
Proof. reflexivity. Qed.

Lemma copy_stream_ok dm infile infilename outfile outfilename count w :
  faults w = [] ->
  0 <= count <= SIZE_ERROR dm ->
  f_file infile <> f_file outfile ->
  0 <= f_pos infile -> 0 <= f_pos outfile ->
  f_pos infile + count <= zlength (file_bytes infile (files w)) ->
  exists buf,
    copy_stream dm infile infilename outfile outfilename count w
    = ((1, Stream (f_file infile) (f_pos infile + count) (f_error infile),
           Stream (f_file outfile) (f_pos outfile + count) (f_error outfile)),
       set_g_buffer buf
         (set_files
            (store outfile
               (take (Z.to_nat count)
                  (drop (Z.to_nat (f_pos infile)) (file_bytes infile (files w))))
               (files w)) w)).
Proof. intros. by apply copy_stream_loop_ok. Qed.

(** The source is copied from its start and padded up to [target_size]. *)
Lemma append_and_pad_ok dm infile infilename outfile outfilename target_size w :
  faults w = [] ->
  f_file infile <> f_file outfile ->
  f_pos infile = 0 -> 0 <= f_pos outfile ->
  zlength (file_bytes infile (files w)) <= LONG_MAX dm ->
  zlength (file_bytes infile (files w)) <= target_size <= SIZE_ERROR dm ->
  exists buf,
    append_and_pad dm infile infilename outfile outfilename target_size w
    = ((1, zlength (file_bytes infile (files w)),
        Stream (f_file infile) (zlength (file_bytes infile (files w))) (f_error infile),
        Stream (f_file outfile) (f_pos outfile + target_size) (f_error outfile)),
       set_g_buffer buf
         (set_files
            (store outfile
               (file_bytes infile (files w)
                ++ replicate
                     (Z.to_nat (target_size - zlength (file_bytes infile (files w)))) x00)
               (files w)) w)).
Proof.
  intros Hfaults Hpaths Hposi Hposo Hlong Hsize.
  set (data := file_bytes infile (files w)) in *.
  pose proof (zlength_nonneg data) as Hnn.
  pose proof (SIZE_ERROR_LONG_MAX dm) as Hmax.
  unfold append_and_pad.
  rewrite (bind_step _ _ _ _ _ (get_file_size_ok dm infile infilename w
             Hfaults ltac:(lia) Hlong)).
  fold data. norm.
  destruct (Z.eqb_spec (zlength data) (SIZE_ERROR dm)) as [|_]; [lia|].
  destruct (Z.ltb_spec target_size (zlength data)) as [|_]; [lia|].
  destruct (copy_stream_ok dm infile infilename outfile outfilename
              (zlength data) w) as [buf1 Hcopy]; try done; try lia.
  { fold data. lia. }
  rewrite (bind_step _ _ _ _ _ Hcopy). norm.
  rewrite to_size_t_small by lia.
  lazymatch goal with
  | |- context [bind (write_byte_block dm ?o ?n ?v ?c) _ ?w1] =>
      destruct (write_byte_block_ok dm o n v c w1) as [buf2 Hpad];
        norm; try done; try lia
  end.
  rewrite (bind_step _ _ _ _ _ Hpad). norm.
  exists buf2. rewrite Hposi, Z.add_0_l.
  replace (f_pos outfile + zlength data + (target_size - zlength data))
    with (f_pos outfile + target_size) by lia.
  f_equal. apply world_eq; norm; try done.
  rewrite store_store; norm; try done.
  2:{ f_equal. unfold zlength. rewrite length_take, length_drop.
      fold data. unfold zlength in *. lia. }
  do 2 f_equal. change (Z.to_nat 0) with 0%nat.
  rewrite drop_0. fold data. apply take_ge. unfold zlength. lia.
Qed.

Lemma write_at_fresh bytes : write_at 0 bytes [] = bytes.
Proof. unfold write_at. simpl. by rewrite drop_nil, app_nil_r. Qed.

(** What an empty file holds after a [store] at its start. *)
Lemma lookup_store_fresh f bytes (fs : gmap file_id (list byte)) :
  fs !! f_file f = Some [] -> f_pos f = 0 ->
  store f bytes fs !! f_file f = Some bytes.
Proof.
  intros Hempty Hpos. destruct bytes as [|b bytes]; [done|].
  rewrite store_cons, lookup_insert_eq. unfold file_bytes.
  rewrite Hempty, Hpos.
  change (Z.to_nat 0) with 0%nat. simpl default. by rewrite write_at_fresh.
Qed.

Lemma cmd_pad_ok dm infile infilename outfile outfilename target_size w :
  faults w = [] ->
  f_file infile <> f_file outfile ->
  f_pos infile = 0 -> 0 <= f_pos outfile ->
  zlength (file_bytes infile (files w)) <= LONG_MAX dm ->
  zlength (file_bytes infile (files w)) <= target_size <= SIZE_ERROR dm ->
  exists buf,
    cmd_pad dm infile infilename outfile outfilename target_size w
    = ((1,
        Stream (f_file infile) (zlength (file_bytes infile (files w))) (f_error infile),
        Stream (f_file outfile) (f_pos outfile + target_size) (f_error outfile)),
       set_stdout
         (stdout w
          ++ [OutPadding infilename (Z.quot (to_long dm target_size) 1024)
                outfilename;
              OutDoneFree outfilename
                (target_size - zlength (file_bytes infile (files w)))])
         (set_g_buffer buf
            (set_files
               (store outfile
                  (file_bytes infile (files w)
                   ++ replicate
                        (Z.to_nat (target_size - zlength (file_bytes infile (files w))))
                        x00)
                  (files w)) w))).
Proof.
  intros Hfaults Hpaths Hposi Hposo Hlong Hsize.
  pose proof (zlength_nonneg (file_bytes infile (files w))) as Hnn.
  unfold cmd_pad. unfold bind at 1. norm.
  match goal with
  | |- context [bind (append_and_pad dm _ _ _ _ _) _ ?w0] =>
      destruct (append_and_pad_ok dm infile infilename outfile outfilename
                  target_size w0) as [buf Hrun]; try done
  end.
  rewrite (bind_step _ _ _ _ _ Hrun). norm.
  rewrite to_size_t_small by lia. unfold bind. norm.
  exists buf. f_equal. apply world_eq; norm; try done.
  by rewrite <- app_assoc.
Qed.

Lemma cmd_stc_ok dm infile infilename outfile outfilename w :
  faults w = [] ->
  f_file infile <> f_file outfile ->
  f_pos infile = 0 -> 0 <= f_pos outfile ->
  zlength (file_bytes infile (files w)) <= 128 * 1024 ->
  exists buf,
    cmd_stc dm infile infilename outfile outfilename w
    = ((1,
        Stream (f_file infile) (zlength (file_bytes infile (files w))) (f_error infile),
        Stream (f_file outfile) (f_pos outfile + 4 + 128 * 1024)
          (f_error outfile)),
       set_stdout
         (stdout w
          ++ [OutPaddingSteem infilename 128 outfilename;
              OutDoneFree outfilename
                (128 * 1024 - zlength (file_bytes infile (files w)))])
         (set_g_buffer buf
            (set_files
               (store outfile
                  (replicate 4 x00 ++ file_bytes infile (files w)
                   ++ replicate
                        (Z.to_nat (128 * 1024 - zlength (file_bytes infile (files w))))
                        x00)
                  (files w)) w))).
Proof.
  intros Hfaults Hpaths Hposi Hposo Hsize.
  set (data := file_bytes infile (files w)) in *.
  pose proof (zlength_nonneg data) as Hnn.
  pose proof (SIZE_ERROR_LONG_MAX dm) as Hmax.
  pose proof (LONG_MAX_ge dm) as Hlong.
  unfold cmd_stc. unfold bind at 1. norm.
  replace (Z.quot (to_long dm (128 * 1024)) 1024) with 128
    by (by destruct dm).
  lazymatch goal with
  | |- context [bind (get_file_size dm _ _) _ ?w0] =>
      pose proof (get_file_size_ok dm infile infilename w0 Hfaults) as Hprobe
  end.
  norm_in Hprobe. fold data in Hprobe.
  rewrite (bind_step _ _ _ _ _ (Hprobe ltac:(lia) ltac:(lia))). norm.
  destruct (Z.eqb_spec (zlength data) (SIZE_ERROR dm)) as [|_]; [lia|].
  destruct (Z.ltb_spec (128 * 1024) (zlength data)) as [|_]; [lia|].
  lazymatch goal with
  | |- context [bind (write_byte_block dm ?o ?n ?v ?c) _ ?w1] =>
      destruct (write_byte_block_ok dm o n v c w1) as [buf1 Hhead];
        norm; try done; try lia
  end.
  rewrite (bind_step _ _ _ _ _ Hhead). norm.
  lazymatch goal with
  | |- context [bind (copy_stream dm ?i ?n ?o ?m ?c) _ ?w1] =>
      destruct (copy_stream_ok dm i n o m c w1) as [buf2 Hcopy];
        norm; try done; try lia
  end.
  { rewrite (file_bytes_frame infile _ (files w));
      [fold data; lia|done|by rewrite lookup_store_ne]. }
  rewrite (bind_step _ _ _ _ _ Hcopy). norm.
  rewrite to_size_t_small by lia.
  lazymatch goal with
  | |- context [bind (write_byte_block dm ?o ?n ?v ?c) _ ?w1] =>
      destruct (write_byte_block_ok dm o n v c w1) as [buf3 Hpad];
        norm; try done; try lia
  end.
  rewrite (bind_step _ _ _ _ _ Hpad). norm. unfold bind. norm.
  exists buf3. rewrite Hposi, Z.add_0_l.
  replace (f_pos outfile + 4 + zlength data + (128 * 1024 - zlength data))
    with (f_pos outfile + 4 + 128 * 1024) by lia.
  f_equal. apply world_eq; norm; try done.
  2:{ by rewrite <- app_assoc. }
  rewrite (file_bytes_frame infile _ (files w));
    [|done|by rewrite lookup_store_ne].
  fold data.
  rewrite store_store; norm; try done; try lia.
  2:{ f_equal. unfold zlength. rewrite length_take, length_drop.
      unfold zlength in *. lia. }
  rewrite store_store; norm; try done.
  do 3 f_equal. change (Z.to_nat 0) with 0%nat. rewrite drop_0.
  apply take_ge. unfold zlength. lia.
Qed.

Lemma set_faults_none w : faults w = [] -> set_faults [] w = w.
Proof.
  intros H. rewrite <- (world_eta w) at 2. unfold set_faults. by rewrite H.
Qed.

Lemma fwrite_ok bytes f w :
  faults w = [] ->
  fwrite bytes f w
  = ((zlength bytes, Stream (f_file f) (f_pos f + zlength bytes) (f_error f)),
     set_files (store f bytes (files w)) w).
Proof.
  intros Hfaults. rewrite fwrite_eq, Hfaults. norm.
  by rewrite Nat.ltb_irrefl, advance_complete, set_faults_none.
Qed.

Lemma fseek_set_ok f offset w :
  faults w = [] -> 0 <= offset ->
  fseek f offset SEEK_SET w = ((0, set_pos offset f), w).
Proof.
  intros Hfaults Hoff. rewrite fseek_eq, Hfaults. norm.
  destruct (Z.leb_spec 0 offset); [|lia]. by rewrite set_faults_none.
Qed.

Lemma cmd_pak3_ok dm infile infilename outfile outfilename w :
  faults w = [] ->
  f_file infile <> f_file outfile ->
  f_pos infile = 0 -> 0 <= f_pos outfile ->
  zlength (file_bytes infile (files w)) <= 256 * 1024 ->
  exists buf,
    cmd_pak3 dm infile infilename outfile outfilename w
    = ((1,
        Stream (f_file infile) (zlength (file_bytes infile (files w)))
          (f_error infile),
        Stream (f_file outfile) (0x40030 + 6) (f_error outfile)),
       set_stdout
         (stdout w
          ++ [OutPadding infilename 512 outfilename; OutDone outfilename])
         (set_g_buffer buf
            (set_files
               (store (Stream (f_file outfile) 0x40030 (f_error outfile))
                  jmp_instr
                  (store outfile
                     (file_bytes infile (files w)
                      ++ replicate
                           (Z.to_nat (512 * 1024
                                      - zlength (file_bytes infile (files w))))
                           x00)
                     (files w))) w))).
Proof.
  intros Hfaults Hpaths Hposi Hposo Hsize.
  set (data := file_bytes infile (files w)) in *.
  pose proof (zlength_nonneg data) as Hnn.
  pose proof (SIZE_ERROR_LONG_MAX dm) as Hmax.
  pose proof (LONG_MAX_ge dm) as Hlong.
  unfold cmd_pak3. unfold bind at 1. norm.
  replace (Z.quot (to_long dm (512 * 1024)) 1024) with 512
    by (by destruct dm).
  lazymatch goal with
  | |- context [bind (get_file_size dm _ _) _ ?w0] =>
      pose proof (get_file_size_ok dm infile infilename w0 Hfaults) as Hprobe
  end.
  norm_in Hprobe. fold data in Hprobe.
  rewrite (bind_step _ _ _ _ _ (Hprobe ltac:(lia) ltac:(lia))). norm.
  destruct (Z.eqb_spec (zlength data) (SIZE_ERROR dm)) as [|_]; [lia|].
  destruct (Z.ltb_spec (256 * 1024) (zlength data)) as [|_]; [lia|].
  lazymatch goal with
  | |- context [bind (append_and_pad dm _ _ _ _ ?t) _ ?w0] =>
      destruct (append_and_pad_ok dm infile infilename outfile outfilename
                  t w0) as [buf Hrun]; norm; try done; try (fold data; lia)
  end.
  norm_in Hrun. fold data in Hrun.
  rewrite (bind_step _ _ _ _ _ Hrun). norm.
  lazymatch goal with
  | |- context [bind (fseek ?f ?off SEEK_SET) _ ?w1] =>
      rewrite (bind_step _ _ _ _ _ (fseek_set_ok f off w1 Hfaults ltac:(lia)))
  end.
  norm.
  lazymatch goal with
  | |- context [bind (fwrite ?b ?f) _ ?w1] =>
      rewrite (bind_step _ _ _ _ _ (fwrite_ok b f w1 Hfaults))
  end.
  norm.
  change (zlength jmp_instr) with 6. change (6 =? 6) with true. norm.
  unfold bind. norm. exists buf. f_equal.
  apply world_eq; norm; try done. by rewrite <- app_assoc.
Qed.

(** ** The rules on a source above the ceiling *)

(** Whatever the environment does, a source longer than [target_size]
    makes [append_and_pad] fail before it writes. *)
Lemma append_and_pad_too_big dm infile infilename outfile outfilename
    target_size w :
  target_size < zlength (file_bytes infile (files w)) ->
  exists source_size infile' w',
    append_and_pad dm infile infilename outfile outfilename target_size w
    = ((0, source_size, infile', outfile), w')
    /\ files w' = files w /\ g_buffer w' = g_buffer w.
Proof.
  intros Hbig. unfold append_and_pad, bind.
  destruct (get_file_size dm infile infilename w) as [[r infile'] w1] eqn:Hprobe.
  apply get_file_size_cases in Hprobe
    as (Hfiles & Hbuf & _ & _ & _ & _ & [[-> _]|(-> & _ & -> & _)]); norm.
  - rewrite Z.eqb_refl. eauto 10.
  - destruct (Z.eqb_spec (zlength (file_bytes infile (files w))) (SIZE_ERROR dm));
      [eauto 10|].
    destruct (Z.ltb_spec target_size (zlength (file_bytes infile (files w))));
      [|lia].
    norm. eauto 10.
Qed.

Lemma cmd_pad_too_big dm infile infilename outfile outfilename target_size w :
  target_size < zlength (file_bytes infile (files w)) ->
  exists infile' w',
    cmd_pad dm infile infilename outfile outfilename target_size w
    = ((0, infile', outfile), w')
    /\ files w' = files w /\ g_buffer w' = g_buffer w.
Proof.
  intros Hbig. unfold cmd_pad. unfold bind at 1. norm.
  lazymatch goal with
  | |- context [bind (append_and_pad dm _ _ _ _ ?t) _ ?w0] =>
      destruct (append_and_pad_too_big dm infile infilename outfile outfilename
                  t w0) as (s & infile' & w' & Hrun & Hfiles & Hbuf); [done|]
  end.
  rewrite (bind_step _ _ _ _ _ Hrun). norm. eauto.
Qed.

Lemma cmd_pak3_too_big dm infile infilename outfile outfilename w :
  256 * 1024 < zlength (file_bytes infile (files w)) ->
  exists infile' w',
    cmd_pak3 dm infile infilename outfile outfilename w
    = ((0, infile', outfile), w')
    /\ files w' = files w /\ g_buffer w' = g_buffer w.
Proof.
  intros Hbig. unfold cmd_pak3. unfold bind at 1. norm. unfold bind at 1.
  lazymatch goal with
  | |- context [get_file_size dm infile infilename ?w0] =>
      destruct (get_file_size dm infile infilename w0)
        as [[r infile'] w1] eqn:Hprobe
  end.
  apply get_file_size_cases in Hprobe
    as (Hfiles & Hbuf & _ & _ & _ & _ & [[-> _]|(-> & _ & -> & _)]);
    norm_in Hfiles; norm_in Hbuf; norm.
  - rewrite Z.eqb_refl. eauto 10.
  - destruct (Z.eqb_spec (zlength (file_bytes infile (files w))) (SIZE_ERROR dm));
      [eauto 10|].
    destruct (Z.ltb_spec (256 * 1024) (zlength (file_bytes infile (files w))));
      [|lia].
    unfold bind. norm. eauto 10.
Qed.

Lemma cmd_stc_too_big dm infile infilename outfile outfilename w :
  128 * 1024 < zlength (file_bytes infile (files w)) ->
  exists infile' w',
    cmd_stc dm infile infilename outfile outfilename w
    = ((0, infile', outfile), w')
    /\ files w' = files w /\ g_buffer w' = g_buffer w.
Proof.
  intros Hbig. unfold cmd_stc. unfold bind at 1. norm. unfold bind at 1.
  lazymatch goal with
  | |- context [get_file_size dm infile infilename ?w0] =>
      destruct (get_file_size dm infile infilename w0)
        as [[r infile'] w1] eqn:Hprobe
  end.
  apply get_file_size_cases in Hprobe
    as (Hfiles & Hbuf & _ & _ & _ & _ & [[-> _]|(-> & _ & -> & _)]);
    norm_in Hfiles; norm_in Hbuf; norm.
  - rewrite Z.eqb_refl. eauto 10.
  - destruct (Z.eqb_spec (zlength (file_bytes infile (files w))) (SIZE_ERROR dm));
      [eauto 10|].
    destruct (Z.ltb_spec (128 * 1024) (zlength (file_bytes infile (files w))));
      [|lia].
    unfold bind. norm. eauto 10.
Qed.

(** With no fault to come the complaint of [cmd_pad] is the excess. *)
Lemma cmd_pad_too_big_ok dm infile infilename outfile outfilename target_size w :
  faults w = [] ->
  0 <= f_pos infile <= LONG_MAX dm ->
  zlength (file_bytes infile (files w)) <= LONG_MAX dm ->
  0 <= target_size < zlength (file_bytes infile (files w)) ->
  cmd_pad dm infile infilename outfile outfilename target_size w
  = ((0, infile, outfile),
     set_stderr
       (stderr w
        ++ [ErrTooBig (g_argv0 w) infilename
              (zlength (file_bytes infile (files w)) - target_size)])
       (set_stdout
          (stdout w
           ++ [OutPadding infilename (Z.quot (to_long dm target_size) 1024)
                 outfilename]) w)).
Proof.
  intros Hfaults Hpos Hlong Hbig.
  pose proof (SIZE_ERROR_LONG_MAX dm) as Hmax.
  unfold cmd_pad, append_and_pad. unfold bind at 1. norm. unfold bind at 1.
  lazymatch goal with
  | |- context [bind (get_file_size dm _ _) _ ?w0] =>
      pose proof (get_file_size_ok dm infile infilename w0 Hfaults) as Hprobe
  end.
  norm_in Hprobe.
  rewrite (bind_step _ _ _ _ _ (Hprobe Hpos Hlong)). norm.
  destruct (Z.eqb_spec (zlength (file_bytes infile (files w))) (SIZE_ERROR dm));
    [lia|].
  destruct (Z.ltb_spec target_size (zlength (file_bytes infile (files w))));
    [|lia].
  unfold bind. norm. rewrite to_size_t_small by lia. done.
Qed.

(** ** [cmd_pad] on a source too long to be measured

    [ftell] reports a position as a [long].  On a source of more than
    [LONG_MAX] bytes [get_file_size] fails, whatever the target size and
    whatever the environment does, and [cmd_pad] with it. *)
Lemma cmd_pad_long dm infile infilename outfile outfilename target_size w :
  LONG_MAX dm < zlength (file_bytes infile (files w)) ->
  exists infile' w',
    cmd_pad dm infile infilename outfile outfilename target_size w
    = ((0, infile', outfile), w')
    /\ files w' = files w
    /\ stderr w' = stderr w ++ [ErrErrno (g_argv0 w) infilename].
Proof.
  intros Hlong. unfold cmd_pad. unfold bind at 1. norm.
  unfold append_and_pad. unfold bind at 1. unfold bind at 1.
  lazymatch goal with
  | |- context [get_file_size dm infile infilename ?w0] =>
      destruct (get_file_size dm infile infilename w0)
        as [[r infile'] w1] eqn:Hprobe
  end.
  apply get_file_size_cases in Hprobe
    as (Hfiles & _ & _ & _ & _ & _ & [[-> Herr]|(-> & Hfits & _)]);
    norm_in Hfiles; norm_in Herr; [|norm_in Hfits; lia].
  norm. rewrite Z.eqb_refl. norm. eauto.
Qed.

(** With no fault to come the failure is the one of the second [ftell]:
    [cmd_pad] has printed its first line and the complaint, and nothing
    else has changed. *)
Lemma cmd_pad_long_ok dm infile infilename outfile outfilename target_size w :
  faults w = [] ->
  0 <= f_pos infile <= LONG_MAX dm ->
  LONG_MAX dm < zlength (file_bytes infile (files w)) ->
  cmd_pad dm infile infilename outfile outfilename target_size w
  = ((0, set_pos (zlength (file_bytes infile (files w))) infile, outfile),
     set_stderr (stderr w ++ [ErrErrno (g_argv0 w) infilename])
       (set_stdout
          (stdout w
           ++ [OutPadding infilename (Z.quot (to_long dm target_size) 1024)
                 outfilename]) w)).
Proof.
  intros Hfaults Hpos Hlong.
  pose proof (zlength_nonneg (file_bytes infile (files w))) as Hnn.
  unfold cmd_pad, append_and_pad. unfold bind at 1. norm. unfold bind at 1.
  unfold bind at 1.
  lazymatch goal with
  | |- context [get_file_size dm infile infilename ?w0] =>
      assert (Hprobe :
        get_file_size dm infile infilename w0
        = ((SIZE_ERROR dm,
            set_pos (zlength (file_bytes infile (files w))) infile),
           set_stderr (stderr w ++ [ErrErrno (g_argv0 w) infilename]) w0));
      [assert (Hw : set_faults [] w0 = w0)
         by (by apply set_faults_none)|]
  end.
  { unfold get_file_size, bind. rewrite ftell_eq. norm. rewrite Hfaults.
    cbn [hd tail]. rewrite Hw.
    destruct (Z.leb_spec (f_pos infile) (LONG_MAX dm)); [|lia].
    destruct (Z.eqb_spec (f_pos infile) (-1)); [lia|].
    rewrite fseek_eq. norm. rewrite Hfaults. cbn [hd tail].
    rewrite Hw, Z.add_0_r.
    destruct (Z.leb_spec 0 (zlength (file_bytes infile (files w)))); [|lia].
    norm. rewrite ftell_eq. norm. rewrite Hfaults. cbn [hd tail]. rewrite Hw.
    destruct (Z.leb_spec (zlength (file_bytes infile (files w))) (LONG_MAX dm));
      [lia|].
    change (-1 =? -1) with true. by norm. }
  rewrite Hprobe. norm. rewrite Z.eqb_refl. by norm.
Qed.

(** ** [sscanf] and [get_size_value] *)

Lemma isdigit_not_space c : isdigit c = true -> isspace c = false.
Proof.
  unfold isdigit, isspace. destruct (N_of_ascii c) as [|n]; [done|].
  intros H. apply andb_true_iff in H as [H1 H2].
  apply N.leb_le in H1, H2.
  apply orb_false_iff. split.
  - apply N.eqb_neq. lia.
  - apply andb_false_iff. right. apply N.leb_gt. lia.
Qed.

Lemma isdigit_not_sign c :
  isdigit c = true -> (c =? "-")%char = false /\ (c =? "+")%char = false.
Proof.
  intros H. split; apply Ascii.eqb_neq; intros ->; vm_compute in H; done.
Qed.

Lemma scan_digits_app ds :
  forall acc rest,
  all_digits ds = true -> starts_with_digit rest = false ->
  scan_digits acc (ds +:+ rest) = (decimal_value_from acc ds, rest).
Proof.
  induction ds as [|c ds IH]; intros acc rest Hds Hrest; simpl in *.
  - destruct rest as [|c rest]; [done|]. simpl in *. by rewrite Hrest.
  - apply andb_true_iff in Hds as [Hc Hds]. rewrite Hc. by apply IH.
Qed.

Lemma scan_magnitude_decimal dm negative ds rest :
  is_decimal ds = true -> starts_with_digit rest = false ->
  scan_magnitude dm negative (ds +:+ rest)
  = Some (strtoul_value dm negative (decimal_value ds), rest).
Proof.
  intros Hds Hrest. destruct ds as [|c ds]; [done|]. simpl in Hds.
  unfold scan_magnitude.
  rewrite (scan_digits_app (String c ds)) by done.
  apply andb_true_iff in Hds as [Hc _]. simpl. by rewrite Hc.
Qed.

Lemma string_app_empty s : s +:+ EmptyString = s.
Proof.
  induction s as [|c s IH]; [done|].
  change (String c s +:+ EmptyString) with (String c (s +:+ EmptyString)).
  by rewrite IH.
Qed.

Lemma string_app_assoc s t u : (s +:+ t) +:+ u = s +:+ t +:+ u.
Proof.
  induction s as [|c s IH]; [done|].
  change ((String c s +:+ t) +:+ u) with (String c ((s +:+ t) +:+ u)).
  by rewrite IH.
Qed.

Lemma skip_space_app sp s :
  all_space sp = true -> skip_space (sp +:+ s) = skip_space s.
Proof.
  induction sp as [|c sp IH]; [done|]. simpl. intros H.
  apply andb_true_iff in H as [Hc Hsp].
  change (String c sp +:+ s) with (String c (sp +:+ s)).
  simpl. rewrite Hc. by apply IH.
Qed.

(** What [sscanf] makes of white space, a sign, a decimal number and the
    characters behind it. *)
Lemma sscanf_number dm sp sg ds rest :
  all_space sp = true -> is_decimal ds = true ->
  starts_with_digit rest = false ->
  let val :=
    strtoul_value dm match sg with Minus => true | _ => false end
      (decimal_value ds) in
  sscanf_lu_c_c dm (sp +:+ sign_string sg +:+ ds +:+ rest)
  = match rest with
    | EmptyString => Scan1 val
    | String suffix EmptyString => Scan2 val suffix
    | String suffix (String tail _) => Scan3 val suffix tail
    end.
Proof.
  intros Hsp Hds Hrest val. subst val.
  pose proof (scan_magnitude_decimal dm false ds rest Hds Hrest) as Hpos.
  pose proof (scan_magnitude_decimal dm true ds rest Hds Hrest) as Hneg.
  unfold sscanf_lu_c_c. rewrite skip_space_app by done.
  destruct ds as [|c ds]; [done|]. simpl in Hds.
  apply andb_true_iff in Hds as [Hc _].
  change (String c ds +:+ rest) with (String c (ds +:+ rest)) in *.
  destruct sg; cbn [sign_string].
  - change (EmptyString +:+ ?s) with s. simpl skip_space.
    rewrite (isdigit_not_space c Hc). unfold scan_unsigned.
    destruct (isdigit_not_sign c Hc) as [-> ->]. rewrite Hpos.
    by destruct rest as [|? [|? ?]].
  - change ("+" +:+ ?s) with (String "+" s). simpl skip_space.
    unfold scan_unsigned. change ("+" =? "-")%char with false.
    change ("+" =? "+")%char with true. cbv iota. rewrite Hpos.
    by destruct rest as [|? [|? ?]].
  - change ("-" +:+ ?s) with (String "-" s). simpl skip_space.
    unfold scan_unsigned. change ("-" =? "-")%char with true. cbv iota.
    rewrite Hneg. by destruct rest as [|? [|? ?]].
Qed.

Lemma strtoul_value_fits dm d :
  0 <= d <= SIZE_ERROR dm -> strtoul_value dm false d = d.
Proof.
  intros Hd. unfold strtoul_value. fold (SIZE_ERROR dm).
  destruct (Z.ltb_spec (SIZE_ERROR dm) d); [lia|done].
Qed.

Lemma decimal_value_from_nonneg ds :
  forall acc, all_digits ds = true -> 0 <= acc -> 0 <= decimal_value_from acc ds.
Proof.
  induction ds as [|c ds IH]; intros acc Hds Hacc; simpl in *; [done|].
  apply andb_true_iff in Hds as [Hc Hds]. apply IH; [done|].
  unfold isdigit in Hc. unfold digit_value.
  apply andb_true_iff in Hc as [H1 H2]. apply N.leb_le in H1. lia.
Qed.

Lemma decimal_value_nonneg ds : is_decimal ds = true -> 0 <= decimal_value ds.
Proof.
  intros Hds. apply decimal_value_from_nonneg; [|done].
  by destruct ds.
Qed.

(** No number at the start: nothing is assigned. *)
Lemma sscanf_no_number dm s :
  has_number s = false ->
  sscanf_lu_c_c dm s = ScanEOF \/ sscanf_lu_c_c dm s = Scan0.
Proof.
  unfold has_number, sscanf_lu_c_c.
  destruct (skip_space s) as [|c t]; [by left|]. intros H. right.
  unfold scan_unsigned.
  destruct (c =? "-")%char eqn:Hminus; simpl in H.
  { unfold scan_magnitude. destruct t as [|c' t']; [done|].
    simpl in H. by rewrite H. }
  destruct (c =? "+")%char eqn:Hplus; simpl in H.
  { unfold scan_magnitude. destruct t as [|c' t']; [done|].
    simpl in H. by rewrite H. }
  unfold scan_magnitude. by rewrite H.
Qed.

(** The value that [strtoul] gives is an [unsigned long]. *)
Lemma strtoul_value_range dm negative d :
  0 <= d -> 0 <= strtoul_value dm negative d <= SIZE_ERROR dm.
Proof.
  intros Hd. unfold strtoul_value. fold (SIZE_ERROR dm).
  pose proof (to_size_t_range dm (-1)) as Herror.
  fold (SIZE_ERROR dm) in Herror.
  destruct (Z.ltb_spec (SIZE_ERROR dm) d); [lia|].
  destruct negative; [apply to_size_t_range|lia].
Qed.

(** Written out: the largest value when the number does not fit, the
    negation modulo [2^w] behind a minus sign, and the number itself
    otherwise. *)
Lemma strtoul_value_eq dm sg d :
  strtoul_value dm match sg with Minus => true | _ => false end d
  = if 2 ^ long_bits dm - 1 <? d then 2 ^ long_bits dm - 1
    else match sg with
         | Minus => (- d) mod 2 ^ long_bits dm
         | _ => d
         end.
Proof.
  unfold strtoul_value. fold (SIZE_ERROR dm). rewrite SIZE_ERROR_eq.
  destruct (_ <? _); [done|]. by destruct sg.
Qed.

(** The outcomes of [get_size_value]. *)
Lemma get_size_value_number dm sp sg ds w :
  all_space sp = true -> is_decimal ds = true ->
  get_size_value dm (sp +:+ sign_string sg +:+ ds) w
  = (strtoul_value dm match sg with Minus => true | _ => false end
       (decimal_value ds), w).
Proof.
  intros Hsp Hds. pose proof (decimal_value_nonneg ds Hds) as Hnn.
  unfold get_size_value.
  pose proof (sscanf_number dm sp sg ds EmptyString Hsp Hds eq_refl) as Hscan.
  cbv zeta in Hscan. rewrite string_app_empty in Hscan. rewrite Hscan.
  unfold ret. by rewrite to_size_t_small by (by apply strtoul_value_range).
Qed.

Lemma get_size_value_plain dm ds w :
  is_decimal ds = true -> decimal_value ds <= SIZE_ERROR dm ->
  get_size_value dm ds w = (decimal_value ds, w).
Proof.
  intros Hds Hfit. pose proof (decimal_value_nonneg ds Hds) as Hnn.
  pose proof (get_size_value_number dm EmptyString NoSign ds w eq_refl Hds)
    as Hrun.
  change (EmptyString +:+ sign_string NoSign +:+ ds) with ds in Hrun.
  by rewrite Hrun, strtoul_value_fits by lia.
Qed.

Lemma get_size_value_suffix dm sp sg ds c w :
  all_space sp = true -> is_decimal ds = true -> isdigit c = false ->
  let val :=
    strtoul_value dm match sg with Minus => true | _ => false end
      (decimal_value ds) in
  let s := sp +:+ sign_string sg +:+ ds +:+ String c EmptyString in
  get_size_value dm s w
  = if (c =? "k")%char || (c =? "K")%char
    then (to_size_t dm (val * 1024), w)
    else if (c =? "m")%char || (c =? "M")%char
    then (to_size_t dm (val * 1048576), w)
    else if (c =? "g")%char || (c =? "G")%char
    then (to_size_t dm (val * 1073741824), w)
    else (SIZE_ERROR dm,
          set_stderr (stderr w ++ [ErrInvalidSize (g_argv0 w) s]) w).
Proof.
  intros Hsp Hds Hc val s. subst val s.
  pose proof (to_size_t_range dm) as Hrange.
  unfold get_size_value. rewrite sscanf_number by done. cbv zeta.
  destruct ((c =? "k")%char || (c =? "K")%char).
  { unfold ret. by rewrite to_size_t_small by apply Hrange. }
  destruct ((c =? "m")%char || (c =? "M")%char).
  { unfold ret. by rewrite to_size_t_small by apply Hrange. }
  destruct ((c =? "g")%char || (c =? "G")%char).
  { unfold ret. by rewrite to_size_t_small by apply Hrange. }
  unfold bind. norm. done.
Qed.

Lemma get_size_value_tail dm sp sg ds c c' rest w :
  all_space sp = true -> is_decimal ds = true -> isdigit c = false ->
  let s := sp +:+ sign_string sg +:+ ds +:+ String c (String c' rest) in
  get_size_value dm s w
  = (SIZE_ERROR dm,
     set_stderr (stderr w ++ [ErrInvalidSize (g_argv0 w) s]) w).
Proof.
  intros Hsp Hds Hc s. subst s. unfold get_size_value.
  rewrite sscanf_number by done. unfold bind. norm. done.
Qed.

Lemma get_size_value_no_number dm s w :
  has_number s = false ->
  get_size_value dm s w
  = (SIZE_ERROR dm,
     set_stderr (stderr w ++ [ErrInvalidSize (g_argv0 w) s]) w).
Proof.
  intros Hs. unfold get_size_value.
  destruct (sscanf_no_number dm s Hs) as [-> | ->]; unfold bind; norm; done.
Qed.

(** Whatever the string, the value is a [size_t], and the state changes by
    the complaint only. *)
Lemma get_size_value_effect dm strsize w r w' :
  get_size_value dm strsize w = (r, w') ->
  0 <= r <= SIZE_ERROR dm
  /\ (w' = w
      \/ (r = SIZE_ERROR dm
          /\ w' = set_stderr
                    (stderr w ++ [ErrInvalidSize (g_argv0 w) strsize]) w)).
Proof.
  pose proof (to_size_t_range dm (-1)) as Herror. fold (SIZE_ERROR dm) in Herror.
  unfold get_size_value.
  destruct (sscanf_lu_c_c dm strsize) as [| |val|val suffix|val suffix tail].
  3:{ unfold ret. intros [= <- <-]. split; [apply to_size_t_range|auto]. }
  3:{ destruct (_ || _); [|destruct (_ || _); [|destruct (_ || _)]];
        unfold bind; norm; intros [= <- <-];
        (split; [apply to_size_t_range || lia|auto]). }
  all: unfold bind; norm; intros [= <- <-]; auto.
Qed.

(** The value of a size argument does not depend on the state. *)
Lemma get_size_value_value dm strsize w1 w2 :
  fst (get_size_value dm strsize w1) = fst (get_size_value dm strsize w2).
Proof.
  unfold get_size_value.
  destruct (sscanf_lu_c_c dm strsize) as [| |val|val suffix|val suffix tail];
    try done.
  by destruct (_ || _); [|destruct (_ || _); [|destruct (_ || _)]].
Qed.

(** A size argument that is not taken for [SIZE_ERROR] was read without a
    complaint. *)
Lemma get_size_value_valid dm size w w0 :
  fst (get_size_value dm size w) <> SIZE_ERROR dm ->
  get_size_value dm size w0 = (fst (get_size_value dm size w), w0).
Proof.
  intros Hvalid. rewrite (get_size_value_value dm size w w0) in Hvalid |- *.
  destruct (get_size_value dm size w0) as [r w1] eqn:Hsize.
  apply get_size_value_effect in Hsize as [_ [->|[-> _]]]; done.
Qed.
(** ** [main] *)

(** The new file of [fopen] is one that no path names and that holds
    nothing. *)
Lemma new_file_dir w path : dir w !! path <> Some (new_file w).
Proof.
  intros Hpath.
  apply (is_fresh (dom (files w) ∪ map_img (dir w) : gset file_id)).
  apply elem_of_union_r, elem_of_map_img. by exists path.
Qed.

Lemma new_file_files w : files w !! new_file w = None.
Proof.
  apply not_elem_of_dom. intros Hfile.
  apply (is_fresh (dom (files w) ∪ map_img (dir w) : gset file_id)).
  by apply elem_of_union_l.
Qed.

(** The file that [fopen] writes to is not one that another path names,
    unless the two paths name the same file. *)
Lemma out_file_other w path filename file :
  file_of w path = Some file -> file_of w filename <> Some file ->
  file <> out_file w filename.
Proof.
  intros Hpath Hne ->. unfold out_file in *.
  destruct (file_of w filename) as [file|] eqn:Hfile; [done|].
  by apply (new_file_dir w (canon w path)).
Qed.

Lemma out_file_same w filename file :
  file_of w filename = Some file -> out_file w filename = file.
Proof. unfold out_file. by intros ->. Qed.

(** Two paths that name different files, one of them at least, are
    different paths. *)
Lemma canon_other w path path' file :
  file_of w path = Some file -> file_of w path' <> Some file ->
  canon w path' <> canon w path.
Proof. unfold file_of. congruence. Qed.

Lemma contents_Some w path data :
  contents w path = Some data <->
  exists file,
    file_of w path = Some file /\ default [] (files w !! file) = data.
Proof.
  unfold contents. destruct (file_of w path) as [file|]; cbn.
  - split; [intros [= <-]; eauto|]. by intros (? & [= <-] & <-).
  - split; [done|]. by intros (? & ? & _).
Qed.

Lemma contents_None w path : contents w path = None <-> file_of w path = None.
Proof. unfold contents. by destruct (file_of w path). Qed.

Lemma fopen_rb_ok filename file w :
  faults w = [] -> file_of w filename = Some file ->
  fopen filename mode_rb w
  = (Some (Stream file 0 false), set_opened (opened w ++ [filename]) w).
Proof.
  intros Hfaults Hfile. unfold fopen, bind, next_fault, file_of in *.
  rewrite Hfaults. norm. by rewrite Hfile, set_faults_none.
Qed.

Lemma fopen_wb_ok filename w :
  faults w = [] ->
  fopen filename mode_wb w
  = (Some (Stream (out_file w filename) 0 false),
     set_opened (opened w ++ [filename])
       (set_dir (<[canon w filename := out_file w filename]> (dir w))
          (set_files (<[out_file w filename := []]> (files w)) w))).
Proof.
  intros Hfaults. unfold fopen, bind, next_fault, out_file, file_of.
  rewrite Hfaults. norm. rewrite set_faults_none by done.
  destruct (dir w !! canon w filename) as [file|] eqn:Hfile; [|done].
  cbn [default]. f_equal. apply world_eq; norm; try done.
  by rewrite insert_id.
Qed.

Lemma fclose_ok f w : faults w = [] -> fclose f w = (0, w).
Proof.
  intros Hfaults. unfold fclose, bind, next_fault. rewrite Hfaults. norm.
  by rewrite set_faults_none.
Qed.

Lemma remove_ok filename file w :
  faults w = [] -> file_of w filename = Some file ->
  remove filename w = (0, set_dir (delete (canon w filename) (dir w)) w).
Proof.
  intros Hfaults Hfile. unfold remove, bind, next_fault, file_of in *.
  rewrite Hfaults. norm. by rewrite Hfile, set_faults_none.
Qed.

(** [main] on the command line of [pad], up to the call of [main_run]. *)
Lemma main_pad dm argv0 size src dst target_size w :
  get_size_value dm size (set_g_argv0 argv0 w)
    = (target_size, set_g_argv0 argv0 w) ->
  target_size <> SIZE_ERROR dm ->
  main dm [argv0; "pad"%string; size; src; dst] w
  = main_run dm CMD_PAD target_size src dst (set_g_argv0 argv0 w).
Proof.
  intros Hsize Hvalid. unfold main. unfold bind at 1. norm.
  cbn [nth]. change (zlength [argv0; "pad"%string; size; src; dst]) with 5.
  change (5 =? 5) with true. change ("pad" =? "pad")%string with true.
  cbn [andb]. rewrite (bind_step _ _ _ _ _ Hsize).
  by destruct (Z.eqb_spec target_size (SIZE_ERROR dm)).
Qed.

(** [main_run] with no fault to come, up to the call of the rule: the
    source is open on the file it names, and the destination on a file
    that is empty now. *)
Lemma main_run_opens dm op target_size src dst file w :
  faults w = [] -> file_of w src = Some file ->
  let o := out_file w dst in
  let w2 :=
    set_opened (opened w ++ [src; dst])
      (set_dir (<[canon w dst := o]> (dir w))
         (set_files (<[o := []]> (files w)) w)) in
  main_run dm op target_size src dst w
  = (let infile := Stream file 0 false in
     let outfile := Stream o 0 false in
     let finish : Z * FILE * FILE -> M termination :=
       fun '(r, infile, outfile) =>
       if r =? 0
       then exec fclose outfile ;; exec remove dst ;; ret (Exit 1)
       else
         do err <- fclose outfile ;;
         if negb (err =? 0)
         then exec remove dst ;; exec report_errno dst ;; ret (Exit 1)
         else
           do err <- fclose infile ;;
           if negb (err =? 0)
           then exec report_errno src ;; ret (Exit 1)
           else ret (Exit 0) in
     match op with
     | CMD_PAD =>
         do r <- cmd_pad dm infile src outfile dst target_size ;; finish r
     | CMD_PAK3 => do r <- cmd_pak3 dm infile src outfile dst ;; finish r
     | CMD_STC => do r <- cmd_stc dm infile src outfile dst ;; finish r
     | CMD_NONE => ret Aborted
     end) w2.
Proof.
  intros Hfaults Hsrc o w2. unfold main_run.
  rewrite (bind_step _ _ _ _ _ (fopen_rb_ok src file w Hfaults Hsrc)).
  lazymatch goal with
  | |- context [bind (fopen dst _) _ ?w1] =>
      rewrite (bind_step _ _ _ _ _ (fopen_wb_ok dst w1 Hfaults))
  end.
  cbv zeta. f_equal. apply world_eq; norm; try done.
  by rewrite <- app_assoc.
Qed.

(** The end of [main_run] with no fault to come: the destination is
    removed when the rule has failed. *)
Lemma main_run_finish_ok (r : Z) (infile outfile : FILE) src dst file w :
  faults w = [] -> file_of w dst = Some file -> r = 0 \/ r = 1 ->
  (if r =? 0
   then exec fclose outfile ;; exec remove dst ;; ret (Exit 1)
   else
     do err <- fclose outfile ;;
     if negb (err =? 0)
     then exec remove dst ;; exec report_errno dst ;; ret (Exit 1)
     else
       do err <- fclose infile ;;
       if negb (err =? 0)
       then exec report_errno src ;; ret (Exit 1)
       else ret (Exit 0)) w
  = if r =? 0 then (Exit 1, set_dir (delete (canon w dst) (dir w)) w)
    else (Exit 0, w).
Proof.
  intros Hfaults Hdst [-> | ->]; norm.
  - rewrite (bind_step _ _ _ _ _ (fclose_ok outfile w Hfaults)).
    by rewrite (bind_step _ _ _ _ _ (remove_ok dst file w Hfaults Hdst)).
  - rewrite (bind_step _ _ _ _ _ (fclose_ok outfile w Hfaults)). norm.
    by rewrite (bind_step _ _ _ _ _ (fclose_ok infile w Hfaults)).
Qed.

(** [pad] from the command line, when the source fits the target size and
    the destination is not one more name of the source. *)
Lemma main_pad_ok dm argv0 size src dst target_size data w :
  faults w = [] -> contents w src = Some data ->
  file_of w dst <> file_of w src ->
  get_size_value dm size (set_g_argv0 argv0 w)
    = (target_size, set_g_argv0 argv0 w) ->
  target_size <> SIZE_ERROR dm ->
  zlength data <= LONG_MAX dm ->
  zlength data <= target_size <= SIZE_ERROR dm ->
  exists w',
    main dm [argv0; "pad"%string; size; src; dst] w = (Exit 0, w')
    /\ contents w' dst
       = Some (data ++ replicate (Z.to_nat (target_size - zlength data)) x00)
    /\ contents w' src = Some data
    /\ opened w' = opened w ++ [src; dst].
Proof.
  intros Hfaults Hsrc Hne Hsize Hvalid Hlong Hfit.
  apply contents_Some in Hsrc as (file & Hsrc & Hdata). rewrite Hsrc in Hne.
  pose proof (out_file_other w src dst file Hsrc Hne) as Hother.
  pose proof (canon_other w src dst file Hsrc Hne) as Hnames.
  rewrite (main_pad _ _ _ _ _ _ _ Hsize Hvalid).
  rewrite (main_run_opens dm CMD_PAD target_size src dst file
             (set_g_argv0 argv0 w) Hfaults Hsrc).
  change (out_file (set_g_argv0 argv0 w) dst) with (out_file w dst).
  norm. set (o := out_file w dst) in *.
  assert (Hbytes : file_bytes (Stream file 0 false) (<[o := []]> (files w))
                   = data)
    by (unfold file_bytes; norm; by rewrite lookup_insert_ne).
  lazymatch goal with
  | |- context [bind (cmd_pad dm ?i ?n ?o ?m ?t) _ ?w1] =>
      pose proof (cmd_pad_ok dm i n o m t w1) as Hrun
  end.
  norm_in Hrun. rewrite Hbytes in Hrun.
  destruct Hrun as [buf Hrun]; try done.
  rewrite (bind_step _ _ _ _ _ Hrun).
  rewrite (main_run_finish_ok 1 _ _ src dst o); norm; auto.
  2:{ unfold file_of. norm. by rewrite lookup_insert_eq. }
  eexists. split; [reflexivity|]. unfold contents, file_of in *. norm.
  rewrite lookup_insert_eq. cbn [fmap option_fmap option_map].
  rewrite (lookup_store_fresh (Stream o 0 false)); norm;
    [|by rewrite lookup_insert_eq|done].
  split; [done|]. split; [|done].
  rewrite lookup_insert_ne by done. rewrite Hsrc.
  cbn [fmap option_fmap option_map].
  rewrite (lookup_store_ne (Stream o 0 false)) by done.
  by rewrite lookup_insert_ne, Hdata by congruence.
Qed.

(** [pad] from the command line, when the source is too long. *)
Lemma main_pad_too_big dm argv0 size src dst target_size data w :
  faults w = [] -> contents w src = Some data ->
  file_of w dst <> file_of w src ->
  get_size_value dm size (set_g_argv0 argv0 w)
    = (target_size, set_g_argv0 argv0 w) ->
  target_size <> SIZE_ERROR dm ->
  zlength data <= LONG_MAX dm ->
  0 <= target_size < zlength data ->
  exists w',
    main dm [argv0; "pad"%string; size; src; dst] w = (Exit 1, w')
    /\ contents w' dst = None
    /\ contents w' src = Some data
    /\ stderr w'
       = stderr w ++ [ErrTooBig argv0 src (zlength data - target_size)].
Proof.
  intros Hfaults Hsrc Hne Hsize Hvalid Hlong Hbig.
  apply contents_Some in Hsrc as (file & Hsrc & Hdata). rewrite Hsrc in Hne.
  pose proof (out_file_other w src dst file Hsrc Hne) as Hother.
  pose proof (canon_other w src dst file Hsrc Hne) as Hnames.
  pose proof (LONG_MAX_ge dm) as Hmax.
  rewrite (main_pad _ _ _ _ _ _ _ Hsize Hvalid).
  rewrite (main_run_opens dm CMD_PAD target_size src dst file
             (set_g_argv0 argv0 w) Hfaults Hsrc).
  change (out_file (set_g_argv0 argv0 w) dst) with (out_file w dst).
  norm. set (o := out_file w dst) in *.
  assert (Hbytes : file_bytes (Stream file 0 false) (<[o := []]> (files w))
                   = data)
    by (unfold file_bytes; norm; by rewrite lookup_insert_ne).
  lazymatch goal with
  | |- context [bind (cmd_pad dm ?i ?n ?o ?m ?t) _ ?w1] =>
      pose proof (cmd_pad_too_big_ok dm i n o m t w1 Hfaults) as Hrun
  end.
  norm_in Hrun. rewrite Hbytes in Hrun.
  rewrite (bind_step _ _ _ _ _ (Hrun ltac:(lia) Hlong Hbig)).
  rewrite (main_run_finish_ok 0 _ _ src dst o); norm; auto.
  2:{ unfold file_of. norm. by rewrite lookup_insert_eq. }
  eexists. split; [reflexivity|]. unfold contents, file_of in *. norm.
  rewrite lookup_delete_eq. split; [done|]. split; [|done].
  rewrite lookup_delete_ne, lookup_insert_ne by done. rewrite Hsrc.
  cbn [fmap option_fmap option_map].
  by rewrite lookup_insert_ne, Hdata by congruence.
Qed.

(** [pad] from the command line, when the source is too long to be
    measured. *)
Lemma main_pad_long dm argv0 size src dst target_size data w :
  faults w = [] -> contents w src = Some data ->
  file_of w dst <> file_of w src ->
  get_size_value dm size (set_g_argv0 argv0 w)
    = (target_size, set_g_argv0 argv0 w) ->
  target_size <> SIZE_ERROR dm ->
  LONG_MAX dm < zlength data ->
  exists w',
    main dm [argv0; "pad"%string; size; src; dst] w = (Exit 1, w')
    /\ contents w' dst = None
    /\ contents w' src = Some data
    /\ stderr w' = stderr w ++ [ErrErrno argv0 src].
Proof.
  intros Hfaults Hsrc Hne Hsize Hvalid Hlong.
  apply contents_Some in Hsrc as (file & Hsrc & Hdata). rewrite Hsrc in Hne.
  pose proof (out_file_other w src dst file Hsrc Hne) as Hother.
  pose proof (canon_other w src dst file Hsrc Hne) as Hnames.
  rewrite (main_pad _ _ _ _ _ _ _ Hsize Hvalid).
  rewrite (main_run_opens dm CMD_PAD target_size src dst file
             (set_g_argv0 argv0 w) Hfaults Hsrc).
  change (out_file (set_g_argv0 argv0 w) dst) with (out_file w dst).
  norm. set (o := out_file w dst) in *.
  assert (Hbytes : file_bytes (Stream file 0 false) (<[o := []]> (files w))
                   = data)
    by (unfold file_bytes; norm; by rewrite lookup_insert_ne).
  pose proof (LONG_MAX_ge dm) as Hmax.
  lazymatch goal with
  | |- context [bind (cmd_pad dm ?i ?n ?o ?m ?t) _ ?w1] =>
      pose proof (cmd_pad_long_ok dm i n o m t w1 Hfaults) as Hrun
  end.
  norm_in Hrun. rewrite Hbytes in Hrun.
  rewrite (bind_step _ _ _ _ _ (Hrun ltac:(lia) Hlong)).
  rewrite (main_run_finish_ok 0 _ _ src dst o); norm; auto.
  2:{ unfold file_of. norm. by rewrite lookup_insert_eq. }
  eexists. split; [reflexivity|]. unfold contents, file_of in *. norm.
  rewrite lookup_delete_eq. split; [done|]. split; [|done].
  rewrite lookup_delete_ne, lookup_insert_ne by done. rewrite Hsrc.
  cbn [fmap option_fmap option_map].
  by rewrite lookup_insert_ne, Hdata by congruence.
Qed.

(** * The claims *)

(** C5.  [copy_stream] asked for [count > 0] bytes from a source that holds
    fewer than [count] bytes past its position returns 0, whatever the
    faults of the environment and however many reads it takes to reach the
    end; it prints one complaint, and with no fault and no error pending on
    the source that complaint is the premature end of the source. *)
Theorem copy_stream_short_source dm infile infilename outfile outfilename
    count w :
  0 < count <= SIZE_ERROR dm ->
  f_file infile <> f_file outfile ->
  0 <= f_pos infile ->
  zlength (file_bytes infile (files w)) - f_pos infile < count ->
  let '(r, _, _, w') :=
    copy_stream dm infile infilename outfile outfilename count w in
  r = 0
  /\ (exists m,
       stderr w' = stderr w ++ [m]
       /\ (m = ErrPrematureEOF (g_argv0 w) infilename
           \/ m = ErrErrno (g_argv0 w) infilename
           \/ m = ErrErrno (g_argv0 w) outfilename))
  /\ (faults w = [] -> f_error infile = false ->
      stderr w' = stderr w ++ [ErrPrematureEOF (g_argv0 w) infilename]).
Proof.
  intros Hcount Hpaths Hpos Hshort. unfold copy_stream.
  by apply copy_stream_loop_short.
Qed.

(** C6.  For every [count] of the type [size_t] and every byte [value], a
    call of [write_byte_block] that returns 1 has put [count] bytes, each
    equal to [value], in the file at the position of the stream, and moved
    the stream by [count]; on a stream that stands at the end of its file
    the bytes are appended.  This holds for counts above [BUFFER_SIZE] too,
    although [g_buffer] is filled once, with [MIN(BUFFER_SIZE, count)]
    bytes.  A call with [count = 0] returns 1 and changes nothing, and with
    no fault to come every call returns 1. *)
Theorem write_byte_block_fills dm outfile outfilename value count w :
  0 <= count <= SIZE_ERROR dm ->
  0 <= f_pos outfile ->
  let '(r, outfile', w') :=
    write_byte_block dm outfile outfilename value count w in
  (r = 1 ->
     files w' = store outfile (replicate (Z.to_nat count) value) (files w)
     /\ f_pos outfile' = f_pos outfile + count
     /\ (f_pos outfile = zlength (file_bytes outfile (files w)) ->
         file_bytes outfile' (files w')
         = file_bytes outfile (files w) ++ replicate (Z.to_nat count) value))
  /\ (count = 0 -> r = 1 /\ outfile' = outfile /\ w' = w)
  /\ (faults w = [] -> r = 1).
Proof.
  intros Hcount Hpos.
  destruct (write_byte_block dm outfile outfilename value count w)
    as [[r outfile'] w'] eqn:Hrun.
  destruct (write_byte_block_spec _ _ _ _ _ _ _ _ _ Hcount Hpos Hrun)
    as [Hok Hfree].
  split; [|split].
  - intros Hr. destruct (Hok Hr) as (-> & Hfiles & _). norm.
    split; [done|]. split; [done|]. intros Hend.
    rewrite Hfiles. unfold file_bytes at 1. norm.
    destruct (Z.to_nat count) as [|n] eqn:Hn; [by rewrite app_nil_r|].
    rewrite lookup_store_eq by done. simpl. rewrite Hend.
    unfold zlength. by rewrite Nat2Z.id, write_at_end.
  - intros ->. rewrite write_byte_block_zero in Hrun.
    by injection Hrun as <- <- <-.
  - intros Hfaults. by destruct (Hfree Hfaults).
Qed.

(** C7.  A call of [get_file_size] that does not return [SIZE_ERROR]
    returns the length of the file and leaves the position of the stream,
    and the files, as they were; a second call that succeeds returns the
    same value.  With no fault to come, and a position and a length that
    fit a [long], the call succeeds and changes nothing at all. *)
Theorem get_file_size_keeps_position dm file filename w :
  let '(r, file', w') := get_file_size dm file filename w in
  (r <> SIZE_ERROR dm ->
     r = zlength (file_bytes file (files w))
     /\ f_pos file' = f_pos file
     /\ files w' = files w
     /\ let '(r2, file'', _) := get_file_size dm file' filename w' in
        r2 <> SIZE_ERROR dm -> r2 = r /\ f_pos file'' = f_pos file)
  /\ (faults w = [] -> 0 <= f_pos file <= LONG_MAX dm ->
      zlength (file_bytes file (files w)) <= LONG_MAX dm ->
      r <> SIZE_ERROR dm /\ file' = file /\ w' = w).
Proof.
  destruct (get_file_size dm file filename w) as [[r file'] w'] eqn:Hrun.
  split.
  - intros Hr.
    apply get_file_size_cases in Hrun
      as (Hfiles & _ & _ & _ & _ & _ & [[-> _]|(-> & _ & -> & _)]); [done|].
    repeat (split; [done|]).
    destruct (get_file_size dm file filename w') as [[r2 file''] w''] eqn:Hrun2.
    intros Hr2.
    apply get_file_size_cases in Hrun2
      as (_ & _ & _ & _ & _ & _ & [[-> _]|(-> & _ & -> & _)]); [done|].
    by rewrite Hfiles.
  - intros Hfaults Hpos Hlen.
    rewrite get_file_size_ok in Hrun by done.
    injection Hrun as <- <- <-.
    pose proof (SIZE_ERROR_LONG_MAX dm).
    pose proof (zlength_nonneg (file_bytes file (files w))).
    split; [lia|done].
Qed.

(** C9.  Each of the three rules, given a source longer than its ceiling,
    returns 0 and leaves the output stream and every file as they were,
    whatever the faults of the environment: the size is probed and checked
    before the first write. *)
Theorem too_big_writes_nothing dm infile infilename outfile outfilename
    target_size w :
  let size := zlength (file_bytes infile (files w)) in
  (target_size < size ->
   let '(r, _, outfile', w') :=
     cmd_pad dm infile infilename outfile outfilename target_size w in
   r = 0 /\ outfile' = outfile /\ files w' = files w)
  /\ (256 * 1024 < size ->
      let '(r, _, outfile', w') :=
        cmd_pak3 dm infile infilename outfile outfilename w in
      r = 0 /\ outfile' = outfile /\ files w' = files w)
  /\ (128 * 1024 < size ->
      let '(r, _, outfile', w') :=
        cmd_stc dm infile infilename outfile outfilename w in
      r = 0 /\ outfile' = outfile /\ files w' = files w).
Proof.
  cbv zeta. split; [|split]; intros Hbig.
  - destruct (cmd_pad_too_big dm infile infilename outfile outfilename
                target_size w Hbig) as (i & w' & -> & Hfiles & _).
    done.
  - destruct (cmd_pak3_too_big dm infile infilename outfile outfilename
                w Hbig) as (i & w' & -> & Hfiles & _).
    done.
  - destruct (cmd_stc_too_big dm infile infilename outfile outfilename
                w Hbig) as (i & w' & -> & Hfiles & _).
    done.
Qed.

(** A write over the middle of a file replaces what stood there. *)
Lemma write_at_middle pos bytes before old after :
  length before = pos -> length old = length bytes ->
  write_at pos bytes (before ++ old ++ after) = before ++ bytes ++ after.
Proof.
  intros Hbefore Hold. unfold write_at.
  rewrite take_app_length' by done.
  rewrite !length_app.
  replace (pos - (length before + (length old + length after)))%nat
    with 0%nat by lia.
  simpl. rewrite (drop_app_add' before) by done.
  by rewrite drop_app_length' by done.
Qed.

(** The image [cmd_pak3] leaves in a file that was empty. *)
Lemma pak3_image (f : FILE) (data : list byte) (fs : gmap file_id (list byte)) e :
  fs !! f_file f = Some [] -> f_pos f = 0 ->
  zlength data <= 256 * 1024 ->
  store (Stream (f_file f) 0x40030 e) jmp_instr
    (store f (data ++ replicate (Z.to_nat (512 * 1024 - zlength data)) x00) fs)
    !! f_file f
  = Some (data ++ replicate (Z.to_nat (0x40030 - zlength data)) x00
          ++ jmp_instr ++ replicate (Z.to_nat (512 * 1024 - 0x40036)) x00).
Proof.
  intros Hempty Hpos Hsize. pose proof (zlength_nonneg data) as Hnn.
  unfold jmp_instr at 1. rewrite store_cons. norm.
  rewrite lookup_insert_eq. f_equal. unfold file_bytes. norm.
  rewrite lookup_store_fresh by done. simpl default.
  change [x4e; xf9; x00; xe0; x00; x00] with jmp_instr.
  replace (Z.to_nat (512 * 1024 - zlength data))
    with (Z.to_nat (0x40030 - zlength data)
          + (6 + Z.to_nat (512 * 1024 - 0x40036)))%nat by lia.
  rewrite !replicate_add, (app_assoc data).
  rewrite write_at_middle; [by rewrite <- app_assoc| |done].
  rewrite length_app, length_replicate. unfold zlength in *. lia.
Qed.

(** C1, as amended.  On a source of [S <= 131072] bytes, read from its
    start, and a fresh output stream, [cmd_stc] returns 1 when no fault
    comes and the output file holds 131076 bytes: four zeros, the source,
    and [131072 - S] zeros.  On a source of more than 131072 bytes it
    returns 0, whatever the environment. *)
Theorem cmd_stc_image dm infile infilename outfile outfilename data w :
  files w !! f_file infile = Some data ->
  let '(r, _, _, w') := cmd_stc dm infile infilename outfile outfilename w in
  (faults w = [] ->
   f_file infile <> f_file outfile ->
   f_pos infile = 0 ->
   f_pos outfile = 0 -> files w !! f_file outfile = Some [] ->
   zlength data <= 128 * 1024 ->
   r = 1
   /\ exists out,
        files w' !! f_file outfile = Some out
        /\ out = replicate 4 x00 ++ data
                 ++ replicate (Z.to_nat (128 * 1024 - zlength data)) x00
        /\ zlength out = 128 * 1024 + 4)
  /\ (128 * 1024 < zlength data -> r = 0).
Proof.
  intros Hin.
  assert (Hdata : file_bytes infile (files w) = data)
    by (unfold file_bytes; by rewrite Hin).
  destruct (cmd_stc dm infile infilename outfile outfilename w)
    as [[[r infile'] outfile'] w'] eqn:Hrun.
  split.
  - intros Hfaults Hpaths Hposi Hposo Hout Hsize.
    destruct (cmd_stc_ok dm infile infilename outfile outfilename w)
      as [buf Hok]; rewrite ?Hdata; try done; try lia.
    rewrite Hdata in Hok. same_run Hrun Hok r w'.
    split; [done|]. norm.
    eexists. split; [by apply lookup_store_fresh|]. split; [done|].
    pose proof (zlength_nonneg data).
    rewrite !zlength_app, !zlength_replicate. lia.
  - intros Hbig. rewrite <- Hdata in Hbig.
    destruct (cmd_stc_too_big dm infile infilename outfile outfilename
                w Hbig) as (i & w2 & Hfail & _).
    by same_run Hrun Hfail r w'.
Qed.

(** C2, as amended.  When [cmd_stc] accepts a source of [S] bytes and no
    fault comes, the line it prints last reports [131072 - S] free bytes:
    the four bytes at the front are not taken off. *)
Theorem cmd_stc_free_space dm infile infilename outfile outfilename data w :
  files w !! f_file infile = Some data ->
  faults w = [] ->
  f_file infile <> f_file outfile ->
  f_pos infile = 0 -> 0 <= f_pos outfile ->
  zlength data <= 128 * 1024 ->
  let '(r, _, _, w') := cmd_stc dm infile infilename outfile outfilename w in
  r = 1
  /\ stdout w'
     = stdout w ++ [OutPaddingSteem infilename 128 outfilename;
                    OutDoneFree outfilename (128 * 1024 - zlength data)].
Proof.
  intros Hin Hfaults Hpaths Hposi Hposo Hsize.
  assert (Hdata : file_bytes infile (files w) = data)
    by (unfold file_bytes; by rewrite Hin).
  destruct (cmd_stc_ok dm infile infilename outfile outfilename w)
    as [buf Hrun]; rewrite ?Hdata; try done.
  rewrite Hdata in Hrun. by rewrite Hrun.
Qed.

(** C3.  On a source of [S <= 262144] bytes, read from its start, and a
    fresh output stream, [cmd_pak3] returns 1 when no fault comes and the
    output file holds 524288 bytes: the source and zeros up to offset
    0x40030, the six bytes 4e f9 00 e0 00 00 in place of the zeros of the
    padding, and zeros up to the end.  On a source of more than 262144
    bytes it returns 0, whatever the environment. *)
Theorem cmd_pak3_image dm infile infilename outfile outfilename data w :
  files w !! f_file infile = Some data ->
  let '(r, _, _, w') := cmd_pak3 dm infile infilename outfile outfilename w in
  (faults w = [] ->
   f_file infile <> f_file outfile ->
   f_pos infile = 0 ->
   f_pos outfile = 0 -> files w !! f_file outfile = Some [] ->
   zlength data <= 256 * 1024 ->
   r = 1
   /\ exists out,
        files w' !! f_file outfile = Some out
        /\ zlength out = 512 * 1024
        /\ take (Z.to_nat 0x40030) out
           = data ++ replicate (Z.to_nat (0x40030 - zlength data)) x00
        /\ take 6 (drop (Z.to_nat 0x40030) out)
           = [x4e; xf9; x00; xe0; x00; x00]
        /\ drop (Z.to_nat 0x40036) out
           = replicate (Z.to_nat (512 * 1024 - 0x40036)) x00)
  /\ (256 * 1024 < zlength data -> r = 0).
Proof.
  intros Hin.
  assert (Hdata : file_bytes infile (files w) = data)
    by (unfold file_bytes; by rewrite Hin).
  destruct (cmd_pak3 dm infile infilename outfile outfilename w)
    as [[[r infile'] outfile'] w'] eqn:Hrun.
  split.
  - intros Hfaults Hpaths Hposi Hposo Hout Hsize.
    destruct (cmd_pak3_ok dm infile infilename outfile outfilename w)
      as [buf Hok]; rewrite ?Hdata; try done; try lia.
    rewrite Hdata in Hok. same_run Hrun Hok r w'.
    split; [done|]. norm.
    eexists. split; [by apply pak3_image|].
    pose proof (zlength_nonneg data) as Hnn.
    set (pad := replicate (Z.to_nat (0x40030 - zlength data)) x00).
    set (rest := replicate (Z.to_nat (512 * 1024 - 0x40036)) x00).
    assert (Hfront : length (data ++ pad) = Z.to_nat 0x40030).
    { subst pad. rewrite length_app, length_replicate.
      unfold zlength in *. lia. }
    split; [|split; [|split]].
    + rewrite !zlength_app. subst pad rest. rewrite !zlength_replicate.
      change (zlength jmp_instr) with 6. lia.
    + by rewrite app_assoc, take_app_length'.
    + rewrite app_assoc, drop_app_length' by done.
      by rewrite (take_app_length' jmp_instr).
    + rewrite app_assoc, (app_assoc _ jmp_instr).
      apply drop_app_length'. rewrite length_app, Hfront.
      change (length jmp_instr) with 6%nat. lia.
  - intros Hbig. rewrite <- Hdata in Hbig.
    destruct (cmd_pak3_too_big dm infile infilename outfile outfilename
                w Hbig) as (i & w2 & Hfail & _).
    by same_run Hrun Hfail r w'.
Qed.

(** C4, as amended.  With no fault to come, a source of [S] bytes read
    from its start and a fresh output stream on another file, [cmd_pad]
    with target size [T] returns 1 when [S <= T] and [S] fits the [long]
    that [ftell] returns: the output file holds [T] bytes, the source and
    [T - S] zeros.  When [S > T], and [S] fits a [long], it returns 0,
    complains of [S - T] extra bytes and writes nothing.  When [S] does
    not fit a [long] it returns 0 whatever [T] is, with the complaint of
    the size probe, and writes nothing.  Called from the command line,
    with a size argument that reads as [T], other than [SIZE_ERROR], and a
    destination that is not one more name of the source, [main] exits with
    status 0 in the first case and the destination holds the [T] bytes; in
    the two other cases it exits with status 1 and the destination names
    no file. *)
Theorem cmd_pad_image dm target_size data
    infile infilename outfile outfilename w
    argv0 size src dst w0 :
  0 <= target_size <= SIZE_ERROR dm ->
  let image :=
    data ++ replicate (Z.to_nat (target_size - zlength data)) x00 in
  (* the rule *)
  (faults w = [] ->
   f_file infile <> f_file outfile ->
   f_pos infile = 0 -> files w !! f_file infile = Some data ->
   f_pos outfile = 0 -> files w !! f_file outfile = Some [] ->
   let '(r, _, _, w') :=
     cmd_pad dm infile infilename outfile outfilename target_size w in
   (zlength data <= target_size -> zlength data <= LONG_MAX dm ->
      r = 1 /\ files w' !! f_file outfile = Some image
      /\ zlength image = target_size)
   /\ (target_size < zlength data -> zlength data <= LONG_MAX dm ->
       r = 0
       /\ stderr w'
          = stderr w ++ [ErrTooBig (g_argv0 w) infilename
                           (zlength data - target_size)]
       /\ files w' = files w)
   /\ (LONG_MAX dm < zlength data ->
       r = 0
       /\ stderr w' = stderr w ++ [ErrErrno (g_argv0 w) infilename]
       /\ files w' = files w))
  (* the command line *)
  /\ (faults w0 = [] ->
      contents w0 src = Some data -> file_of w0 dst <> file_of w0 src ->
      fst (get_size_value dm size w0) = target_size ->
      target_size <> SIZE_ERROR dm ->
      let '(status, w') :=
        main dm [argv0; "pad"%string; size; src; dst] w0 in
      (zlength data <= target_size -> zlength data <= LONG_MAX dm ->
         status = Exit 0 /\ contents w' dst = Some image
         /\ contents w' src = Some data)
      /\ (target_size < zlength data \/ LONG_MAX dm < zlength data ->
          status = Exit 1 /\ contents w' dst = None
          /\ contents w' src = Some data)).
Proof.
  intros HT image. pose proof (zlength_nonneg data) as Hnn.
  pose proof (LONG_MAX_ge dm) as Hmax.
  split.
  - intros Hfaults Hpaths Hposi Hin Hposo Hout.
    assert (Hdata : file_bytes infile (files w) = data)
      by (unfold file_bytes; by rewrite Hin).
    destruct (cmd_pad dm infile infilename outfile outfilename target_size w)
      as [[[r infile'] outfile'] w'] eqn:Hrun.
    split; [|split].
    + intros Hfit Hlong.
      destruct (cmd_pad_ok dm infile infilename outfile outfilename
                  target_size w) as [buf Hok]; rewrite ?Hdata; try done;
        try lia.
      rewrite Hdata in Hok. same_run Hrun Hok r w'.
      split; [done|]. norm. split; [by apply lookup_store_fresh|].
      subst image. rewrite zlength_app, zlength_replicate. lia.
    + intros Hbig Hlong.
      pose proof (cmd_pad_too_big_ok dm infile infilename outfile outfilename
                    target_size w Hfaults) as Hok.
      rewrite Hdata, Hposi in Hok.
      specialize (Hok ltac:(lia) Hlong ltac:(lia)).
      by same_run Hrun Hok r w'.
    + intros Hlong.
      pose proof (cmd_pad_long_ok dm infile infilename outfile outfilename
                    target_size w Hfaults) as Hok.
      rewrite Hdata, Hposi in Hok.
      specialize (Hok ltac:(lia) Hlong).
      by same_run Hrun Hok r w'.
  - intros Hfaults0 Hsrc Hne Hvalue Hvalid.
    assert (Hsize : get_size_value dm size (set_g_argv0 argv0 w0)
                    = (target_size, set_g_argv0 argv0 w0)).
    { rewrite <- Hvalue in Hvalid |- *. by apply get_size_value_valid. }
    destruct (main dm [argv0; "pad"%string; size; src; dst] w0)
      as [status w'] eqn:Hrun.
    split.
    + intros Hfit Hlong.
      destruct (main_pad_ok dm argv0 size src dst target_size data w0)
        as (w2 & Hok & Hfile & Hkept & _); try done; try lia.
      rewrite Hrun in Hok. by injection Hok as -> ->.
    + intros Hcase.
      destruct (Z.le_gt_cases (zlength data) (LONG_MAX dm)) as [Hlong|Hlong].
      * destruct (main_pad_too_big dm argv0 size src dst target_size data w0)
          as (w2 & Hok & Hfile & Hkept & _); try done; try lia.
        rewrite Hrun in Hok. by injection Hok as -> ->.
      * destruct (main_pad_long dm argv0 size src dst target_size data w0)
          as (w2 & Hok & Hfile & Hkept & _); try done; try lia.
        rewrite Hrun in Hok. by injection Hok as -> ->.
Qed.

(** C10.  A size argument that is a decimal number of value [2^w - 1], the
    value of [SIZE_ERROR], is returned as such by [get_size_value], without
    a complaint; [main] takes the value for the error and exits with
    status 1 before it opens a file: nothing but [g_argv0] has changed. *)
Theorem pad_size_sentinel dm argv0 size src dst w :
  is_decimal size = true ->
  decimal_value size = 2 ^ long_bits dm - 1 ->
  let w1 := set_g_argv0 argv0 w in
  get_size_value dm size w1 = (SIZE_ERROR dm, w1)
  /\ main dm [argv0; "pad"%string; size; src; dst] w = (Exit 1, w1)
  /\ opened w1 = opened w /\ files w1 = files w /\ stderr w1 = stderr w.
Proof.
  intros Hdec Hval w1. rewrite <- SIZE_ERROR_eq in Hval.
  assert (Hsize : get_size_value dm size w1 = (SIZE_ERROR dm, w1)).
  { rewrite get_size_value_plain by (done || lia). by rewrite Hval. }
  split; [done|]. split; [|done].
  unfold main. unfold bind at 1. norm. cbn [nth].
  change (zlength [argv0; "pad"%string; size; src; dst]) with 5.
  change (5 =? 5) with true. change ("pad" =? "pad")%string with true.
  cbn [andb]. fold w1. rewrite (bind_step _ _ _ _ _ Hsize).
  by rewrite Z.eqb_refl.
Qed.

(** C8, as amended.  A size argument that [get_size_value] accepts is made
    of white space, if any, of a sign, if any, and of a decimal number
    [ds] of value [d], with one of the characters k, K, m, M, g and G
    behind it or nothing.  The number stands for [v]: [2^w - 1] when
    [d > 2^w - 1], else [(-d) mod 2^w] behind a minus sign, else [d].
    [get_size_value] returns [v] when nothing follows, and [v * 1024],
    [v * 1048576] and [v * 1073741824] modulo [2^w] behind k or K, m or M,
    and g or G.  It complains and returns [SIZE_ERROR] when any other
    character that is no digit follows, or a character that is no digit and
    more, and for every string that holds no number after its leading white
    space and its sign. *)
Theorem get_size_value_forms dm sp sg ds w :
  all_space sp = true ->
  is_decimal ds = true ->
  let d := decimal_value ds in
  let v :=
    if 2 ^ long_bits dm - 1 <? d then 2 ^ long_bits dm - 1
    else match sg with
         | Minus => (- d) mod 2 ^ long_bits dm
         | _ => d
         end in
  let number := sp +:+ sign_string sg +:+ ds in
  let invalid (s : string) :=
    (SIZE_ERROR dm,
     set_stderr (stderr w ++ [ErrInvalidSize (g_argv0 w) s]) w) in
  get_size_value dm number w = (v, w)
  /\ (forall c, c = "k"%char \/ c = "K"%char ->
      get_size_value dm (number +:+ String c EmptyString) w
      = (v * 1024 mod 2 ^ long_bits dm, w))
  /\ (forall c, c = "m"%char \/ c = "M"%char ->
      get_size_value dm (number +:+ String c EmptyString) w
      = (v * 1048576 mod 2 ^ long_bits dm, w))
  /\ (forall c, c = "g"%char \/ c = "G"%char ->
      get_size_value dm (number +:+ String c EmptyString) w
      = (v * 1073741824 mod 2 ^ long_bits dm, w))
  /\ (forall c, isdigit c = false -> is_multiplier c = false ->
      get_size_value dm (number +:+ String c EmptyString) w
      = invalid (number +:+ String c EmptyString))
  /\ (forall c c' rest, isdigit c = false ->
      get_size_value dm (number +:+ String c (String c' rest)) w
      = invalid (number +:+ String c (String c' rest)))
  /\ (forall s, has_number s = false -> get_size_value dm s w = invalid s).
Proof.
  intros Hsp Hds d v number invalid. subst invalid number v d. cbv beta.
  rewrite <- (strtoul_value_eq dm sg (decimal_value ds)).
  split; [by apply get_size_value_number|].
  assert (Hassoc : forall rest,
            (sp +:+ sign_string sg +:+ ds) +:+ rest
            = sp +:+ sign_string sg +:+ ds +:+ rest)
    by (intros rest; by rewrite !string_app_assoc).
  split; [|split; [|split; [|split; [|split]]]].
  - intros c [-> | ->]; rewrite Hassoc;
      by rewrite (get_size_value_suffix dm sp sg ds).
  - intros c [-> | ->]; rewrite Hassoc;
      by rewrite (get_size_value_suffix dm sp sg ds).
  - intros c [-> | ->]; rewrite Hassoc;
      by rewrite (get_size_value_suffix dm sp sg ds).
  - intros c Hc Hmul. rewrite Hassoc.
    rewrite (get_size_value_suffix dm sp sg ds) by done.
    unfold is_multiplier in Hmul.
    repeat (apply orb_false_iff in Hmul as [Hmul ?]).
    by repeat match goal with
              | H : (_ =? _)%char = false |- _ => rewrite H; clear H
              end.
  - intros c c' rest Hc. rewrite Hassoc.
    by apply (get_size_value_tail dm sp sg ds).
  - intros s Hs. by apply get_size_value_no_number.
Qed.

(** * The claims on concrete runs *)

Lemma example_world_in data :
  files (example_world data) !! f_file example_in = Some data.
Proof. unfold example_world, initial_world. norm. by rewrite lookup_insert_eq. Qed.

Lemma example_world_out data :
  files (example_world data) !! f_file example_out = Some [].
Proof.
  unfold example_world, initial_world. norm.
  rewrite lookup_insert_ne by done. by rewrite lookup_singleton_eq.
Qed.

Lemma example_in_bytes data :
  file_bytes example_in (files (example_world data)) = data.
Proof.
  unfold file_bytes. by rewrite (example_world_in data).
Qed.

Lemma example_out_bytes data :
  file_bytes example_out (files (example_world data)) = [].
Proof.
  unfold file_bytes. by rewrite (example_world_out data).
Qed.

Lemma example_files : f_file example_in <> f_file example_out.
Proof. discriminate. Qed.

Lemma size_t_LP64 n : 0 <= n <= 18446744073709551615 -> 0 <= n <= SIZE_ERROR LP64.
Proof. by change (SIZE_ERROR LP64) with 18446744073709551615. Qed.

(** [cmd_stc] on a source of two bytes: 131076 bytes come out. *)
Lemma cmd_stc_image_witness :
  let '(r, _, _, w') :=
    cmd_stc LP64 example_in "in.img" example_out "out.img"
      (example_world [x60; x1a]) in
  r = 1
  /\ exists out,
       files w' !! f_file example_out = Some out
       /\ out = replicate 4 x00 ++ [x60; x1a]
                ++ replicate (Z.to_nat (128 * 1024 - zlength [x60; x1a])) x00
       /\ zlength out = 128 * 1024 + 4.
Proof.
  pose proof (cmd_stc_image LP64 example_in "in.img" example_out "out.img"
                [x60; x1a] (example_world [x60; x1a])
                (example_world_in [x60; x1a])) as H.
  destruct (cmd_stc LP64 example_in "in.img" example_out "out.img"
              (example_world [x60; x1a])) as [[[r i] o] w'].
  destruct H as [H _]. apply H.
  - reflexivity.
  - exact example_files.
  - reflexivity.
  - reflexivity.
  - exact (example_world_out [x60; x1a]).
  - unfold zlength. cbn [length]. lia.
Defined.

(** C1 as it was stated fails on that source: the output does not hold
    131072 bytes with zeros from offset 6 on. *)
Lemma cmd_stc_image_is_not_128k :
  let '(r, _, _, w') :=
    cmd_stc LP64 example_in "in.img" example_out "out.img"
      (example_world [x60; x1a]) in
  ~ (r = 1
     /\ exists out,
          files w' !! f_file example_out = Some out
          /\ zlength out = 128 * 1024
          /\ take 4 out = replicate 4 x00
          /\ take 2 (drop 4 out) = [x60; x1a]
          /\ drop 6 out = replicate (Z.to_nat (128 * 1024 - 6)) x00).
Proof.
  destruct (cmd_stc_ok LP64 example_in "in.img" example_out "out.img"
              (example_world [x60; x1a])) as [buf Hok].
  1: reflexivity.
  1: exact example_files.
  1: reflexivity.
  1: cbn; lia.
  1: rewrite example_in_bytes; unfold zlength; cbn [length]; lia.
  rewrite Hok. intros (_ & out & Hout & Hlen & _).
  rewrite example_in_bytes in Hout. norm_in Hout.
  rewrite (lookup_store_fresh example_out) in Hout;
    [|exact (example_world_out [x60; x1a])|reflexivity].
  apply (inj Some) in Hout. subst out.
  rewrite !zlength_app, !zlength_replicate in Hlen.
  unfold zlength in Hlen. cbn [length] in Hlen. lia.
Qed.

(** [cmd_stc] on a source of two bytes reports 131070 free bytes. *)
Lemma cmd_stc_free_space_witness :
  let '(r, _, _, w') :=
    cmd_stc LP64 example_in "in.img" example_out "out.img"
      (example_world [x60; x1a]) in
  r = 1
  /\ stdout w'
     = stdout (example_world [x60; x1a])
       ++ [OutPaddingSteem "in.img" 128 "out.img";
           OutDoneFree "out.img" (128 * 1024 - zlength [x60; x1a])].
Proof.
  apply (cmd_stc_free_space LP64 example_in "in.img" example_out "out.img"
           [x60; x1a] (example_world [x60; x1a])).
  - exact (example_world_in [x60; x1a]).
  - reflexivity.
  - exact example_files.
  - reflexivity.
  - cbn. lia.
  - unfold zlength. cbn [length]. lia.
Defined.

(** C2 as it was stated fails on that source: the count that is reported
    is not [131072 - 4 - 2]. *)
Lemma cmd_stc_free_space_keeps_prefix :
  let '(r, _, _, w') :=
    cmd_stc LP64 example_in "in.img" example_out "out.img"
      (example_world [x60; x1a]) in
  ~ (r = 1 ->
     forall free,
       In (OutDoneFree "out.img" free) (stdout w') ->
       free = 128 * 1024 - 4 - zlength [x60; x1a]).
Proof.
  destruct (cmd_stc_ok LP64 example_in "in.img" example_out "out.img"
              (example_world [x60; x1a])) as [buf Hok].
  1: reflexivity.
  1: exact example_files.
  1: reflexivity.
  1: cbn; lia.
  1: rewrite example_in_bytes; unfold zlength; cbn [length]; lia.
  rewrite Hok. intros Hfree. specialize (Hfree eq_refl).
  norm_in Hfree. rewrite example_in_bytes in Hfree.
  specialize (Hfree (128 * 1024 - zlength [x60; x1a])).
  assert (Hin : In (OutDoneFree "out.img" (128 * 1024 - zlength [x60; x1a]))
                  (stdout (example_world [x60; x1a])
                   ++ [OutPaddingSteem "in.img" 128 "out.img";
                       OutDoneFree "out.img" (128 * 1024 - zlength [x60; x1a])])).
  { apply in_or_app. right. right. left. reflexivity. }
  specialize (Hfree Hin). lia.
Qed.

(** [cmd_pak3] on a source of three bytes. *)
Lemma cmd_pak3_image_witness :
  let '(r, _, _, w') :=
    cmd_pak3 LP64 example_in "in.img" example_out "out.img"
      (example_world [x60; x2e; x00]) in
  r = 1
  /\ exists out,
       files w' !! f_file example_out = Some out
       /\ zlength out = 512 * 1024
       /\ take (Z.to_nat 0x40030) out
          = [x60; x2e; x00]
            ++ replicate (Z.to_nat (0x40030 - zlength [x60; x2e; x00])) x00
       /\ take 6 (drop (Z.to_nat 0x40030) out)
          = [x4e; xf9; x00; xe0; x00; x00]
       /\ drop (Z.to_nat 0x40036) out
          = replicate (Z.to_nat (512 * 1024 - 0x40036)) x00.
Proof.
  pose proof (cmd_pak3_image LP64 example_in "in.img" example_out "out.img"
                [x60; x2e; x00] (example_world [x60; x2e; x00])
                (example_world_in [x60; x2e; x00])) as H.
  destruct (cmd_pak3 LP64 example_in "in.img" example_out "out.img"
              (example_world [x60; x2e; x00])) as [[[r i] o] w'].
  destruct H as [H _]. apply H.
  - reflexivity.
  - exact example_files.
  - reflexivity.
  - reflexivity.
  - exact (example_world_out [x60; x2e; x00]).
  - unfold zlength. cbn [length]. lia.
Defined.

(** The example of the specification: [pad 1k] on 100 bytes 0xAA, as a
    rule and from the command line; and [pad 64] on the same source, which
    is too long for it. *)
Lemma cmd_pad_image_witness :
  let data := replicate 100 xaa in
  let image := data ++ replicate (Z.to_nat (1024 - zlength data)) x00 in
  let w0 :=
    initial_world {[ "in.bin"%string := 1%nat ]} {[ 1%nat := data ]} in
  (let '(r, _, _, w') :=
     cmd_pad LP64 example_in "in.img" example_out "out.img" 1024
       (example_world data) in
   r = 1 /\ files w' !! f_file example_out = Some image
   /\ zlength image = 1024)
  /\ (let '(status, w') :=
        main LP64 ["mkrom"; "pad"; "1k"; "in.bin"; "out.bin"]%string w0 in
      status = Exit 0 /\ contents w' "out.bin" = Some image
      /\ contents w' "in.bin" = Some data)
  /\ (let '(r, _, _, w') :=
        cmd_pad LP64 example_in "in.img" example_out "out.img" 64
          (example_world data) in
      r = 0
      /\ stderr w' = [ErrTooBig EmptyString "in.img" (zlength data - 64)]
      /\ files w' = files (example_world data))
  /\ (let '(status, w') :=
        main LP64 ["mkrom"; "pad"; "64"; "in.bin"; "out.bin"]%string w0 in
      status = Exit 1 /\ contents w' "out.bin" = None
      /\ contents w' "in.bin" = Some data).
Proof.
  intros data image w0.
  assert (Hlen : zlength data = 100).
  { unfold data. by rewrite zlength_replicate. }
  assert (Hlong : zlength data <= LONG_MAX LP64).
  { rewrite Hlen. change (LONG_MAX LP64) with 9223372036854775807. lia. }
  assert (Hvalid : forall n, 0 <= n <= 1024 -> n <> SIZE_ERROR LP64).
  { change (SIZE_ERROR LP64) with 18446744073709551615. lia. }
  assert (Hother : file_of w0 "out.bin" <> file_of w0 "in.bin")
    by discriminate.
  pose proof (cmd_pad_image LP64 1024 data
                example_in "in.img" example_out "out.img" (example_world data)
                "mkrom" "1k" "in.bin" "out.bin" w0) as H.
  pose proof (cmd_pad_image LP64 64 data
                example_in "in.img" example_out "out.img" (example_world data)
                "mkrom" "64" "in.bin" "out.bin" w0) as H'.
  cbv zeta in H, H'. fold image in H.
  destruct (cmd_pad LP64 example_in "in.img" example_out "out.img" 1024
              (example_world data)) as [[[r i] o] w'].
  destruct (main LP64 ["mkrom"; "pad"; "1k"; "in.bin"; "out.bin"]%string w0)
    as [status w0'].
  destruct (cmd_pad LP64 example_in "in.img" example_out "out.img" 64
              (example_world data)) as [[[r' i'] o'] w''].
  destruct (main LP64 ["mkrom"; "pad"; "64"; "in.bin"; "out.bin"]%string w0)
    as [status' w0''].
  destruct H as [Hrule Hmain]; [apply size_t_LP64; lia|].
  destruct H' as [Hrule' Hmain']; [apply size_t_LP64; lia|].
  split; [|split; [|split]].
  - apply Hrule;
      first [ reflexivity | lia | exact example_files
            | exact (example_world_in data) | exact (example_world_out data) ].
  - apply Hmain; first [reflexivity | lia | done | apply Hvalid; lia].
  - apply Hrule';
      first [ reflexivity | lia | exact example_files
            | exact (example_world_in data) | exact (example_world_out data) ].
  - apply Hmain'; first [reflexivity | lia | done | apply Hvalid; lia].
Defined.

(** C4 as it was stated fails on a source of [2^31] bytes, where a [long]
    has 32 bits: the target size [2^32 - 2] is not below the size of the
    source, and yet [cmd_pad] returns 0 and writes nothing. *)
Lemma cmd_pad_refuses_long_source :
  let data := replicate (Z.to_nat 2147483648) x00 in
  let w := example_world data in
  let '(r, _, _, w') :=
    cmd_pad ILP32 example_in "in.img" example_out "out.img" 4294967294 w in
  zlength data = 2147483648
  /\ zlength data <= 4294967294 <= SIZE_ERROR ILP32
  /\ r = 0
  /\ files w' = files w
  /\ stderr w' = [ErrErrno EmptyString "in.img"].
Proof.
  intros data.
  assert (Hlen : zlength data = 2147483648).
  { unfold data. rewrite zlength_replicate. by apply Z2Nat.id. }
  clearbody data. intros w.
  destruct (cmd_pad_long ILP32 example_in "in.img" example_out "out.img"
              4294967294 w) as (infile' & w' & Hrun & Hfiles & Herr).
  { unfold w. rewrite example_in_bytes, Hlen. reflexivity. }
  rewrite Hrun. rewrite Hlen. split; [done|]. split; [done|]. done.
Qed.

(** [copy_stream] asked for 40000 bytes of a source of 20000: a full read,
    a short one, the end, and the complaint. *)
Lemma copy_stream_short_source_witness :
  let w := example_world (replicate (Z.to_nat 20000) xaa) in
  let '(r, _, _, w') :=
    copy_stream LP64 example_in "in.img" example_out "out.img" 40000 w in
  r = 0 /\ stderr w' = stderr w ++ [ErrPrematureEOF (g_argv0 w) "in.img"].
Proof.
  intros w.
  pose proof (copy_stream_short_source LP64 example_in "in.img" example_out
                "out.img" 40000 w) as H.
  destruct (copy_stream LP64 example_in "in.img" example_out "out.img"
              40000 w) as [[[r i] o] w'].
  destruct H as (Hr & _ & Hmsg).
  - change (SIZE_ERROR LP64) with 18446744073709551615. lia.
  - exact example_files.
  - cbn. lia.
  - unfold w. rewrite example_in_bytes, zlength_replicate. cbn [f_pos example_in].
    lia.
  - split; [exact Hr|]. apply Hmsg; reflexivity.
Defined.

(** [write_byte_block] for 40000 bytes 0xFF, more than the buffer holds. *)
Lemma write_byte_block_fills_witness :
  let w := example_world [] in
  let '(r, outfile', w') :=
    write_byte_block LP64 example_out "out.img" xff 40000 w in
  r = 1
  /\ file_bytes outfile' (files w')
     = file_bytes example_out (files w) ++ replicate (Z.to_nat 40000) xff
  /\ f_pos outfile' = f_pos example_out + 40000.
Proof.
  intros w.
  pose proof (write_byte_block_fills LP64 example_out "out.img" xff 40000 w)
    as H.
  destruct (write_byte_block LP64 example_out "out.img" xff 40000 w)
    as [[r o] w'].
  destruct H as (Hok & _ & Hfree).
  - change (SIZE_ERROR LP64) with 18446744073709551615. lia.
  - cbn. lia.
  - assert (Hr : r = 1) by (apply Hfree; reflexivity).
    destruct (Hok Hr) as (_ & Hpos & Hend).
    split; [exact Hr|]. split; [|exact Hpos].
    apply Hend. unfold w. by rewrite example_out_bytes.
Defined.

(** [get_file_size] on a stream that stands at offset 7 of 100 bytes. *)
Lemma get_file_size_keeps_position_witness :
  let w := example_world (replicate 100 xaa) in
  let file := Stream (f_file example_in) 7 false in
  let '(r, file', w') := get_file_size LP64 file "in.img" w in
  r = 100 /\ f_pos file' = 7 /\ w' = w.
Proof.
  intros w file.
  pose proof (get_file_size_keeps_position LP64 file "in.img" w) as H.
  assert (Hbytes : file_bytes file (files w) = replicate 100 xaa)
    by exact (example_in_bytes (replicate 100 xaa)).
  destruct (get_file_size LP64 file "in.img" w) as [[r file'] w'].
  destruct H as [Hok Hfree].
  destruct Hfree as (Hr & -> & ->).
  - reflexivity.
  - change (LONG_MAX LP64) with 9223372036854775807. cbn [f_pos file]. lia.
  - rewrite Hbytes, zlength_replicate.
    change (LONG_MAX LP64) with 9223372036854775807. lia.
  - destruct (Hok Hr) as (-> & _).
    rewrite Hbytes, zlength_replicate. repeat split; reflexivity.
Defined.

(** The three rules on a source of 300000 bytes: nothing is written. *)
Lemma too_big_writes_nothing_witness :
  let w := example_world (replicate (Z.to_nat 300000) xaa) in
  (let '(r, _, outfile', w') :=
     cmd_pad LP64 example_in "in.img" example_out "out.img" 1024 w in
   r = 0 /\ outfile' = example_out /\ files w' = files w)
  /\ (let '(r, _, outfile', w') :=
        cmd_pak3 LP64 example_in "in.img" example_out "out.img" w in
      r = 0 /\ outfile' = example_out /\ files w' = files w)
  /\ (let '(r, _, outfile', w') :=
        cmd_stc LP64 example_in "in.img" example_out "out.img" w in
      r = 0 /\ outfile' = example_out /\ files w' = files w).
Proof.
  intros w.
  pose proof (too_big_writes_nothing LP64 example_in "in.img" example_out
                "out.img" 1024 w) as H.
  cbv zeta in H.
  assert (Hsize : zlength (file_bytes example_in (files w)) = 300000).
  { unfold w. rewrite example_in_bytes, zlength_replicate. lia. }
  rewrite Hsize in H. destruct H as (Hpad & Hpak3 & Hstc).
  split; [apply Hpad; lia|]. split; [apply Hpak3; lia|apply Hstc; lia].
Defined.

(** The decimal number [2^64 - 1] as the size of [pad]. *)
Lemma pad_size_sentinel_witness :
  let w :=
    initial_world {[ "in.bin"%string := 1%nat ]} {[ 1%nat := [x60; x1a] ]} in
  let w1 := set_g_argv0 "mkrom" w in
  get_size_value LP64 "18446744073709551615" w1 = (SIZE_ERROR LP64, w1)
  /\ main LP64 ["mkrom"; "pad"; "18446744073709551615"; "in.bin"; "out.bin"]%string
       w = (Exit 1, w1)
  /\ opened w1 = opened w /\ files w1 = files w /\ stderr w1 = stderr w.
Proof.
  intros w.
  apply (pad_size_sentinel LP64 "mkrom" "18446744073709551615" "in.bin"
           "out.bin" w); reflexivity.
Defined.

(** The sizes 12, 12k, 12M and 12g and four strings that are refused; a
    number behind white space and a minus sign, and one behind a plus sign
    with a multiplier; a number above [2^64 - 1]. *)
Lemma get_size_value_forms_witness :
  let w := initial_world ∅ ∅ in
  let invalid (s : string) :=
    (SIZE_ERROR LP64,
     set_stderr (stderr w ++ [ErrInvalidSize (g_argv0 w) s]) w) in
  get_size_value LP64 "12" w = (12, w)
  /\ get_size_value LP64 "12k" w = (12288, w)
  /\ get_size_value LP64 "12M" w = (12582912, w)
  /\ get_size_value LP64 "12g" w = (12884901888, w)
  /\ get_size_value LP64 "12x" w = invalid "12x"%string
  /\ get_size_value LP64 "12kb" w = invalid "12kb"%string
  /\ get_size_value LP64 "k" w = invalid "k"%string
  /\ get_size_value LP64 EmptyString w = invalid EmptyString
  /\ get_size_value LP64 " -12" w = (18446744073709551604, w)
  /\ get_size_value LP64 "+5k" w = (5120, w)
  /\ get_size_value LP64 "18446744073709551616" w
     = (18446744073709551615, w)
  /\ get_size_value LP64 "18446744073709551616k" w
     = (18446744073709550592, w).
Proof.
  intros w invalid.
  destruct (get_size_value_forms LP64 EmptyString NoSign "12" w)
    as (Hplain & Hk & Hm & Hg & Hother & Htail & Hnone);
    [reflexivity|reflexivity|].
  destruct (get_size_value_forms LP64 " " Minus "12" w)
    as (Hminus & _); [reflexivity|reflexivity|].
  destruct (get_size_value_forms LP64 EmptyString Plus "5" w)
    as (_ & Hplus & _); [reflexivity|reflexivity|].
  destruct (get_size_value_forms LP64 EmptyString NoSign
              "18446744073709551616" w)
    as (Hlarge & Hlargek & _); [reflexivity|reflexivity|].
  split; [exact Hplain|]. split; [exact (Hk "k"%char (or_introl eq_refl))|].
  split; [exact (Hm "M"%char (or_intror eq_refl))|].
  split; [exact (Hg "g"%char (or_introl eq_refl))|].
  split; [exact (Hother "x"%char eq_refl eq_refl)|].
  split; [exact (Htail "k"%char "b"%char EmptyString eq_refl)|].
  split; [exact (Hnone "k"%string eq_refl)|].
  split; [exact (Hnone EmptyString eq_refl)|].
  split; [exact Hminus|].
  split; [exact (Hplus "k"%char (or_introl eq_refl))|].
  split; [exact Hlarge|].
  exact (Hlargek "k"%char (or_introl eq_refl)).
Defined.

(** C8 as it was stated fails on [+5]: the string is neither a decimal
    number nor one with a multiplier, and yet [get_size_value] returns 5
    without a complaint.  It fails on a decimal number above [2^w - 1] too:
    where [w] is 32, the number [2^32] is read as [2^32 - 1], which is
    neither the number nor the number modulo [2^32]. *)
Lemma get_size_value_sign_and_overflow :
  let w := initial_world ∅ ∅ in
  (specified_size_form "+5" = false
   /\ get_size_value LP64 "+5" w = (5, w)
   /\ ~ (get_size_value LP64 "+5" w
         = (SIZE_ERROR LP64,
            set_stderr (stderr w ++ [ErrInvalidSize (g_argv0 w) "+5"]) w)))
  /\ (is_decimal "4294967296" = true
      /\ decimal_value "4294967296" = 4294967296
      /\ get_size_value ILP32 "4294967296" w = (4294967295, w)
      /\ 4294967295 <> 4294967296 mod 2 ^ long_bits ILP32).
Proof.
  intros w. split.
  - split; [reflexivity|]. split; [reflexivity|].
    intros H. apply (f_equal fst) in H. vm_compute in H. discriminate.
  - split; [reflexivity|]. split; [reflexivity|]. split; [reflexivity|].
    vm_compute. discriminate.
Qed.

(** * The program under any environment

    The lemmas of this part hold whatever faults the environment inflicts. *)

(** ** What a call leaves alone *)

Lemma same_but_refl p w : same_but p w w.
Proof. by repeat split. Qed.

Lemma same_but_trans p w1 w2 w3 :
  same_but p w1 w2 -> same_but p w2 w3 -> same_but p w1 w3.
Proof.
  intros (Hf1 & Hs1 & Ho1 & Ha1) (Hf2 & Hs2 & Ho2 & Ha2). repeat split.
  - intros q Hq. by rewrite Hf2, Hf1.
  - auto.
  - congruence.
  - congruence.
Qed.

Lemma same_but_fields p w w' :
  files w' = files w -> opened w' = opened w -> g_argv0 w' = g_argv0 w ->
  same_but p w w'.
Proof. intros Hf Ho Ha. repeat split; try done; by rewrite Hf. Qed.

Lemma store_is_Some f bytes (fs : gmap file_id (list byte)) :
  is_Some (fs !! f_file f) -> is_Some (store f bytes fs !! f_file f).
Proof.
  intros Hsome. destruct bytes as [|b bytes]; [done|].
  rewrite store_cons, lookup_insert_eq. by eexists.
Qed.

Lemma fwrite_effect bytes f w n f' w' :
  fwrite bytes f w = ((n, f'), w') ->
  f_file f' = f_file f /\ same_but (f_file f) w w'
  /\ stdout w' = stdout w /\ stderr w' = stderr w.
Proof.
  rewrite fwrite_eq. cbv zeta. intros Hrun.
  pose proof (f_equal (fun x : Z * FILE * world => snd (fst x)) Hrun) as Hf.
  pose proof (f_equal (fun x : Z * FILE * world => snd x) Hrun) as Hw.
  cbn [fst snd] in Hf, Hw. subst f' w'. unfold same_but. norm.
  cbn [advance f_file]. repeat split; try done.
  - intros q Hq. by rewrite lookup_store_ne.
  - apply store_is_Some.
Qed.

Lemma fread_g_buffer_effect n f w got f' w' :
  fread_g_buffer n f w = ((got, f'), w') ->
  f_file f' = f_file f /\ files w' = files w /\ opened w' = opened w
  /\ g_argv0 w' = g_argv0 w /\ stdout w' = stdout w /\ stderr w' = stderr w.
Proof.
  rewrite fread_g_buffer_eq. cbv zeta. intros Hrun.
  pose proof (f_equal (fun x : Z * FILE * world => snd (fst x)) Hrun) as Hf.
  pose proof (f_equal (fun x : Z * FILE * world => snd x) Hrun) as Hw.
  cbn [fst snd] in Hf, Hw. subst f' w'. by norm.
Qed.

(** ** The two loops *)

(** [write_byte_block] writes to its stream and nowhere else, and says on
    the standard error, once, why it failed when it fails. *)
Lemma write_byte_block_loop_effect dm outfilename rounds :
  forall count outfile w r outfile' w',
  write_byte_block_loop dm rounds outfile outfilename count w
    = ((r, outfile'), w') ->
  f_file outfile' = f_file outfile
  /\ same_but (f_file outfile) w w'
  /\ stdout w' = stdout w
  /\ ((r = 1 /\ stderr w' = stderr w)
      \/ (r = 0 /\ stderr w' = stderr w ++ [ErrErrno (g_argv0 w) outfilename])).
Proof.
  induction rounds as [|rounds IH]; intros count outfile w r outfile' w' Hrun;
    simpl in Hrun.
  - assert (Hret : ((1, outfile), w) = ((r, outfile'), w'))
      by (by destruct (0 <? count)).
    injection Hret as <- <- <-. auto 10 using same_but_refl.
  - destruct (0 <? count).
    2:{ injection Hrun as <- <- <-. auto 10 using same_but_refl. }
    unfold bind in Hrun.
    destruct (fwrite_g_buffer (MIN BUFFER_SIZE count) outfile w)
      as [[written outfile1] w1] eqn:Hwrite.
    unfold fwrite_g_buffer in Hwrite.
    apply fwrite_effect in Hwrite as (Hpath & Hsame & Hout & Herr).
    destruct (written =? MIN BUFFER_SIZE count); norm_in Hrun.
    + apply IH in Hrun as (Hpath' & Hsame' & Hout' & Hcase).
      rewrite Hpath in Hpath', Hsame'.
      split; [done|]. split; [by eapply same_but_trans|].
      split; [congruence|].
      destruct Hsame as (_ & _ & _ & Hargv0).
      rewrite Herr, Hargv0 in Hcase. done.
    + injection Hrun as <- <- <-. norm.
      split; [done|]. split.
      { destruct Hsame as (? & ? & ? & ?). by repeat split. }
      split; [done|]. right. split; [done|].
      destruct Hsame as (_ & _ & _ & Hargv0). by rewrite Herr, Hargv0.
Qed.

Lemma write_byte_block_effect dm outfile outfilename value count w r outfile' w' :
  write_byte_block dm outfile outfilename value count w = ((r, outfile'), w') ->
  f_file outfile' = f_file outfile
  /\ same_but (f_file outfile) w w'
  /\ stdout w' = stdout w
  /\ ((r = 1 /\ stderr w' = stderr w)
      \/ (r = 0 /\ stderr w' = stderr w ++ [ErrErrno (g_argv0 w) outfilename])).
Proof.
  unfold write_byte_block, bind, memset_g_buffer. intros Hrun.
  by apply write_byte_block_loop_effect in Hrun.
Qed.

(** [copy_stream] writes to its output stream and nowhere else, and says
    on the standard error, once, why it failed when it fails. *)
Lemma copy_stream_loop_effect dm infilename outfilename rounds :
  forall count infile outfile w r infile' outfile' w',
  copy_stream_loop dm rounds infile infilename outfile outfilename count w
    = ((r, infile', outfile'), w') ->
  f_file infile' = f_file infile
  /\ f_file outfile' = f_file outfile
  /\ same_but (f_file outfile) w w'
  /\ stdout w' = stdout w
  /\ ((r = 1 /\ stderr w' = stderr w)
      \/ (r = 0
          /\ exists m,
               stderr w' = stderr w ++ [m]
               /\ (m = ErrPrematureEOF (g_argv0 w) infilename
                   \/ m = ErrErrno (g_argv0 w) infilename
                   \/ m = ErrErrno (g_argv0 w) outfilename))).
Proof.
  induction rounds as [|rounds IH];
    intros count infile outfile w r infile' outfile' w' Hrun; simpl in Hrun.
  - assert (Hret : ((1, infile, outfile), w) = ((r, infile', outfile'), w'))
      by (by destruct (MIN BUFFER_SIZE count =? 0)).
    injection Hret as <- <- <- <-. auto 10 using same_but_refl.
  - destruct (MIN BUFFER_SIZE count =? 0).
    { injection Hrun as <- <- <- <-. auto 10 using same_but_refl. }
    unfold bind in Hrun.
    destruct (fread_g_buffer (MIN BUFFER_SIZE count) infile w)
      as [[towrite infile1] w1] eqn:Hread.
    apply fread_g_buffer_effect in Hread
      as (Hpathi & Hfiles1 & Hopened1 & Hargv1 & Hout1 & Herr1).
    assert (Hsame1 : same_but (f_file outfile) w w1)
      by (by apply same_but_fields).
    destruct (towrite =? 0).
    { destruct (ferror infile1); norm_in Hrun;
        injection Hrun as <- <- <- <-; norm;
        rewrite Herr1, Hargv1; eauto 12. }
    destruct (fwrite_g_buffer towrite outfile w1)
      as [[written outfile1] w2] eqn:Hwrite.
    unfold fwrite_g_buffer in Hwrite.
    apply fwrite_effect in Hwrite as (Hpatho & Hsame2 & Hout2 & Herr2).
    assert (Hsame : same_but (f_file outfile) w w2)
      by (by eapply same_but_trans).
    assert (Hargv2 : g_argv0 w2 = g_argv0 w) by (by destruct Hsame as (_ & _ & _ & ?)).
    destruct (written =? towrite); norm_in Hrun.
    + apply IH in Hrun as (Hpathi' & Hpatho' & Hsame' & Hout' & Hcase).
      rewrite Hpatho in Hpatho', Hsame'.
      split; [congruence|]. split; [done|].
      split; [by eapply same_but_trans|]. split; [congruence|].
      rewrite Herr2, Herr1, Hargv2 in Hcase. done.
    + injection Hrun as <- <- <- <-. norm.
      split; [done|]. split; [done|]. split.
      { destruct Hsame as (? & ? & ? & ?). by repeat split. }
      split; [congruence|]. right. split; [done|].
      rewrite Herr2, Herr1, Hargv2. eauto.
Qed.

Lemma copy_stream_effect dm infile infilename outfile outfilename count w
    r infile' outfile' w' :
  copy_stream dm infile infilename outfile outfilename count w
    = ((r, infile', outfile'), w') ->
  f_file infile' = f_file infile
  /\ f_file outfile' = f_file outfile
  /\ same_but (f_file outfile) w w'
  /\ stdout w' = stdout w
  /\ ((r = 1 /\ stderr w' = stderr w)
      \/ (r = 0
          /\ exists m,
               stderr w' = stderr w ++ [m]
               /\ (m = ErrPrematureEOF (g_argv0 w) infilename
                   \/ m = ErrErrno (g_argv0 w) infilename
                   \/ m = ErrErrno (g_argv0 w) outfilename))).
Proof. apply copy_stream_loop_effect. Qed.

(** ** What [copy_stream] copied when it says it succeeded *)

Lemma transfer_prefix flt (bytes : list byte) :
  transfer flt bytes = take (length (transfer flt bytes)) bytes.
Proof.
  destruct flt as [|k]; simpl.
  - by rewrite firstn_all.
  - rewrite length_take. destruct (Nat.le_ge_cases k (length bytes)).
    + by rewrite Nat.min_l.
    + rewrite Nat.min_r by done. by rewrite firstn_all, take_ge.
Qed.

(** Whatever the faults, a call that returns 1 has moved exactly [count]
    bytes, which the source had, from the one stream to the other.  The two
    streams are open on two files, unless there is nothing to copy. *)
Lemma copy_stream_loop_spec dm infilename outfilename rounds :
  forall count infile outfile w r infile' outfile' w',
  0 <= count <= SIZE_ERROR dm ->
  (Z.to_nat count <= rounds)%nat ->
  f_file infile <> f_file outfile \/ count = 0 ->
  0 <= f_pos infile -> 0 <= f_pos outfile ->
  copy_stream_loop dm rounds infile infilename outfile outfilename count w
    = ((r, infile', outfile'), w') ->
  r = 1 ->
  zlength (take (Z.to_nat count)
             (drop (Z.to_nat (f_pos infile)) (file_bytes infile (files w))))
  = count
  /\ f_pos infile' = f_pos infile + count
  /\ f_pos outfile' = f_pos outfile + count
  /\ files w'
     = store outfile
         (take (Z.to_nat count)
            (drop (Z.to_nat (f_pos infile)) (file_bytes infile (files w))))
         (files w).
Proof.
  induction rounds as [|rounds IH];
    intros count infile outfile w r infile' outfile' w'
      Hcount Hrounds Hpaths Hposi Hposo Hrun Hr.
  all: destruct (Z.eq_dec count 0) as [->|Hnz]; [|try lia].
  1,2: simpl in Hrun; change (MIN BUFFER_SIZE 0 =? 0) with true in Hrun;
       injection Hrun as <- <- <- <-;
       change (Z.to_nat 0) with 0%nat; rewrite take_0; simpl.
  1,2: repeat split; lia.
  destruct Hpaths as [Hpaths|]; [|lia].
  assert (Hmin : 0 < MIN BUFFER_SIZE count <= count).
  { rewrite MIN_spec. unfold BUFFER_SIZE. lia. }
  simpl in Hrun.
  destruct (Z.eqb_spec (MIN BUFFER_SIZE count) 0) as [|_]; [lia|].
  unfold bind in Hrun. rewrite fread_g_buffer_eq in Hrun.
  cbv beta iota zeta in Hrun.
  set (data := drop (Z.to_nat (f_pos infile)) (file_bytes infile (files w))) in *.
  set (wanted := take (Z.to_nat (MIN BUFFER_SIZE count)) data) in *.
  set (got := transfer (hd NoFault (faults w)) wanted) in *.
  assert (Hgot : got = take (length got) data).
  { unfold got at 1. rewrite transfer_prefix. fold got. unfold wanted.
    rewrite take_take. f_equal.
    pose proof (transfer_length (hd NoFault (faults w)) wanted) as Hlen.
    fold got in Hlen. unfold wanted in Hlen. rewrite length_take in Hlen. lia. }
  assert (Hgotlen : zlength got <= MIN BUFFER_SIZE count).
  { pose proof (transfer_length (hd NoFault (faults w)) wanted) as Hlen.
    fold got in Hlen. unfold wanted in Hlen. rewrite length_take in Hlen.
    unfold zlength. lia. }
  destruct (Z.eqb_spec (zlength got) 0) as [Hzero|Hsome].
  { destruct (ferror _); norm_in Hrun; injection Hrun as <- <- <- <-; lia. }
  unfold fwrite_g_buffer in Hrun. rewrite fwrite_eq in Hrun.
  norm_in Hrun. rewrite take_zlength_app in Hrun.
  set (put := transfer _ got) in *.
  revert Hrun.
  destruct (Z.eqb_spec (zlength put) (zlength got)) as [Heq|Hne]; norm;
    intros Hrun.
  2:{ injection Hrun as <- <- <- <-. lia. }
  assert (Hput : put = got).
  { apply transfer_full. fold put. unfold zlength in Heq. lia. }
  rewrite Hput in Hrun.
  pose proof (zlength_nonneg got) as Hnn.
  rewrite to_size_t_small in Hrun by lia.
  eapply IH in Hrun; cbn [advance f_file f_pos]; try done; try lia; try (by left).
  cbn [advance f_file f_pos files set_files set_g_buffer set_faults] in Hrun.
  rewrite (file_bytes_frame infile _ (files w)) in Hrun;
    [|done|by rewrite lookup_store_ne].
  destruct Hrun as (Henough & Hi & Ho & Hfiles).
  assert (Hsplit : Z.to_nat (f_pos infile + zlength got)
                   = (Z.to_nat (f_pos infile) + length got)%nat)
    by (unfold zlength; lia).
  rewrite Hsplit, <- drop_drop in Henough, Hfiles. fold data in Henough, Hfiles.
  assert (Hjoin : got ++ take (Z.to_nat (count - zlength got))
                           (drop (length got) data)
                  = take (Z.to_nat count) data).
  { rewrite Hgot at 1. rewrite take_take_drop. f_equal. unfold zlength. lia. }
  split; [|split; [lia|split; [lia|]]].
  - rewrite <- Hjoin, zlength_app. lia.
  - rewrite Hfiles. rewrite store_store; cbn [advance f_file f_pos]; try done.
    by rewrite Hjoin.
Qed.

(** ** The rules *)

Lemma store_ext f g bytes (fs : gmap file_id (list byte)) :
  f_file f = f_file g -> f_pos f = f_pos g -> store f bytes fs = store g bytes fs.
Proof.
  intros Hpath Hpos. unfold store, file_bytes. by rewrite Hpath, Hpos.
Qed.

(** [append_and_pad] under any faults: it writes to its output stream and
    nowhere else; it fails with one line on the standard error, or it
    succeeds and the output stream got the source and the zeros. *)
Lemma append_and_pad_spec dm infile infilename outfile outfilename target_size
    w r source_size infile' outfile' w' :
  append_and_pad dm infile infilename outfile outfilename target_size w
    = ((r, source_size, infile', outfile'), w') ->
  let data := file_bytes infile (files w) in
  f_file infile' = f_file infile /\ f_file outfile' = f_file outfile
  /\ same_but (f_file outfile) w w' /\ stdout w' = stdout w
  /\ ((r = 0 /\ exists m, stderr w' = stderr w ++ [m])
      \/ (r = 1 /\ stderr w' = stderr w
          /\ source_size = zlength data /\ source_size <= target_size
          /\ source_size <= LONG_MAX dm
          /\ (target_size <= SIZE_ERROR dm ->
              f_file infile <> f_file outfile \/ data = [] ->
              f_pos infile = 0 -> 0 <= f_pos outfile ->
              f_pos outfile' = f_pos outfile + target_size
              /\ files w'
                 = store outfile
                     (data ++ replicate (Z.to_nat (target_size - zlength data)) x00)
                     (files w)))).
Proof.
  intros Hrun data. subst data.
  pose proof (zlength_nonneg (file_bytes infile (files w))) as Hnn.
  pose proof (SIZE_ERROR_LONG_MAX dm) as Hmax.
  pose proof (LONG_MAX_ge dm) as Hlmax.
  unfold append_and_pad, bind in Hrun.
  destruct (get_file_size dm infile infilename w) as [[s infile1] w1] eqn:Hprobe.
  apply get_file_size_cases in Hprobe
    as (Hfiles1 & _ & Hopened1 & Hargv1 & Hout1 & Hpath1 & Hcase1).
  assert (Hsame1 : same_but (f_file outfile) w w1) by (by apply same_but_fields).
  destruct Hcase1 as [[-> Herr1] | (-> & Hlong & -> & Herr1 & _)].
  { rewrite Z.eqb_refl in Hrun. injection Hrun as <- <- <- <- <-. eauto 10. }
  revert Hrun.
  destruct (Z.eqb_spec (zlength (file_bytes infile (files w))) (SIZE_ERROR dm))
    as [|_]; [lia|].
  destruct (Z.ltb_spec target_size (zlength (file_bytes infile (files w))))
    as [Hbig|Hfit]; norm; intros Hrun.
  { injection Hrun as <- <- <- <- <-. norm.
    split; [done|]. split; [done|]. split.
    { destruct Hsame1 as (? & ? & ? & ?). by repeat split. }
    split; [done|]. left. rewrite Herr1. eauto. }
  destruct (copy_stream dm infile infilename outfile outfilename
              (zlength (file_bytes infile (files w))) w1)
    as [[[rc infile2] outfile2] w2] eqn:Hcopy.
  pose proof (copy_stream_effect _ _ _ _ _ _ _ _ _ _ _ Hcopy)
    as (Hpathi2 & Hpatho2 & Hsame2 & Hout2 & Hcase2).
  assert (Hsame12 : same_but (f_file outfile) w w2) by (by eapply same_but_trans).
  destruct Hcase2 as [[-> Herr2] | (-> & m & Herr2 & _)]; norm_in Hrun.
  2:{ injection Hrun as <- <- <- <- <-.
      split; [done|]. split; [done|]. split; [done|]. split; [congruence|].
      left. rewrite Herr2, Herr1. eauto. }
  destruct (write_byte_block dm outfile2 outfilename x00
              (to_size_t dm (target_size - zlength (file_bytes infile (files w)))) w2)
    as [[rp outfile3] w3] eqn:Hpad.
  pose proof (write_byte_block_effect _ _ _ _ _ _ _ _ _ Hpad)
    as (Hpatho3 & Hsame3 & Hout3 & Hcase3).
  rewrite Hpatho2 in Hpatho3, Hsame3.
  assert (Hsame : same_but (f_file outfile) w w3) by (by eapply same_but_trans).
  destruct Hcase3 as [[-> Herr3] | (-> & Herr3)]; norm_in Hrun;
    injection Hrun as <- <- <- <- <-.
  2:{ split; [done|]. split; [done|]. split; [done|]. split; [congruence|].
      left. rewrite Herr3, Herr2, Herr1. eauto. }
  split; [done|]. split; [done|]. split; [done|]. split; [congruence|].
  right. split; [done|]. split; [congruence|]. split; [done|].
  split; [done|]. split; [done|].
  intros Hsize Hpaths Hposi Hposo.
  unfold copy_stream in Hcopy.
  eapply copy_stream_loop_spec in Hcopy; try done; try lia.
  2:{ destruct Hpaths as [Hpaths|Hempty]; [by left|right]. by rewrite Hempty. }
  rewrite Hfiles1, Hposi in Hcopy. change (Z.to_nat 0) with 0%nat in Hcopy.
  rewrite drop_0 in Hcopy.
  rewrite take_ge in Hcopy by (unfold zlength; lia).
  destruct Hcopy as (_ & _ & Hpos2 & Hfiles2).
  rewrite to_size_t_small in Hpad by lia.
  eapply write_byte_block_spec in Hpad; try lia.
  destruct Hpad as [Hpad _]. destruct (Hpad eq_refl) as (-> & Hfiles3 & _).
  cbn [f_pos]. split; [lia|].
  rewrite Hfiles3, Hfiles2. apply store_store; try done.
Qed.

(** [cmd_pad] under any faults. *)
Lemma cmd_pad_spec dm infile infilename outfile outfilename target_size
    w r infile' outfile' w' :
  cmd_pad dm infile infilename outfile outfilename target_size w
    = ((r, infile', outfile'), w') ->
  let data := file_bytes infile (files w) in
  let start := OutPadding infilename (Z.quot (to_long dm target_size) 1024)
                 outfilename in
  f_file infile' = f_file infile /\ f_file outfile' = f_file outfile
  /\ same_but (f_file outfile) w w'
  /\ ((r = 0 /\ stdout w' = stdout w ++ [start]
       /\ exists m, stderr w' = stderr w ++ [m])
      \/ (r = 1 /\ stderr w' = stderr w
          /\ zlength data <= target_size /\ zlength data <= LONG_MAX dm
          /\ (target_size <= SIZE_ERROR dm ->
              stdout w'
              = stdout w
                ++ [start; OutDoneFree outfilename (target_size - zlength data)])
          /\ (target_size <= SIZE_ERROR dm ->
              f_file infile <> f_file outfile \/ data = [] ->
              f_pos infile = 0 -> 0 <= f_pos outfile ->
              files w'
              = store outfile
                  (data ++ replicate (Z.to_nat (target_size - zlength data)) x00)
                  (files w)))).
Proof.
  intros Hrun data start. subst data start.
  pose proof (zlength_nonneg (file_bytes infile (files w))) as Hnn.
  unfold cmd_pad, bind in Hrun. norm_in Hrun.
  lazymatch type of Hrun with
  | context [append_and_pad dm ?i ?n ?o ?m ?t ?w0] =>
      destruct (append_and_pad dm i n o m t w0)
        as [[[[ra s] infile1] outfile1] w1] eqn:Happend
  end.
  apply append_and_pad_spec in Happend
    as (Hpathi & Hpatho & Hsame & Hout & Hcase).
  norm_in Hsame. norm_in Hout. norm_in Hcase.
  assert (Hsame' : same_but (f_file outfile) w w1).
  { destruct Hsame as (? & ? & ? & ?). by repeat split. }
  destruct Hcase as [(-> & m & Herr) | (-> & Herr & -> & Hfit & Hlong & Himage)];
    norm_in Hrun; injection Hrun as <- <- <- <-; norm.
  - split; [done|]. split; [done|]. split; [done|]. left. eauto.
  - split; [done|]. split; [done|]. split.
    { destruct Hsame' as (? & ? & ? & ?). by repeat split. }
    right. split; [done|]. split; [done|]. split; [done|]. split; [done|].
    split.
    + intros Hsize. rewrite Hout, <- app_assoc.
      by rewrite to_size_t_small by lia.
    + intros Hsize Hpaths Hposi Hposo.
      by destruct (Himage Hsize Hpaths Hposi Hposo).
Qed.

(** [cmd_stc] under any faults. *)
Lemma cmd_stc_spec dm infile infilename outfile outfilename
    w r infile' outfile' w' :
  cmd_stc dm infile infilename outfile outfilename w
    = ((r, infile', outfile'), w') ->
  let data := file_bytes infile (files w) in
  let start := OutPaddingSteem infilename 128 outfilename in
  f_file infile' = f_file infile /\ f_file outfile' = f_file outfile
  /\ same_but (f_file outfile) w w'
  /\ ((r = 0 /\ stdout w' = stdout w ++ [start]
       /\ exists m, stderr w' = stderr w ++ [m])
      \/ (r = 1 /\ stderr w' = stderr w
          /\ zlength data <= 128 * 1024
          /\ stdout w'
             = stdout w
               ++ [start; OutDoneFree outfilename (128 * 1024 - zlength data)]
          /\ (f_file infile <> f_file outfile \/ data = [] ->
              f_pos infile = 0 -> 0 <= f_pos outfile ->
              files w'
              = store outfile
                  (replicate 4 x00 ++ data
                   ++ replicate (Z.to_nat (128 * 1024 - zlength data)) x00)
                  (files w)))).
Proof.
  intros Hrun data start. subst data start.
  pose proof (zlength_nonneg (file_bytes infile (files w))) as Hnn.
  pose proof (SIZE_ERROR_LONG_MAX dm) as Hmax.
  pose proof (LONG_MAX_ge dm) as Hlmax.
  assert (Hkb : Z.quot (to_long dm (128 * 1024)) 1024 = 128) by (by destruct dm).
  unfold cmd_stc, bind in Hrun. norm_in Hrun. rewrite Hkb in Hrun.
  lazymatch type of Hrun with
  | context [get_file_size dm ?i ?n ?w0] =>
      destruct (get_file_size dm i n w0) as [[s infile1] w1] eqn:Hprobe
  end.
  apply get_file_size_cases in Hprobe
    as (Hfiles1 & _ & Hopened1 & Hargv1 & Hout1 & Hpath1 & Hcase1).
  norm_in Hfiles1. norm_in Hopened1. norm_in Hargv1. norm_in Hout1.
  norm_in Hcase1.
  assert (Hsame1 : same_but (f_file outfile) w w1) by (by apply same_but_fields).
  destruct Hcase1 as [[-> Herr1] | (-> & Hlong & -> & Herr1 & _)].
  { rewrite Z.eqb_refl in Hrun. injection Hrun as <- <- <- <-. eauto 10. }
  revert Hrun.
  destruct (Z.eqb_spec (zlength (file_bytes infile (files w))) (SIZE_ERROR dm))
    as [|_]; [lia|].
  destruct (Z.ltb_spec (128 * 1024) (zlength (file_bytes infile (files w))))
    as [Hbig|Hfit]; norm; intros Hrun.
  { injection Hrun as <- <- <- <-. norm.
    split; [done|]. split; [done|]. split.
    { destruct Hsame1 as (? & ? & ? & ?). by repeat split. }
    left. rewrite Herr1, Hout1. eauto. }
  destruct (write_byte_block dm outfile outfilename x00 4 w1)
    as [[rh outfile2] w2] eqn:Hhead.
  pose proof (write_byte_block_effect _ _ _ _ _ _ _ _ _ Hhead)
    as (Hpatho2 & Hsame2 & Hout2 & Hcase2).
  assert (Hsame12 : same_but (f_file outfile) w w2) by (by eapply same_but_trans).
  destruct Hcase2 as [[-> Herr2] | (-> & Herr2)]; norm_in Hrun.
  2:{ injection Hrun as <- <- <- <-.
      split; [done|]. split; [done|]. split; [done|].
      left. rewrite Herr2, Herr1, Hout2, Hout1. eauto. }
  destruct (copy_stream dm infile infilename outfile2 outfilename
              (zlength (file_bytes infile (files w))) w2)
    as [[[rc infile3] outfile3] w3] eqn:Hcopy.
  pose proof (copy_stream_effect _ _ _ _ _ _ _ _ _ _ _ Hcopy)
    as (Hpathi3 & Hpatho3 & Hsame3 & Hout3 & Hcase3).
  rewrite Hpatho2 in Hpatho3, Hsame3.
  assert (Hsame13 : same_but (f_file outfile) w w3) by (by eapply same_but_trans).
  destruct Hcase3 as [[-> Herr3] | (-> & m & Herr3 & _)]; norm_in Hrun.
  2:{ injection Hrun as <- <- <- <-.
      split; [done|]. split; [done|]. split; [done|].
      left. rewrite Herr3, Herr2, Herr1, Hout3, Hout2, Hout1. eauto. }
  destruct (write_byte_block dm outfile3 outfilename x00
              (to_size_t dm (128 * 1024 - zlength (file_bytes infile (files w)))) w3)
    as [[rp outfile4] w4] eqn:Hpad.
  pose proof (write_byte_block_effect _ _ _ _ _ _ _ _ _ Hpad)
    as (Hpatho4 & Hsame4 & Hout4 & Hcase4).
  rewrite Hpatho3 in Hpatho4, Hsame4.
  assert (Hsame : same_but (f_file outfile) w w4) by (by eapply same_but_trans).
  destruct Hcase4 as [[-> Herr4] | (-> & Herr4)]; norm_in Hrun;
    injection Hrun as <- <- <- <-; norm.
  2:{ split; [done|]. split; [done|]. split; [done|].
      left. rewrite Herr4, Herr3, Herr2, Herr1, Hout4, Hout3, Hout2, Hout1.
      eauto. }
  split; [done|]. split; [done|]. split.
  { destruct Hsame as (? & ? & ? & ?). by repeat split. }
  right. split; [done|]. split; [congruence|]. split; [done|]. split.
  { rewrite Hout4, Hout3, Hout2, Hout1, <- app_assoc.
    by rewrite to_size_t_small by lia. }
  intros Hpaths Hposi Hposo.
  eapply write_byte_block_spec in Hhead; try done; [|lia].
  destruct Hhead as [Hhead _].
  destruct (Hhead eq_refl) as (-> & Hfiles2 & _).
  unfold copy_stream in Hcopy.
  eapply copy_stream_loop_spec in Hcopy; cbn [f_file f_pos]; try done; try lia.
  2:{ destruct Hpaths as [Hpaths|Hempty]; [by left|right]. by rewrite Hempty. }
  cbn [f_file f_pos] in Hcopy.
  assert (Hcopied :
    take (Z.to_nat (zlength (file_bytes infile (files w))))
      (drop (Z.to_nat (f_pos infile)) (file_bytes infile (files w2)))
    = file_bytes infile (files w)).
  { destruct Hpaths as [Hpaths|Hempty].
    - rewrite (file_bytes_frame infile infile (files w) (files w2));
        [|done|by rewrite Hfiles2, lookup_store_ne, Hfiles1].
      rewrite Hposi. change (Z.to_nat 0) with 0%nat.
      rewrite drop_0. apply take_ge. unfold zlength. lia.
    - by rewrite Hempty. }
  rewrite Hcopied in Hcopy.
  destruct Hcopy as (_ & _ & Hpos3 & Hfiles3).
  rewrite to_size_t_small in Hpad by lia.
  eapply write_byte_block_spec in Hpad; try lia.
  destruct Hpad as [Hpad _]. destruct (Hpad eq_refl) as (_ & Hfiles4 & _).
  rewrite Hfiles4, Hfiles3, Hfiles2, Hfiles1.
  rewrite (store_store outfile); cbn [f_file f_pos]; try done.
  rewrite (store_store outfile); cbn [f_file f_pos]; try done.
  rewrite zlength_app. change (zlength (replicate (Z.to_nat 4) x00)) with 4.
  lia.
Qed.

Lemma fseek_effect f offset wh w err f' w' :
  fseek f offset wh w = ((err, f'), w') ->
  f_file f' = f_file f /\ files w' = files w /\ opened w' = opened w
  /\ g_argv0 w' = g_argv0 w /\ stdout w' = stdout w /\ stderr w' = stderr w
  /\ (err = 0 -> wh = SEEK_SET -> f_pos f' = offset).
Proof.
  rewrite fseek_eq. cbv zeta.
  destruct (hd NoFault (faults w)); [destruct (0 <=? _) eqn:Hpos|];
    intros [= <- <- <-]; norm; repeat split; try done.
  by intros _ ->.
Qed.

(** [cmd_pak3] under any faults. *)
Lemma cmd_pak3_spec dm infile infilename outfile outfilename
    w r infile' outfile' w' :
  cmd_pak3 dm infile infilename outfile outfilename w
    = ((r, infile', outfile'), w') ->
  let data := file_bytes infile (files w) in
  let start := OutPadding infilename 512 outfilename in
  f_file infile' = f_file infile /\ f_file outfile' = f_file outfile
  /\ same_but (f_file outfile) w w'
  /\ ((r = 0 /\ stdout w' = stdout w ++ [start]
       /\ exists m, stderr w' = stderr w ++ [m])
      \/ (r = 1 /\ stderr w' = stderr w
          /\ zlength data <= 256 * 1024
          /\ stdout w' = stdout w ++ [start; OutDone outfilename]
          /\ (f_file infile <> f_file outfile \/ data = [] ->
              f_pos infile = 0 -> 0 <= f_pos outfile ->
              files w'
              = store (set_pos 0x40030 outfile) jmp_instr
                  (store outfile
                     (data ++ replicate (Z.to_nat (512 * 1024 - zlength data)) x00)
                     (files w))))).
Proof.
  intros Hrun data start. subst data start.
  pose proof (zlength_nonneg (file_bytes infile (files w))) as Hnn.
  pose proof (SIZE_ERROR_LONG_MAX dm) as Hmax.
  pose proof (LONG_MAX_ge dm) as Hlmax.
  assert (Hkb : Z.quot (to_long dm (512 * 1024)) 1024 = 512) by (by destruct dm).
  unfold cmd_pak3, bind in Hrun. norm_in Hrun. rewrite Hkb in Hrun.
  lazymatch type of Hrun with
  | context [get_file_size dm ?i ?n ?w0] =>
      destruct (get_file_size dm i n w0) as [[s infile1] w1] eqn:Hprobe
  end.
  apply get_file_size_cases in Hprobe
    as (Hfiles1 & _ & Hopened1 & Hargv1 & Hout1 & Hpath1 & Hcase1).
  norm_in Hfiles1. norm_in Hopened1. norm_in Hargv1. norm_in Hout1.
  norm_in Hcase1.
  assert (Hsame1 : same_but (f_file outfile) w w1) by (by apply same_but_fields).
  destruct Hcase1 as [[-> Herr1] | (-> & Hlong & -> & Herr1 & _)].
  { rewrite Z.eqb_refl in Hrun. injection Hrun as <- <- <- <-. eauto 10. }
  revert Hrun.
  destruct (Z.eqb_spec (zlength (file_bytes infile (files w))) (SIZE_ERROR dm))
    as [|_]; [lia|].
  destruct (Z.ltb_spec (256 * 1024) (zlength (file_bytes infile (files w))))
    as [Hbig|Hfit]; norm; intros Hrun.
  { injection Hrun as <- <- <- <-. norm.
    split; [done|]. split; [done|]. split.
    { destruct Hsame1 as (? & ? & ? & ?). by repeat split. }
    left. rewrite Herr1, Hout1. eauto. }
  destruct (append_and_pad dm infile infilename outfile outfilename
              (512 * 1024) w1)
    as [[[[ra s] infile2] outfile2] w2] eqn:Happend.
  apply append_and_pad_spec in Happend
    as (Hpathi2 & Hpatho2 & Hsame2 & Hout2 & Hcase2).
  rewrite Hfiles1 in Hcase2.
  assert (Hsame12 : same_but (f_file outfile) w w2) by (by eapply same_but_trans).
  destruct Hcase2 as [(-> & m & Herr2) | (-> & Herr2 & -> & _ & _ & Himage)];
    norm_in Hrun.
  { injection Hrun as <- <- <- <-.
    split; [done|]. split; [done|]. split; [done|].
    left. rewrite Herr2, Herr1, Hout2, Hout1. eauto. }
  destruct (fseek outfile2 262192 SEEK_SET w2) as [[err outfile3] w3] eqn:Hseek.
  apply fseek_effect in Hseek
    as (Hpatho3 & Hfiles3 & Hopened3 & Hargv3 & Hout3 & Herr3 & Hpos3).
  assert (Hsame3 : same_but (f_file outfile) w2 w3) by (by apply same_but_fields).
  assert (Hsame13 : same_but (f_file outfile) w w3) by (by eapply same_but_trans).
  assert (Hargv : g_argv0 w3 = g_argv0 w) by (by destruct Hsame13 as (_ & _ & _ & ?)).
  revert Hrun. destruct (Z.eqb_spec err 0) as [->|Hfail]; norm; intros Hrun.
  2:{ injection Hrun as <- <- <- <-. norm.
      split; [congruence|]. split; [congruence|]. split.
      { destruct Hsame13 as (? & ? & ? & ?). by repeat split. }
      left. rewrite Herr3, Herr2, Herr1, Hout3, Hout2, Hout1. eauto. }
  destruct (fwrite jmp_instr outfile3 w3) as [[written outfile4] w4] eqn:Hwrite.
  pose proof Hwrite as Heffect.
  apply fwrite_effect in Heffect as (Hpatho4 & Hsame4 & Hout4 & Herr4).
  rewrite Hpatho3, Hpatho2 in Hpatho4, Hsame4.
  assert (Hsame : same_but (f_file outfile) w w4) by (by eapply same_but_trans).
  revert Hrun.
  destruct (Z.eqb_spec written (zlength jmp_instr)) as [->|Hshort]; norm;
    intros Hrun; injection Hrun as <- <- <- <-; norm.
  2:{ split; [congruence|]. split; [congruence|]. split.
      { destruct Hsame as (? & ? & ? & ?). by repeat split. }
      left. rewrite Herr4, Herr3, Herr2, Herr1, Hout4, Hout3, Hout2, Hout1.
      eauto. }
  split; [congruence|]. split; [congruence|]. split.
  { destruct Hsame as (? & ? & ? & ?). by repeat split. }
  right. split; [done|]. split; [congruence|]. split; [done|]. split.
  { by rewrite Hout4, Hout3, Hout2, Hout1, <- app_assoc. }
  intros Hpaths Hposi Hposo.
  destruct Himage as [_ Hfiles2]; try done.
  { rewrite Hmax. lia. }
  rewrite fwrite_eq in Hwrite. cbv zeta in Hwrite.
  pose proof (f_equal (fun x : Z * FILE * world => fst (fst x)) Hwrite) as Hn.
  pose proof (f_equal (fun x : Z * FILE * world => snd x) Hwrite) as Hw.
  cbn [fst snd] in Hn, Hw. subst w4. norm.
  rewrite (transfer_full _ jmp_instr) by (unfold zlength in Hn; lia).
  rewrite Hfiles3, Hfiles2.
  apply store_ext; cbn [set_pos f_file f_pos]; [congruence|auto].
Qed.

(** ** [main] *)

Lemma fopen_effect filename mode w res w' :
  fopen filename mode w = (res, w') ->
  g_argv0 w' = g_argv0 w /\ stdout w' = stdout w /\ stderr w' = stderr w
  /\ canon w' = canon w
  /\ match res with
     | None => files w' = files w /\ dir w' = dir w /\ opened w' = opened w
     | Some f =>
         opened w' = opened w ++ [filename]
         /\ match mode with
            | mode_rb =>
                f = Stream (f_file f) 0 false
                /\ file_of w filename = Some (f_file f)
                /\ files w' = files w /\ dir w' = dir w
            | mode_wb =>
                f = Stream (out_file w filename) 0 false
                /\ files w' = <[out_file w filename := []]> (files w)
                /\ dir w'
                   = <[canon w filename := out_file w filename]> (dir w)
            end
     end.
Proof.
  unfold fopen, bind, next_fault, out_file, file_of. norm.
  destruct (hd NoFault (faults w)), mode; norm.
  3,4: by intros [= <- <-].
  - destruct (dir w !! canon w filename) as [file|] eqn:Hfile;
      intros [= <- <-]; norm; eauto 10.
  - destruct (dir w !! canon w filename) as [file|] eqn:Hfile;
      intros [= <- <-]; norm; cbn [default from_option id];
      rewrite ?(insert_id (dir w) (canon w filename)) by done;
      eauto 10.
Qed.

Lemma fclose_effect f w err w' :
  fclose f w = (err, w') -> w' = set_faults (tail (faults w)) w.
Proof. unfold fclose, bind, next_fault. norm. by intros [= _ <-]. Qed.

Lemma remove_effect filename w err w' :
  remove filename w = (err, w') ->
  opened w' = opened w /\ g_argv0 w' = g_argv0 w
  /\ stdout w' = stdout w /\ stderr w' = stderr w
  /\ files w' = files w /\ canon w' = canon w
  /\ (dir w' = dir w \/ dir w' = delete (canon w filename) (dir w)).
Proof.
  unfold remove, bind, next_fault, file_of. norm.
  destruct (hd NoFault (faults w)); [destruct (dir w !! canon w filename)|];
    intros [= _ <-]; norm; auto 10.
Qed.

(** The three rules in one statement: a rule writes to its output stream
    and nowhere else, and it fails with one more line on the standard error
    or succeeds with none. *)
Lemma cmd_effect dm op target_size infile infilename outfile outfilename
    w r infile' outfile' w' :
  match op with
  | CMD_PAD => cmd_pad dm infile infilename outfile outfilename target_size
  | CMD_PAK3 => cmd_pak3 dm infile infilename outfile outfilename
  | CMD_STC => cmd_stc dm infile infilename outfile outfilename
  | CMD_NONE => ret (1, infile, outfile)
  end w = ((r, infile', outfile'), w') ->
  same_but (f_file outfile) w w'
  /\ ((r = 0 /\ exists m, stderr w' = stderr w ++ [m])
      \/ (r = 1 /\ stderr w' = stderr w)).
Proof.
  destruct op; intros Hrun.
  - injection Hrun as <- <- <- <-. auto using same_but_refl.
  - apply cmd_pad_spec in Hrun
      as (_ & _ & Hsame & [(-> & _ & Herr) | (-> & Herr & _)]); auto.
  - apply cmd_pak3_spec in Hrun
      as (_ & _ & Hsame & [(-> & _ & Herr) | (-> & Herr & _)]); auto.
  - apply cmd_stc_spec in Hrun
      as (_ & _ & Hsame & [(-> & _ & Herr) | (-> & Herr & _)]); auto.
Qed.

(** The three rules leave the directory as it is. *)
Lemma cmd_dir dm op target_size infile infilename outfile outfilename
    w r w' :
  match op with
  | CMD_PAD => cmd_pad dm infile infilename outfile outfilename target_size
  | CMD_PAK3 => cmd_pak3 dm infile infilename outfile outfilename
  | CMD_STC => cmd_stc dm infile infilename outfile outfilename
  | CMD_NONE => ret (1, infile, outfile)
  end w = (r, w') ->
  dir w' = dir w /\ canon w' = canon w.
Proof.
  destruct op; intros Hrun.
  - by injection Hrun as _ <-.
  - by apply (keeps_dir_run _ _ _ _ (keeps_dir_cmd_pad _ _ _ _ _ _)) in Hrun.
  - by apply (keeps_dir_run _ _ _ _ (keeps_dir_cmd_pak3 _ _ _ _ _)) in Hrun.
  - by apply (keeps_dir_run _ _ _ _ (keeps_dir_cmd_stc _ _ _ _ _)) in Hrun.
Qed.

(** [main_run] under any faults.  It changes no file but the one it opens
    for the destination, and no path but the destination; it ends by
    [Exit 1] with one more line on the standard error, or by [Exit 0] with
    none, and then the source was there, the file of the destination was
    made empty, and the rule has run on the two streams and returned 1. *)
Lemma main_run_spec dm op target_size src dst w t w' :
  op <> CMD_NONE ->
  main_run dm op target_size src dst w = (t, w') ->
  let o := out_file w dst in
  g_argv0 w' = g_argv0 w
  /\ (forall file, file <> o -> files w' !! file = files w !! file)
  /\ canon w' = canon w
  /\ (forall name, name <> canon w dst -> dir w' !! name = dir w !! name)
  /\ ((t = Exit 1 /\ exists m, stderr w' = stderr w ++ [m])
      \/ (t = Exit 0 /\ stderr w' = stderr w
          /\ opened w' = opened w ++ [src; dst]
          /\ dir w' = <[canon w dst := o]> (dir w)
          /\ exists file w2 infile' outfile' w3,
               file_of w src = Some file
               /\ files w2 = <[o := []]> (files w)
               /\ stdout w2 = stdout w
               /\ match op with
                  | CMD_PAD =>
                      cmd_pad dm (Stream file 0 false) src (Stream o 0 false)
                        dst target_size
                  | CMD_PAK3 =>
                      cmd_pak3 dm (Stream file 0 false) src (Stream o 0 false)
                        dst
                  | CMD_STC =>
                      cmd_stc dm (Stream file 0 false) src (Stream o 0 false)
                        dst
                  | CMD_NONE =>
                      ret (1, Stream file 0 false, Stream o 0 false)
                  end w2 = ((1, infile', outfile'), w3)
               /\ files w' = files w3 /\ stdout w' = stdout w3)).
Proof.
  intros Hop Hrun o. unfold main_run in Hrun. unfold bind at 1 in Hrun.
  destruct (fopen src mode_rb w) as [[infile|] w1] eqn:Hopen1;
    apply fopen_effect in Hopen1 as (Hargv1 & Hout1 & Herr1 & Hcanon1 & Hres1).
  2:{ destruct Hres1 as (Hfiles1 & Hdir1 & Hopened1).
      norm_in Hrun. injection Hrun as <- <-. norm.
      split; [done|]. split; [by intros; rewrite Hfiles1|].
      split; [done|]. split; [by intros; rewrite Hdir1|].
      left. rewrite Herr1, Hargv1. eauto. }
  destruct Hres1 as (Hopened1 & Hinfile & Hsrc & Hfiles1 & Hdir1).
  set (file := f_file infile) in *. rewrite Hinfile in Hrun. clear Hinfile.
  unfold bind at 1 in Hrun.
  destruct (fopen dst mode_wb w1) as [[outfile|] w2] eqn:Hopen2;
    apply fopen_effect in Hopen2 as (Hargv2 & Hout2 & Herr2 & Hcanon2 & Hres2).
  2:{ destruct Hres2 as (Hfiles2 & Hdir2 & Hopened2).
      norm_in Hrun. injection Hrun as <- <-. norm.
      split; [congruence|]. split; [by intros; rewrite Hfiles2, Hfiles1|].
      split; [congruence|]. split; [by intros; rewrite Hdir2, Hdir1|].
      left. rewrite Herr2, Herr1, Hargv2, Hargv1. eauto. }
  assert (Ho : out_file w1 dst = o).
  { unfold o, out_file, new_file, file_of. by rewrite Hfiles1, Hdir1, Hcanon1. }
  rewrite Ho in Hres2. destruct Hres2 as (Hopened2 & -> & Hfiles2 & Hdir2).
  rewrite Hfiles1 in Hfiles2. rewrite Hdir1, Hcanon1 in Hdir2.
  set (infile' := Stream file 0 false) in *.
  set (outfile := Stream o 0 false) in *.
  assert (Hcmd : exists r infile2 outfile2 w3,
            match op with
            | CMD_PAD => cmd_pad dm infile' src outfile dst target_size
            | CMD_PAK3 => cmd_pak3 dm infile' src outfile dst
            | CMD_STC => cmd_stc dm infile' src outfile dst
            | CMD_NONE => ret (1, infile', outfile)
            end w2 = ((r, infile2, outfile2), w3)).
  { destruct (match op with
              | CMD_PAD => cmd_pad dm infile' src outfile dst target_size
              | CMD_PAK3 => cmd_pak3 dm infile' src outfile dst
              | CMD_STC => cmd_stc dm infile' src outfile dst
              | CMD_NONE => ret (1, infile', outfile)
              end w2) as [[[r infile2] outfile2] w3]. eauto. }
  destruct Hcmd as (r & infile2 & outfile2 & w3 & Hcmd).
  pose proof (cmd_effect _ _ _ _ _ _ _ _ _ _ _ _ Hcmd) as [Hsame Hcase].
  pose proof (cmd_dir _ _ _ _ _ _ _ _ _ _ Hcmd) as [Hdir3 Hcanon3].
  rewrite Hdir2 in Hdir3.
  assert (Hcanon : canon w3 = canon w) by congruence.
  cbn [outfile f_file] in Hsame.
  destruct Hsame as (Hframe3 & _ & Hopened3 & Hargv3).
  assert (Hframe : forall q, q <> o -> files w3 !! q = files w !! q).
  { intros q Hq. by rewrite Hframe3, Hfiles2, lookup_insert_ne. }
  assert (Hnames : forall q, q <> canon w dst -> dir w3 !! q = dir w !! q).
  { intros q Hq. by rewrite Hdir3, lookup_insert_ne. }
  assert (Hrest :
    (let finish : Z * FILE * FILE -> M termination :=
       fun '(r, infile, outfile) =>
       if r =? 0
       then exec fclose outfile ;; exec remove dst ;; ret (Exit 1)
       else
         do err <- fclose outfile ;;
         if negb (err =? 0)
         then exec remove dst ;; exec report_errno dst ;; ret (Exit 1)
         else
           do err <- fclose infile ;;
           if negb (err =? 0)
           then exec report_errno src ;; ret (Exit 1)
           else ret (Exit 0) in
     finish (r, infile2, outfile2) w3) = (t, w')).
  { destruct op; [done| | |]; unfold bind at 1 in Hrun;
      rewrite Hcmd in Hrun; exact Hrun. }
  clear Hrun. cbv zeta beta iota in Hrest.
  destruct Hcase as [(-> & m & Herr3) | (-> & Herr3)].
  - change (0 =? 0) with true in Hrest. cbv iota in Hrest.
    unfold bind in Hrest.
    destruct (fclose outfile2 w3) as [e1 w4] eqn:Hclose.
    apply fclose_effect in Hclose as ->.
    destruct (remove dst _) as [e2 w5] eqn:Hremove.
    apply remove_effect in Hremove
      as (_ & Hargv5 & _ & Herr5 & Hfiles5 & Hcanon5 & Hdir5).
    injection Hrest as <- <-. norm_in Hargv5. norm_in Herr5.
    norm_in Hfiles5. norm_in Hdir5. norm_in Hcanon5.
    split; [congruence|]. split; [by intros; rewrite Hfiles5; auto|].
    split; [congruence|]. split.
    { intros q Hq. destruct Hdir5 as [-> | ->]; [auto|].
      rewrite lookup_delete_ne by congruence. auto. }
    left. split; [done|]. exists m. rewrite Herr5, Herr3. congruence.
  - change (1 =? 0) with false in Hrest. cbv iota in Hrest.
    unfold bind in Hrest.
    destruct (fclose outfile2 w3) as [e1 w4] eqn:Hclose.
    apply fclose_effect in Hclose as ->.
    destruct (negb (e1 =? 0)).
    { destruct (remove dst _) as [e2 w5] eqn:Hremove.
      apply remove_effect in Hremove
        as (_ & Hargv5 & _ & Herr5 & Hfiles5 & Hcanon5 & Hdir5).
      norm_in Hrest. injection Hrest as <- <-.
      norm_in Hargv5. norm_in Herr5. norm_in Hfiles5. norm_in Hdir5.
      norm_in Hcanon5. norm.
      split; [congruence|]. split; [by intros; rewrite Hfiles5; auto|].
      split; [congruence|]. split.
      { intros q Hq. destruct Hdir5 as [-> | ->]; [auto|].
        rewrite lookup_delete_ne by congruence. auto. }
      left. split; [done|]. rewrite Herr5, Herr3, Herr2, Herr1. eauto. }
    destruct (fclose infile2 _) as [e2 w5] eqn:Hclose.
    apply fclose_effect in Hclose as ->.
    destruct (negb (e2 =? 0)); norm_in Hrest; injection Hrest as <- <-; norm.
    { split; [congruence|]. split; [done|]. split; [done|]. split; [done|].
      left. split; [done|]. rewrite Herr3, Herr2, Herr1. eauto. }
    split; [congruence|]. split; [done|]. split; [done|]. split; [done|].
    right.
    split; [done|]. split; [congruence|]. split.
    { rewrite Hopened3, Hopened2, Hopened1. by rewrite <- app_assoc. }
    split; [done|].
    exists file, w2, infile2, outfile2, w3.
    split; [done|]. split; [done|]. split; [congruence|]. done.
Qed.

(** The command lines that [main] takes for a command. *)
Lemma main_cases dm argv w :
  let arg (i : nat) := nth i argv EmptyString in
  let w0 := set_g_argv0 (arg 0%nat) w in
  (zlength argv = 5 /\ arg 1%nat = "pad"%string
   /\ main dm argv w
      = let (target_size, w1) := get_size_value dm (arg 2%nat) w0 in
        if target_size =? SIZE_ERROR dm then (Exit 1, w1)
        else main_run dm CMD_PAD target_size (arg 3%nat) (arg 4%nat) w1)
  \/ (zlength argv = 4 /\ arg 1%nat = "pak3"%string
      /\ main dm argv w = main_run dm CMD_PAK3 0 (arg 2%nat) (arg 3%nat) w0)
  \/ (zlength argv = 4 /\ arg 1%nat = "stc"%string
      /\ main dm argv w = main_run dm CMD_STC 0 (arg 2%nat) (arg 3%nat) w0)
  \/ (~ (zlength argv = 5 /\ arg 1%nat = "pad"%string)
      /\ ~ (zlength argv = 4 /\ arg 1%nat = "pak3"%string)
      /\ ~ (zlength argv = 4 /\ arg 1%nat = "stc"%string)
      /\ main dm argv w = (Exit 1, snd (usage w0))).
Proof.
  cbv zeta. unfold main. unfold bind at 1. norm.
  set (w0 := set_g_argv0 (nth 0 argv EmptyString) w).
  destruct (Z.eqb_spec (zlength argv) 5) as [H5|H5];
    destruct (String.eqb_spec (nth 1 argv EmptyString) "pad") as [Hpad|Hpad];
    cbn [andb].
  1:{ left. split; [done|]. split; [done|]. unfold bind.
      destruct (get_size_value dm (nth 2 argv EmptyString) w0)
        as [target_size w1].
      by destruct (target_size =? SIZE_ERROR dm). }
  all: destruct (Z.eqb_spec (zlength argv) 4) as [H4|H4];
    destruct (String.eqb_spec (nth 1 argv EmptyString) "pak3") as [Hpak3|Hpak3];
    cbn [andb]; try (right; left; done).
  all: destruct (String.eqb_spec (nth 1 argv EmptyString) "stc") as [Hstc|Hstc];
    cbn [andb]; try (right; right; left; done).
  all: right; right; right; unfold bind;
    (split; [|split; [|split]]); [tauto | tauto | tauto |];
    subst w0; by destruct (usage _) as [[] w1].
Qed.

(** ** [main] when no fault is to come *)

(** [main_run] once the rule has returned 1. *)
Lemma main_run_commits dm op target_size src dst file w infile' outfile' w3 :
  op <> CMD_NONE ->
  faults w = [] -> file_of w src = Some file ->
  let o := out_file w dst in
  match op with
  | CMD_PAD =>
      cmd_pad dm (Stream file 0 false) src (Stream o 0 false) dst target_size
  | CMD_PAK3 => cmd_pak3 dm (Stream file 0 false) src (Stream o 0 false) dst
  | CMD_STC => cmd_stc dm (Stream file 0 false) src (Stream o 0 false) dst
  | CMD_NONE => ret (1, Stream file 0 false, Stream o 0 false)
  end (set_opened (opened w ++ [src; dst])
         (set_dir (<[canon w dst := o]> (dir w))
            (set_files (<[o := []]> (files w)) w)))
  = ((1, infile', outfile'), w3) ->
  faults w3 = [] ->
  main_run dm op target_size src dst w = (Exit 0, w3).
Proof.
  intros Hop Hfaults Hsrc o Hcmd Hfaults3.
  pose proof (cmd_dir _ _ _ _ _ _ _ _ _ _ Hcmd) as [Hdir3 Hcanon3].
  norm_in Hdir3. norm_in Hcanon3.
  rewrite (main_run_opens dm op target_size src dst file w Hfaults Hsrc).
  cbv zeta. fold o.
  destruct op; [done| | |]; rewrite (bind_step _ _ _ _ _ Hcmd);
    rewrite (main_run_finish_ok 1 _ _ src dst o); auto;
    unfold file_of; by rewrite Hdir3, Hcanon3, lookup_insert_eq.
Qed.

(** [main_run] once the rule has returned 0: the destination is removed. *)
Lemma main_run_gives_up dm op target_size src dst file w infile' outfile' w3 :
  op <> CMD_NONE ->
  faults w = [] -> file_of w src = Some file ->
  let o := out_file w dst in
  match op with
  | CMD_PAD =>
      cmd_pad dm (Stream file 0 false) src (Stream o 0 false) dst target_size
  | CMD_PAK3 => cmd_pak3 dm (Stream file 0 false) src (Stream o 0 false) dst
  | CMD_STC => cmd_stc dm (Stream file 0 false) src (Stream o 0 false) dst
  | CMD_NONE => ret (1, Stream file 0 false, Stream o 0 false)
  end (set_opened (opened w ++ [src; dst])
         (set_dir (<[canon w dst := o]> (dir w))
            (set_files (<[o := []]> (files w)) w)))
  = ((0, infile', outfile'), w3) ->
  faults w3 = [] ->
  main_run dm op target_size src dst w
  = (Exit 1, set_dir (delete (canon w dst) (dir w)) w3).
Proof.
  intros Hop Hfaults Hsrc o Hcmd Hfaults3.
  pose proof (cmd_dir _ _ _ _ _ _ _ _ _ _ Hcmd) as [Hdir3 Hcanon3].
  norm_in Hdir3. norm_in Hcanon3.
  rewrite (main_run_opens dm op target_size src dst file w Hfaults Hsrc).
  cbv zeta. fold o.
  destruct op; [done| | |]; rewrite (bind_step _ _ _ _ _ Hcmd);
    rewrite (main_run_finish_ok 0 _ _ src dst o); auto;
    try (unfold file_of; by rewrite Hdir3, Hcanon3, lookup_insert_eq);
    by rewrite Hdir3, Hcanon3, delete_insert_eq.
Qed.

(** Nothing to copy: no call, no change. *)
Lemma copy_stream_zero dm infile infilename outfile outfilename w :
  copy_stream dm infile infilename outfile outfilename 0 w
  = ((1, infile, outfile), w).
Proof. reflexivity. Qed.

(** A source that holds no byte, as it does when the destination is the
    same file: the streams may then be open on one file. *)
Lemma append_and_pad_empty dm infile infilename outfile outfilename target_size w :
  faults w = [] ->
  file_bytes infile (files w) = [] ->
  0 <= f_pos infile <= LONG_MAX dm -> 0 <= f_pos outfile ->
  0 <= target_size <= SIZE_ERROR dm ->
  exists outfile' w',
    append_and_pad dm infile infilename outfile outfilename target_size w
    = ((1, 0, infile, outfile'), w')
    /\ faults w' = [].
Proof.
  intros Hfaults Hempty Hposi Hposo Hsize.
  pose proof (SIZE_ERROR_LONG_MAX dm) as Hmax.
  pose proof (LONG_MAX_ge dm) as Hlong.
  unfold append_and_pad.
  rewrite (bind_step _ _ _ _ _ (get_file_size_ok dm infile infilename w
             Hfaults Hposi ltac:(rewrite Hempty; unfold zlength; simpl; lia))).
  rewrite Hempty. change (zlength []) with 0. norm.
  destruct (Z.eqb_spec 0 (SIZE_ERROR dm)) as [|_]; [lia|].
  destruct (Z.ltb_spec target_size 0) as [|_]; [lia|].
  rewrite (bind_step _ _ _ _ _ (copy_stream_zero dm _ _ _ _ w)). norm.
  rewrite Z.sub_0_r, to_size_t_small by lia.
  destruct (write_byte_block_ok dm outfile outfilename x00 target_size w)
    as [buf Hpad]; try done.
  rewrite (bind_step _ _ _ _ _ Hpad). norm. eauto.
Qed.

Lemma cmd_pad_empty dm infile infilename outfile outfilename target_size w :
  faults w = [] ->
  file_bytes infile (files w) = [] ->
  0 <= f_pos infile <= LONG_MAX dm -> 0 <= f_pos outfile ->
  0 <= target_size <= SIZE_ERROR dm ->
  exists infile' outfile' w',
    cmd_pad dm infile infilename outfile outfilename target_size w
    = ((1, infile', outfile'), w')
    /\ faults w' = [].
Proof.
  intros Hfaults Hempty Hposi Hposo Hsize.
  unfold cmd_pad. unfold bind at 1. norm.
  lazymatch goal with
  | |- context [bind (append_and_pad dm _ _ _ _ _) _ ?w0] =>
      destruct (append_and_pad_empty dm infile infilename outfile outfilename
                  target_size w0) as (outfile' & w1 & Hrun & Hfaults1);
        try done
  end.
  rewrite (bind_step _ _ _ _ _ Hrun). norm. unfold bind. norm. eauto 10.
Qed.

Lemma cmd_stc_empty dm infile infilename outfile outfilename w :
  faults w = [] ->
  file_bytes infile (files w) = [] ->
  0 <= f_pos infile <= LONG_MAX dm -> 0 <= f_pos outfile ->
  exists infile' outfile' w',
    cmd_stc dm infile infilename outfile outfilename w
    = ((1, infile', outfile'), w')
    /\ faults w' = [].
Proof.
  intros Hfaults Hempty Hposi Hposo.
  pose proof (SIZE_ERROR_LONG_MAX dm) as Hmax.
  pose proof (LONG_MAX_ge dm) as Hlong.
  unfold cmd_stc. unfold bind at 1. norm.
  lazymatch goal with
  | |- context [bind (get_file_size dm _ _) _ ?w0] =>
      pose proof (get_file_size_ok dm infile infilename w0 Hfaults) as Hprobe
  end.
  norm_in Hprobe. rewrite Hempty in Hprobe. change (zlength []) with 0 in Hprobe.
  rewrite (bind_step _ _ _ _ _ (Hprobe Hposi ltac:(lia))). norm.
  destruct (Z.eqb_spec 0 (SIZE_ERROR dm)) as [|_]; [lia|].
  change (128 * 1024 <? 0) with false. norm.
  lazymatch goal with
  | |- context [bind (write_byte_block dm ?o ?n ?v ?c) _ ?w1] =>
      destruct (write_byte_block_ok dm o n v c w1) as [buf1 Hhead];
        norm; try done; try lia
  end.
  rewrite (bind_step _ _ _ _ _ Hhead). norm.
  lazymatch goal with
  | |- context [bind (copy_stream dm ?i ?n ?o ?m 0) _ ?w1] =>
      rewrite (bind_step _ _ _ _ _ (copy_stream_zero dm i n o m w1))
  end.
  norm. rewrite to_size_t_small by lia.
  lazymatch goal with
  | |- context [bind (write_byte_block dm ?o ?n ?v ?c) _ ?w1] =>
      destruct (write_byte_block_ok dm o n v c w1) as [buf3 Hpad];
        norm; try done; try lia
  end.
  rewrite (bind_step _ _ _ _ _ Hpad). norm. unfold bind. norm. eauto 10.
Qed.

Lemma cmd_pak3_empty dm infile infilename outfile outfilename w :
  faults w = [] ->
  file_bytes infile (files w) = [] ->
  0 <= f_pos infile <= LONG_MAX dm -> 0 <= f_pos outfile ->
  exists infile' outfile' w',
    cmd_pak3 dm infile infilename outfile outfilename w
    = ((1, infile', outfile'), w')
    /\ faults w' = [].
Proof.
  intros Hfaults Hempty Hposi Hposo.
  pose proof (SIZE_ERROR_LONG_MAX dm) as Hmax.
  pose proof (LONG_MAX_ge dm) as Hlong.
  unfold cmd_pak3. unfold bind at 1. norm.
  lazymatch goal with
  | |- context [bind (get_file_size dm _ _) _ ?w0] =>
      pose proof (get_file_size_ok dm infile infilename w0 Hfaults) as Hprobe
  end.
  norm_in Hprobe. rewrite Hempty in Hprobe. change (zlength []) with 0 in Hprobe.
  rewrite (bind_step _ _ _ _ _ (Hprobe Hposi ltac:(lia))). norm.
  destruct (Z.eqb_spec 0 (SIZE_ERROR dm)) as [|_]; [lia|].
  change (256 * 1024 <? 0) with false. norm.
  lazymatch goal with
  | |- context [bind (append_and_pad dm _ _ _ _ ?t) _ ?w0] =>
      destruct (append_and_pad_empty dm infile infilename outfile outfilename
                  t w0) as (outfile1 & w1 & Hrun & Hfaults1);
        norm; try done; try lia
  end.
  rewrite (bind_step _ _ _ _ _ Hrun). norm.
  rewrite (bind_step _ _ _ _ _
             (fseek_set_ok outfile1 262192 w1 Hfaults1 ltac:(lia))).
  norm.
  rewrite (bind_step _ _ _ _ _ (fwrite_ok jmp_instr _ w1 Hfaults1)).
  norm. change (zlength jmp_instr) with 6. change (6 =? 6) with true. norm.
  unfold bind. norm. eauto 10.
Qed.

(** * The command line front end under any environment *)

Lemma last_nth_5 (argv : list string) :
  zlength argv = 5 -> last argv = Some (nth 4 argv EmptyString).
Proof.
  destruct argv as [|a0 [|a1 [|a2 [|a3 [|a4 [|a5 l]]]]]]; unfold zlength;
    simpl; intros; try lia; done.
Qed.

Lemma last_nth_4 (argv : list string) :
  zlength argv = 4 -> last argv = Some (nth 3 argv EmptyString).
Proof.
  destruct argv as [|a0 [|a1 [|a2 [|a3 [|a4 l]]]]]; unfold zlength;
    simpl; intros; try lia; done.
Qed.

(** X1.  [main] never reaches its [abort()]: whatever the command line,
    which holds the name of the program at least, and whatever faults the
    environment inflicts, it returns 0 or 1. *)
Theorem main_never_aborts dm argv w :
  argv <> [] ->
  fst (main dm argv w) = Exit 0 \/ fst (main dm argv w) = Exit 1.
Proof.
  intros _.
  destruct (main_cases dm argv w)
    as [(_ & _ & ->) | [(_ & _ & ->) | [(_ & _ & ->) | (_ & _ & _ & ->)]]].
  - destruct (get_size_value dm _ _) as [target_size w1].
    destruct (target_size =? SIZE_ERROR dm); [by right|].
    destruct (main_run dm CMD_PAD _ _ _ w1) as [t w'] eqn:Hrun.
    apply main_run_spec in Hrun as (_ & _ & _ & _ & [[-> _] | [-> _]]); auto.
  - destruct (main_run dm CMD_PAK3 _ _ _ _) as [t w'] eqn:Hrun.
    apply main_run_spec in Hrun as (_ & _ & _ & _ & [[-> _] | [-> _]]); auto.
  - destruct (main_run dm CMD_STC _ _ _ _) as [t w'] eqn:Hrun.
    apply main_run_spec in Hrun as (_ & _ & _ & _ & [[-> _] | [-> _]]); auto.
  - by right.
Qed.

Lemma out_file_ext w w' path :
  canon w' = canon w -> dir w' = dir w -> files w' = files w ->
  out_file w' path = out_file w path.
Proof.
  intros Hcanon Hdir Hfiles. unfold out_file, new_file, file_of.
  by rewrite Hcanon, Hdir, Hfiles.
Qed.

(** X2.  [main] changes no file but the one that its last argument names:
    whatever the command line and the faults, a file that a path names and
    the last argument does not, the source among them unless the
    destination is one more name of it, holds after the run what it held
    before, and the path names it as before. *)
Theorem main_only_touches_destination dm argv w path file :
  argv <> [] ->
  file_of w path = Some file ->
  (forall dst, last argv = Some dst -> file_of w dst <> Some file) ->
  files (snd (main dm argv w)) !! file = files w !! file
  /\ file_of (snd (main dm argv w)) path = Some file.
Proof.
  intros _ Hpath Hq. rewrite <- Hpath.
  assert (Hrun : forall op target_size src dst w1,
            op <> CMD_NONE -> last argv = Some dst ->
            canon w1 = canon w -> dir w1 = dir w -> files w1 = files w ->
            let w' := snd (main_run dm op target_size src dst w1) in
            files w' !! file = files w !! file
            /\ file_of w' path = file_of w path).
  { intros op target_size src dst w1 Hop Hlast Hcanon1 Hdir1 Hfiles1.
    destruct (main_run dm op target_size src dst w1) as [t w'] eqn:Hrun.
    apply main_run_spec in Hrun as (_ & Hframe & Hcanon & Hnames & _);
      [|done].
    cbn [snd]. rewrite (out_file_ext w w1) in Hframe by done.
    specialize (Hq dst Hlast).
    pose proof (canon_other w path dst file Hpath Hq) as Hother.
    unfold file_of. rewrite Hframe, Hcanon, Hnames, Hfiles1, Hdir1, Hcanon1;
      [done|congruence|].
    by apply (out_file_other w path). }
  destruct (main_cases dm argv w)
    as [(Hargc & _ & ->) | [(Hargc & _ & ->) | [(Hargc & _ & ->)
        | (_ & _ & _ & ->)]]].
  - destruct (get_size_value dm _ _) as [target_size w1] eqn:Hsize.
    apply get_size_value_effect in Hsize as [_ Hw1].
    assert (Hsame : canon w1 = canon w /\ dir w1 = dir w
                    /\ files w1 = files w)
      by (by destruct Hw1 as [->|[_ ->]]).
    destruct Hsame as (Hcanon1 & Hdir1 & Hfiles1).
    destruct (target_size =? SIZE_ERROR dm);
      [by cbn [snd]; unfold file_of; rewrite Hcanon1, Hdir1, Hfiles1|].
    by apply Hrun; [|apply last_nth_5| | |].
  - by apply Hrun; [|apply last_nth_4| | |].
  - by apply Hrun; [|apply last_nth_4| | |].
  - done.
Qed.

(** X3.  What [main] says on the standard error: nothing when it returns
    0, and at least one line when it returns 1, with one exception: the
    command [pad] with a size argument whose value is [SIZE_ERROR], which
    ends the run with status 1 and without a word. *)
Theorem main_reports_failure dm argv w t w' :
  argv <> [] ->
  main dm argv w = (t, w') ->
  (t = Exit 0 /\ stderr w' = stderr w)
  \/ (t = Exit 1 /\ exists m l, stderr w' = stderr w ++ m :: l)
  \/ (t = Exit 1 /\ w' = set_g_argv0 (nth 0 argv EmptyString) w
      /\ zlength argv = 5 /\ nth 1 argv EmptyString = "pad"%string
      /\ fst (get_size_value dm (nth 2 argv EmptyString) w) = SIZE_ERROR dm).
Proof.
  intros _.
  destruct (main_cases dm argv w)
    as [(Hargc & Hcmd & ->) | [(_ & _ & ->) | [(_ & _ & ->)
        | (_ & _ & _ & ->)]]].
  - destruct (get_size_value dm _ _) as [target_size w1] eqn:Hsize.
    pose proof (f_equal fst Hsize) as Hvalue. cbn [fst] in Hvalue.
    rewrite (get_size_value_value dm _ _ w) in Hvalue.
    apply get_size_value_effect in Hsize as [_ Hw1].
    destruct (Z.eqb_spec target_size (SIZE_ERROR dm)) as [Herror|Hvalid].
    + intros [= <- <-]. destruct Hw1 as [->|[_ ->]].
      * right. right. rewrite Hvalue. done.
      * right. left. split; [done|]. norm. eauto.
    + destruct Hw1 as [->|[? _]]; [|done].
      intros Hrun. apply main_run_spec in Hrun as (_ & _ & _ & _ & Hcase); [|done].
      destruct Hcase as [(-> & m & Herr) | (-> & Herr & _)]; [right; left|left];
        norm_in Herr; eauto.
  - intros Hrun. apply main_run_spec in Hrun as (_ & _ & _ & _ & Hcase); [|done].
    destruct Hcase as [(-> & m & Herr) | (-> & Herr & _)]; [right; left|left];
      norm_in Herr; eauto.
  - intros Hrun. apply main_run_spec in Hrun as (_ & _ & _ & _ & Hcase); [|done].
    destruct Hcase as [(-> & m & Herr) | (-> & Herr & _)]; [right; left|left];
      norm_in Herr; eauto.
  - intros [= <- <-]. right. left. split; [done|]. unfold usage. norm. eauto.
Qed.

(** X4.  A command line that is none of [pad] with three arguments,
    [pak3] with two and [stc] with two gets the usage text, nine lines on
    the standard error, and status 1; no file is opened, created or changed
    and nothing goes to the standard output. *)
Theorem main_usage dm argv w :
  argv <> [] ->
  ~ (zlength argv = 5 /\ nth 1 argv EmptyString = "pad"%string) ->
  ~ (zlength argv = 4 /\ nth 1 argv EmptyString = "pak3"%string) ->
  ~ (zlength argv = 4 /\ nth 1 argv EmptyString = "stc"%string) ->
  exists w',
    main dm argv w = (Exit 1, w')
    /\ stderr w'
       = stderr w
         ++ [ErrUsage "usage:";
             ErrUsage "  # Generic zero padding";
             ErrUsageCommand (nth 0 argv EmptyString)
               "pad <size> <source> <destination>";
             ErrUsage EmptyString;
             ErrUsage "  # Steem Engine cartridge image";
             ErrUsageCommand (nth 0 argv EmptyString)
               "stc <source.img> <destination.stc>";
             ErrUsage EmptyString;
             ErrUsage "  # PAK/3 image";
             ErrUsageCommand (nth 0 argv EmptyString)
               "pak3 <source.img> <destination.img>"]
    /\ dir w' = dir w /\ files w' = files w /\ opened w' = opened w
    /\ stdout w' = stdout w.
Proof.
  intros _ Hpad Hpak3 Hstc.
  destruct (main_cases dm argv w)
    as [(? & ? & _) | [(? & ? & _) | [(? & ? & _) | (_ & _ & _ & ->)]]];
    [tauto | tauto | tauto |].
  eexists. split; [reflexivity|]. unfold usage. by norm.
Qed.

(** X5.  When the source path names no file, each of the three commands
    ends with status 1 and one line that names the source, whatever the
    faults; no file is created or changed, so that a destination that was
    there is left as it was.  For [pad] the size argument is one that is
    not taken for [SIZE_ERROR]. *)
Theorem main_missing_source dm argv0 size src dst w :
  file_of w src = None ->
  let failed (run : termination * world) :=
    fst run = Exit 1
    /\ stderr (snd run) = stderr w ++ [ErrErrno argv0 src]
    /\ dir (snd run) = dir w
    /\ files (snd run) = files w
    /\ opened (snd run) = opened w
    /\ stdout (snd run) = stdout w in
  (fst (get_size_value dm size w) <> SIZE_ERROR dm ->
   failed (main dm [argv0; "pad"; size; src; dst]%string w))
  /\ failed (main dm [argv0; "pak3"; src; dst]%string w)
  /\ failed (main dm [argv0; "stc"; src; dst]%string w).
Proof.
  intros Hsrc failed.
  assert (Hrun : forall op target_size,
            failed (main_run dm op target_size src dst (set_g_argv0 argv0 w))).
  { intros op target_size.
    destruct (main_run dm op target_size src dst (set_g_argv0 argv0 w))
      as [t w'] eqn:Hrun.
    unfold main_run in Hrun. unfold bind at 1 in Hrun.
    destruct (fopen src mode_rb _) as [[infile|] w1] eqn:Hopen;
      apply fopen_effect in Hopen as (Hargv1 & Hout1 & Herr1 & _ & Hres1);
      norm_in Hargv1; norm_in Hout1; norm_in Herr1; norm_in Hres1.
    { destruct Hres1 as (_ & _ & Hfile & _).
      change (file_of (set_g_argv0 argv0 w) src) with (file_of w src) in Hfile.
      congruence. }
    destruct Hres1 as (Hfiles1 & Hdir1 & Hopened1). norm_in Hrun.
    injection Hrun as <- <-. unfold failed. cbn [fst snd]. norm.
    by rewrite Hargv1, Herr1. }
  split; [|split].
  - intros Hvalid.
    rewrite (main_pad dm argv0 size src dst _ w
               (get_size_value_valid dm size w _ Hvalid) Hvalid).
    apply Hrun.
  - apply (Hrun CMD_PAK3 0).
  - apply (Hrun CMD_STC 0).
Qed.
(** ** What status 0 stands for *)

(** The bytes that [main_run] finds in the source once it has opened both
    files: none when the destination names the same file, for opening it
    truncates it. *)
Lemma main_run_exit_0 dm op target_size src dst w w' :
  op <> CMD_NONE -> target_size <= SIZE_ERROR dm ->
  main_run dm op target_size src dst w = (Exit 0, w') ->
  exists data,
    contents w src = Some data
    /\ stderr w' = stderr w
    /\ opened w' = opened w ++ [src; dst]
    /\ canon w' = canon w
    /\ dir w' = <[canon w dst := out_file w dst]> (dir w)
    /\ (file_of w dst <> file_of w src -> contents w' src = Some data)
    /\ let found :=
         if decide (file_of w dst = file_of w src) then [] else data in
       match op with
       | CMD_PAD =>
           zlength found <= target_size
           /\ contents w' dst
              = Some (found
                      ++ replicate (Z.to_nat (target_size - zlength found)) x00)
           /\ stdout w'
              = stdout w
                ++ [OutPadding src (Z.quot (to_long dm target_size) 1024) dst;
                    OutDoneFree dst (target_size - zlength found)]
       | CMD_STC =>
           zlength found <= 128 * 1024
           /\ contents w' dst
              = Some (replicate 4 x00 ++ found
                      ++ replicate (Z.to_nat (128 * 1024 - zlength found)) x00)
           /\ stdout w'
              = stdout w
                ++ [OutPaddingSteem src 128 dst;
                    OutDoneFree dst (128 * 1024 - zlength found)]
       | CMD_PAK3 =>
           zlength found <= 256 * 1024
           /\ contents w' dst
              = Some (found
                      ++ replicate (Z.to_nat (0x40030 - zlength found)) x00
                      ++ jmp_instr
                      ++ replicate (Z.to_nat (512 * 1024 - 0x40036)) x00)
           /\ stdout w'
              = stdout w ++ [OutPadding src 512 dst; OutDone dst]
       | CMD_NONE => True
       end.
Proof.
  intros Hop Hsize Hrun.
  apply main_run_spec in Hrun as (_ & Hframe & Hcanon & Hnames & Hcase);
    [|done].
  destruct Hcase as [[[=] _] | (_ & Herr & Hopened & Hdir & Hcase)].
  destruct Hcase
    as (file & w2 & infile' & outfile' & w3 & Hsrc & Hfiles2 & Hout2 & Hcmd
        & Hfiles & Hout).
  set (o := out_file w dst) in *.
  set (data := default [] (files w !! file)).
  exists data.
  split; [apply contents_Some; eauto|]. split; [done|]. split; [done|].
  split; [done|]. split; [done|].
  assert (Hsame : file_of w dst = file_of w src <-> o = file).
  { rewrite Hsrc. split.
    - apply out_file_same.
    - intros Ho. destruct (decide (file_of w dst = Some file)) as [|Hne];
        [done|].
      by destruct (out_file_other w src dst file Hsrc Hne). }
  split.
  { intros Hne. apply contents_Some. exists file. split.
    - unfold file_of in *. rewrite Hcanon, Hdir, lookup_insert_ne; [done|].
      intros Heq. apply Hne. by rewrite Heq.
    - rewrite Hframe; [done|]. intros Ho. by apply Hne, Hsame. }
  set (infile := Stream file 0 false) in *.
  set (outfile := Stream o 0 false) in *.
  set (found := if decide (file_of w dst = file_of w src) then [] else data).
  assert (Hfound : file_bytes infile (files w2) = found).
  { unfold file_bytes, found. cbn [infile f_file]. rewrite Hfiles2.
    destruct (decide (file_of w dst = file_of w src)) as [Heq|Hne].
    - apply Hsame in Heq as ->. by rewrite lookup_insert_eq.
    - rewrite lookup_insert_ne; [done|]. intros Ho. by apply Hne, Hsame. }
  assert (Hpaths : f_file infile <> f_file outfile
                   \/ file_bytes infile (files w2) = []).
  { rewrite Hfound. unfold found. cbn [infile outfile f_file].
    destruct (decide (file_of w dst = file_of w src)) as [Heq|Hne]; [auto|].
    left. intros Ho. by apply Hne, Hsame. }
  assert (Hfresh : files w2 !! f_file outfile = Some []).
  { cbn [outfile f_file]. by rewrite Hfiles2, lookup_insert_eq. }
  assert (Hdst : forall image,
            files w3 !! o = Some image -> contents w' dst = Some image).
  { intros image Himage. apply contents_Some. exists o.
    unfold file_of. by rewrite Hcanon, Hdir, lookup_insert_eq, Hfiles, Himage. }
  cbv zeta. rewrite Hout.
  destruct op; [done| | |].
  - apply cmd_pad_spec in Hcmd
      as (_ & _ & _ & [[[=] _] | (_ & _ & Hfit & _ & Hstdout & Himage)]).
    rewrite Hfound in Hfit, Hstdout, Himage, Hpaths.
    split; [done|]. split; [|by rewrite Hstdout, Hout2].
    apply Hdst. rewrite (Himage Hsize Hpaths eq_refl (Z.le_refl 0)).
    by apply (lookup_store_fresh outfile).
  - apply cmd_pak3_spec in Hcmd
      as (_ & _ & _ & [[[=] _] | (_ & _ & Hfit & Hstdout & Himage)]).
    rewrite Hfound in Hfit, Himage, Hpaths.
    split; [done|]. split; [|by rewrite Hstdout, Hout2].
    apply Hdst. rewrite (Himage Hpaths eq_refl (Z.le_refl 0)).
    by apply (pak3_image outfile).
  - apply cmd_stc_spec in Hcmd
      as (_ & _ & _ & [[[=] _] | (_ & _ & Hfit & Hstdout & Himage)]).
    rewrite Hfound in Hfit, Hstdout, Himage, Hpaths.
    split; [done|]. split; [|by rewrite Hstdout, Hout2].
    apply Hdst. rewrite (Himage Hpaths eq_refl (Z.le_refl 0)).
    by apply (lookup_store_fresh outfile).
Qed.

Lemma cmd_stc_too_big_ok dm infile infilename outfile outfilename w :
  faults w = [] ->
  0 <= f_pos infile <= LONG_MAX dm ->
  zlength (file_bytes infile (files w)) <= LONG_MAX dm ->
  128 * 1024 < zlength (file_bytes infile (files w)) ->
  cmd_stc dm infile infilename outfile outfilename w
  = ((0, infile, outfile),
     set_stderr
       (stderr w
        ++ [ErrTooBig (g_argv0 w) infilename
              (zlength (file_bytes infile (files w)) - 128 * 1024)])
       (set_stdout
          (stdout w ++ [OutPaddingSteem infilename 128 outfilename]) w)).
Proof.
  intros Hfaults Hpos Hlong Hbig.
  pose proof (SIZE_ERROR_LONG_MAX dm) as Hmax.
  unfold cmd_stc. unfold bind at 1. norm.
  replace (Z.quot (to_long dm (128 * 1024)) 1024) with 128
    by (by destruct dm).
  lazymatch goal with
  | |- context [bind (get_file_size dm _ _) _ ?w0] =>
      pose proof (get_file_size_ok dm infile infilename w0 Hfaults) as Hprobe
  end.
  norm_in Hprobe.
  rewrite (bind_step _ _ _ _ _ (Hprobe Hpos Hlong)). norm.
  destruct (Z.eqb_spec (zlength (file_bytes infile (files w))) (SIZE_ERROR dm));
    [lia|].
  destruct (Z.ltb_spec (128 * 1024) (zlength (file_bytes infile (files w))));
    [|lia].
  unfold bind. norm. rewrite to_size_t_small by lia. done.
Qed.

Lemma cmd_pak3_too_big_ok dm infile infilename outfile outfilename w :
  faults w = [] ->
  0 <= f_pos infile <= LONG_MAX dm ->
  zlength (file_bytes infile (files w)) <= LONG_MAX dm ->
  256 * 1024 < zlength (file_bytes infile (files w)) ->
  cmd_pak3 dm infile infilename outfile outfilename w
  = ((0, infile, outfile),
     set_stderr
       (stderr w
        ++ [ErrTooBig (g_argv0 w) infilename
              (zlength (file_bytes infile (files w)) - 256 * 1024)])
       (set_stdout
          (stdout w ++ [OutPadding infilename 512 outfilename]) w)).
Proof.
  intros Hfaults Hpos Hlong Hbig.
  pose proof (SIZE_ERROR_LONG_MAX dm) as Hmax.
  unfold cmd_pak3. unfold bind at 1. norm.
  replace (Z.quot (to_long dm (512 * 1024)) 1024) with 512
    by (by destruct dm).
  lazymatch goal with
  | |- context [bind (get_file_size dm _ _) _ ?w0] =>
      pose proof (get_file_size_ok dm infile infilename w0 Hfaults) as Hprobe
  end.
  norm_in Hprobe.
  rewrite (bind_step _ _ _ _ _ (Hprobe Hpos Hlong)). norm.
  destruct (Z.eqb_spec (zlength (file_bytes infile (files w))) (SIZE_ERROR dm));
    [lia|].
  destruct (Z.ltb_spec (256 * 1024) (zlength (file_bytes infile (files w))));
    [|lia].
  unfold bind. norm. rewrite to_size_t_small by lia. done.
Qed.

Lemma main_pak3 dm argv0 src dst w :
  main dm [argv0; "pak3"%string; src; dst] w
  = main_run dm CMD_PAK3 0 src dst (set_g_argv0 argv0 w).
Proof. reflexivity. Qed.

Lemma main_stc dm argv0 src dst w :
  main dm [argv0; "stc"%string; src; dst] w
  = main_run dm CMD_STC 0 src dst (set_g_argv0 argv0 w).
Proof. reflexivity. Qed.

(** The state of the files when a rule starts on a source that holds
    [data] and on another file as destination. *)
Lemma opened_source (file o : file_id) data (w : world) :
  file <> o -> default [] (files w !! file) = data ->
  file_bytes (Stream file 0 false) (<[o := []]> (files w)) = data.
Proof.
  intros Hne Hsrc. unfold file_bytes. cbn [f_file].
  by rewrite lookup_insert_ne.
Qed.

(** A run of [pad] that returns 0 has read its size argument without a
    complaint and has gone through [main_run]. *)
Lemma main_pad_returns_0 dm argv0 size src dst w w' :
  main dm [argv0; "pad"%string; size; src; dst] w = (Exit 0, w') ->
  let target_size := fst (get_size_value dm size w) in
  0 <= target_size <= SIZE_ERROR dm
  /\ main_run dm CMD_PAD target_size src dst (set_g_argv0 argv0 w)
     = (Exit 0, w').
Proof.
  intros Hrun target_size.
  assert (Hsize : 0 <= target_size <= SIZE_ERROR dm).
  { subst target_size.
    destruct (get_size_value dm size w) as [t w1] eqn:Hsize.
    by apply get_size_value_effect in Hsize as [? _]. }
  split; [done|].
  destruct (Z.eq_dec target_size (SIZE_ERROR dm)) as [Herror|Hvalid].
  { exfalso.
    destruct (main_cases dm [argv0; "pad"%string; size; src; dst] w)
      as [(_ & _ & Hmain) | [([=] & _) | [([=] & _) | (Hpad & _)]]];
      [|by apply Hpad].
    cbn [nth] in Hmain. rewrite Hmain in Hrun.
    destruct (get_size_value dm size _) as [t w1] eqn:Hvalue.
    pose proof (f_equal fst Hvalue) as Ht. cbn [fst] in Ht.
    rewrite (get_size_value_value dm size _ w) in Ht.
    fold target_size in Ht. rewrite <- Ht, Herror, Z.eqb_refl in Hrun.
    discriminate. }
  rewrite (main_pad dm argv0 size src dst target_size w) in Hrun;
    [done|by apply get_size_value_valid|done].
Qed.

(** X6.  Status 0 of [pad] is to be trusted whatever the faults: when
    [main] returns 0 and the destination is not one more name of the file
    of the source, the source was there with no more bytes than the size
    asked for, the destination holds these bytes followed by zeros up to
    that size, the source is what it was, two lines went to the standard
    output and nothing to the standard error. *)
Theorem main_pad_exit_0 dm argv0 size src dst w w' :
  file_of w dst <> file_of w src ->
  main dm [argv0; "pad"%string; size; src; dst] w = (Exit 0, w') ->
  let target_size := fst (get_size_value dm size w) in
  exists data,
    contents w src = Some data
    /\ zlength data <= target_size
    /\ contents w' dst
       = Some (data ++ replicate (Z.to_nat (target_size - zlength data)) x00)
    /\ contents w' src = Some data
    /\ stdout w'
       = stdout w
         ++ [OutPadding src (Z.quot (to_long dm target_size) 1024) dst;
             OutDoneFree dst (target_size - zlength data)]
    /\ stderr w' = stderr w.
Proof.
  intros Hne Hrun target_size.
  apply main_pad_returns_0 in Hrun as [Hsize Hrun].
  apply main_run_exit_0 in Hrun; [|done|lia].
  destruct Hrun as (data & Hsrc & Herr & _ & _ & _ & Hkept & Hrule).
  norm_in Hrule. norm_in Hkept. rewrite decide_False in Hrule by done.
  destruct Hrule as (Hfit & Himage & Hout).
  exists data. auto 10.
Qed.

(** [stc] and [pak3] from the command line with no fault to come, on a
    source that fits. *)
Lemma main_stc_runs dm argv0 src dst data w :
  faults w = [] -> file_of w dst <> file_of w src ->
  contents w src = Some data ->
  zlength data <= 128 * 1024 ->
  fst (main dm [argv0; "stc"%string; src; dst] w) = Exit 0.
Proof.
  intros Hfaults Hne Hsrc Hfit. rewrite main_stc.
  apply contents_Some in Hsrc as (file & Hsrc & Hdata). rewrite Hsrc in Hne.
  pose proof (out_file_other w src dst file Hsrc Hne) as Hother.
  pose proof (canon_other w src dst file Hsrc Hne) as Hnames.
  set (o := out_file w dst) in *.
  set (w2 := set_opened (opened w ++ [src; dst])
               (set_dir (<[canon w dst := o]> (dir w))
                  (set_files (<[o := []]> (files w)) (set_g_argv0 argv0 w)))).
  destruct (cmd_stc_ok dm (Stream file 0 false) src (Stream o 0 false) dst w2)
    as [buf Hcmd]; subst w2; norm; try done.
  { by rewrite (opened_source file o data). }
  by erewrite (main_run_commits dm CMD_STC 0 src dst file
                 (set_g_argv0 argv0 w)); [| |done|exact Hsrc|exact Hcmd|done].
Qed.

Lemma main_pak3_runs dm argv0 src dst data w :
  faults w = [] -> file_of w dst <> file_of w src ->
  contents w src = Some data ->
  zlength data <= 256 * 1024 ->
  fst (main dm [argv0; "pak3"%string; src; dst] w) = Exit 0.
Proof.
  intros Hfaults Hne Hsrc Hfit. rewrite main_pak3.
  apply contents_Some in Hsrc as (file & Hsrc & Hdata). rewrite Hsrc in Hne.
  pose proof (out_file_other w src dst file Hsrc Hne) as Hother.
  pose proof (canon_other w src dst file Hsrc Hne) as Hnames.
  set (o := out_file w dst) in *.
  set (w2 := set_opened (opened w ++ [src; dst])
               (set_dir (<[canon w dst := o]> (dir w))
                  (set_files (<[o := []]> (files w)) (set_g_argv0 argv0 w)))).
  destruct (cmd_pak3_ok dm (Stream file 0 false) src (Stream o 0 false) dst w2)
    as [buf Hcmd]; subst w2; norm; try done.
  { by rewrite (opened_source file o data). }
  by erewrite (main_run_commits dm CMD_PAK3 0 src dst file
                 (set_g_argv0 argv0 w)); [| |done|exact Hsrc|exact Hcmd|done].
Qed.

(** [stc] and [pak3] from the command line with no fault to come, on a
    source that is too long: the destination is removed. *)
Lemma main_too_big dm op argv0 src dst data w :
  op = CMD_STC \/ op = CMD_PAK3 ->
  faults w = [] -> file_of w dst <> file_of w src ->
  contents w src = Some data ->
  let ceiling := match op with CMD_STC => 128 * 1024 | _ => 256 * 1024 end in
  ceiling < zlength data -> zlength data <= LONG_MAX dm ->
  exists w',
    main_run dm op 0 src dst (set_g_argv0 argv0 w) = (Exit 1, w')
    /\ contents w' dst = None
    /\ contents w' src = Some data
    /\ stderr w' = stderr w ++ [ErrTooBig argv0 src (zlength data - ceiling)].
Proof.
  intros Hop Hfaults Hne Hsrc ceiling Hbig Hlong.
  apply contents_Some in Hsrc as (file & Hsrc & Hdata). rewrite Hsrc in Hne.
  pose proof (out_file_other w src dst file Hsrc Hne) as Hother.
  pose proof (canon_other w src dst file Hsrc Hne) as Hnames.
  pose proof (LONG_MAX_ge dm) as Hlmax.
  set (o := out_file w dst) in *.
  set (w2 := set_opened (opened w ++ [src; dst])
               (set_dir (<[canon w dst := o]> (dir w))
                  (set_files (<[o := []]> (files w)) (set_g_argv0 argv0 w)))).
  assert (Hcmd : exists w3,
            match op with
            | CMD_STC =>
                cmd_stc dm (Stream file 0 false) src (Stream o 0 false) dst
            | _ => cmd_pak3 dm (Stream file 0 false) src (Stream o 0 false) dst
            end w2 = ((0, Stream file 0 false, Stream o 0 false), w3)
            /\ faults w3 = [] /\ files w3 = files w2 /\ canon w3 = canon w
            /\ stderr w3
               = stderr w ++ [ErrTooBig argv0 src (zlength data - ceiling)]).
  { destruct Hop as [-> | ->].
    - pose proof (cmd_stc_too_big_ok dm (Stream file 0 false) src
                    (Stream o 0 false) dst w2 Hfaults) as Hcmd.
      subst w2. norm_in Hcmd.
      rewrite (opened_source file o data) in Hcmd by done.
      specialize (Hcmd ltac:(lia) Hlong Hbig). eexists. by split.
    - pose proof (cmd_pak3_too_big_ok dm (Stream file 0 false) src
                    (Stream o 0 false) dst w2 Hfaults) as Hcmd.
      subst w2. norm_in Hcmd.
      rewrite (opened_source file o data) in Hcmd by done.
      specialize (Hcmd ltac:(lia) Hlong Hbig). eexists. by split. }
  destruct Hcmd as (w3 & Hcmd & Hfaults3 & Hfiles3 & Hcanon3 & Herr3).
  eexists. split.
  { destruct Hop as [-> | ->].
    - eapply (main_run_gives_up dm CMD_STC 0 src dst file
                (set_g_argv0 argv0 w)); [done|done|exact Hsrc|exact Hcmd|done].
    - eapply (main_run_gives_up dm CMD_PAK3 0 src dst file
                (set_g_argv0 argv0 w)); [done|done|exact Hsrc|exact Hcmd|done]. }
  unfold contents, file_of in *. norm. rewrite Hcanon3, lookup_delete_eq.
  split; [done|]. split; [|done].
  rewrite lookup_delete_ne by done. rewrite Hsrc.
  cbn [fmap option_fmap option_map]. rewrite Hfiles3. subst w2. norm.
  by rewrite lookup_insert_ne, Hdata by congruence.
Qed.

(** X7.  The command [stc] from the command line, with a destination that
    is not one more name of the file of the source.  Status 0 is to be
    trusted whatever the faults: the destination then holds four zero
    bytes, the source and zeros up to 128 KiB + 4 bytes.  With no fault, a
    source of at most 128 KiB gives status 0, and a longer one, if its
    size fits a [long], gives status 1, one line that tells by how many
    bytes it is too long, and a destination that names no file. *)
Theorem main_stc_image dm argv0 src dst data w :
  file_of w dst <> file_of w src -> contents w src = Some data ->
  let '(t, w') := main dm [argv0; "stc"%string; src; dst] w in
  (t = Exit 0 ->
     zlength data <= 128 * 1024
     /\ contents w' dst
        = Some (replicate 4 x00 ++ data
                ++ replicate (Z.to_nat (128 * 1024 - zlength data)) x00)
     /\ contents w' src = Some data
     /\ stdout w'
        = stdout w ++ [OutPaddingSteem src 128 dst;
                       OutDoneFree dst (128 * 1024 - zlength data)]
     /\ stderr w' = stderr w)
  /\ (faults w = [] -> zlength data <= 128 * 1024 -> t = Exit 0)
  /\ (faults w = [] -> 128 * 1024 < zlength data ->
      zlength data <= LONG_MAX dm ->
      t = Exit 1
      /\ contents w' dst = None
      /\ contents w' src = Some data
      /\ stderr w'
         = stderr w ++ [ErrTooBig argv0 src (zlength data - 128 * 1024)]).
Proof.
  intros Hne Hsrc. rewrite main_stc.
  destruct (main_run dm CMD_STC 0 src dst (set_g_argv0 argv0 w))
    as [t w'] eqn:Hrun.
  split; [|split].
  - intros ->. apply main_run_exit_0 in Hrun; [|done|].
    2:{ pose proof (to_size_t_range dm (-1)) as Hrange.
        fold (SIZE_ERROR dm) in Hrange. lia. }
    destruct Hrun as (data' & Hsrc' & Herr & _ & _ & _ & Hkept & Hrule).
    change (contents (set_g_argv0 argv0 w) src) with (contents w src) in Hsrc'.
    rewrite Hsrc in Hsrc'. injection Hsrc' as <-.
    norm_in Hrule. norm_in Hkept. rewrite decide_False in Hrule by done.
    destruct Hrule as (Hfit & Himage & Hout). auto 10.
  - intros Hfaults Hfit.
    pose proof (main_stc_runs dm argv0 src dst data w Hfaults Hne Hsrc Hfit)
      as Hstatus.
    by rewrite main_stc, Hrun in Hstatus.
  - intros Hfaults Hbig Hlong.
    destruct (main_too_big dm CMD_STC argv0 src dst data w)
      as (w2 & Hok & Hrest); auto.
    rewrite Hrun in Hok. by injection Hok as -> ->.
Qed.

(** X8.  The command [pak3] from the command line, with a destination
    that is not one more name of the file of the source.  Status 0 is to
    be trusted whatever the faults: the destination then holds 512 KiB,
    which are the source, zeros up to the offset 0x40030, the six bytes of
    the jump and zeros.  With no fault, a source of at most 256 KiB gives
    status 0, and a longer one, if its size fits a [long], gives status 1,
    one line that tells by how many bytes it exceeds 256 KiB, and a
    destination that names no file. *)
Theorem main_pak3_image dm argv0 src dst data w :
  file_of w dst <> file_of w src -> contents w src = Some data ->
  let '(t, w') := main dm [argv0; "pak3"%string; src; dst] w in
  (t = Exit 0 ->
     zlength data <= 256 * 1024
     /\ contents w' dst
        = Some (data ++ replicate (Z.to_nat (0x40030 - zlength data)) x00
                ++ [x4e; xf9; x00; xe0; x00; x00]
                ++ replicate (Z.to_nat (512 * 1024 - 0x40036)) x00)
     /\ contents w' src = Some data
     /\ stdout w' = stdout w ++ [OutPadding src 512 dst; OutDone dst]
     /\ stderr w' = stderr w)
  /\ (faults w = [] -> zlength data <= 256 * 1024 -> t = Exit 0)
  /\ (faults w = [] -> 256 * 1024 < zlength data ->
      zlength data <= LONG_MAX dm ->
      t = Exit 1
      /\ contents w' dst = None
      /\ contents w' src = Some data
      /\ stderr w'
         = stderr w ++ [ErrTooBig argv0 src (zlength data - 256 * 1024)]).
Proof.
  intros Hne Hsrc. rewrite main_pak3.
  destruct (main_run dm CMD_PAK3 0 src dst (set_g_argv0 argv0 w))
    as [t w'] eqn:Hrun.
  split; [|split].
  - intros ->. apply main_run_exit_0 in Hrun; [|done|].
    2:{ pose proof (to_size_t_range dm (-1)) as Hrange.
        fold (SIZE_ERROR dm) in Hrange. lia. }
    destruct Hrun as (data' & Hsrc' & Herr & _ & _ & _ & Hkept & Hrule).
    change (contents (set_g_argv0 argv0 w) src) with (contents w src) in Hsrc'.
    rewrite Hsrc in Hsrc'. injection Hsrc' as <-.
    norm_in Hrule. norm_in Hkept. rewrite decide_False in Hrule by done.
    destruct Hrule as (Hfit & Himage & Hout). auto 10.
  - intros Hfaults Hfit.
    pose proof (main_pak3_runs dm argv0 src dst data w Hfaults Hne Hsrc Hfit)
      as Hstatus.
    by rewrite main_pak3, Hrun in Hstatus.
  - intros Hfaults Hbig Hlong.
    destruct (main_too_big dm CMD_PAK3 argv0 src dst data w)
      as (w2 & Hok & Hrest); auto.
    rewrite Hrun in Hok. by injection Hok as -> ->.
Qed.
(** The state of the files when a rule starts on one file as source and
    as destination: opening the destination has emptied it. *)
Lemma opened_in_place f (fs : gmap file_id (list byte)) :
  file_bytes (Stream f 0 false) (<[f := []]> fs) = [].
Proof. unfold file_bytes. cbn [f_file]. by rewrite lookup_insert_eq. Qed.

(** A run that returns 0 on a destination that names the file of the
    source: what the destination holds, the source holds. *)
Lemma main_run_in_place dm op target_size src dst file w w' :
  op <> CMD_NONE -> 0 <= target_size <= SIZE_ERROR dm ->
  file_of w src = Some file -> file_of w dst = Some file ->
  main_run dm op target_size src dst w = (Exit 0, w') ->
  contents w' src = contents w' dst
  /\ match op with
     | CMD_PAD =>
         contents w' dst = Some (replicate (Z.to_nat target_size) x00)
     | CMD_STC =>
         contents w' dst = Some (replicate (Z.to_nat (4 + 128 * 1024)) x00)
     | CMD_PAK3 =>
         contents w' dst
         = Some (replicate (Z.to_nat 0x40030) x00
                 ++ [x4e; xf9; x00; xe0; x00; x00]
                 ++ replicate (Z.to_nat (512 * 1024 - 0x40036)) x00)
     | CMD_NONE => True
     end.
Proof.
  intros Hop Hsize Hsrc Hdst Hrun.
  apply main_run_exit_0 in Hrun; [|done|lia].
  destruct Hrun as (found & _ & _ & _ & Hcanon & Hdir & _ & Hrule).
  cbv zeta in Hrule.
  rewrite decide_True in Hrule by congruence.
  rewrite (out_file_same w dst file Hdst) in Hdir.
  split.
  { unfold contents, file_of in *. rewrite Hcanon, Hdir, lookup_insert_eq.
    destruct (decide (canon w src = canon w dst)) as [->|Hne];
      [by rewrite lookup_insert_eq|].
    by rewrite lookup_insert_ne, Hsrc. }
  destruct op; [done| | |]; destruct Hrule as (_ & Himage & _);
    rewrite Himage; change (zlength []) with 0;
    rewrite app_nil_l, Z.sub_0_r.
  - done.
  - unfold jmp_instr. reflexivity.
  - change 4%nat with (Z.to_nat 4). rewrite <- replicate_add.
    apply (f_equal (fun n => Some (replicate n x00))). lia.
Qed.

(** X9.  Source and destination the same file, under one path or under
    two: [main] opens it for reading, then truncates it by opening it for
    writing, and finds an empty source.  With no fault each command returns
    0 and leaves a file that holds nothing of what it held: zeros, and the
    jump for [pak3]. *)
Theorem main_in_place dm argv0 size src dst file w :
  faults w = [] -> file_of w src = Some file -> file_of w dst = Some file ->
  let target_size := fst (get_size_value dm size w) in
  let left (w' : world) (image : list byte) :=
    contents w' src = Some image /\ contents w' dst = Some image in
  (target_size <> SIZE_ERROR dm ->
   exists w',
     main dm [argv0; "pad"%string; size; src; dst] w = (Exit 0, w')
     /\ left w' (replicate (Z.to_nat target_size) x00))
  /\ (exists w',
        main dm [argv0; "stc"%string; src; dst] w = (Exit 0, w')
        /\ left w' (replicate (Z.to_nat (4 + 128 * 1024)) x00))
  /\ (exists w',
        main dm [argv0; "pak3"%string; src; dst] w = (Exit 0, w')
        /\ left w' (replicate (Z.to_nat 0x40030) x00
                    ++ [x4e; xf9; x00; xe0; x00; x00]
                    ++ replicate (Z.to_nat (512 * 1024 - 0x40036)) x00)).
Proof.
  intros Hfaults Hsrc Hdst target_size left.
  pose proof (LONG_MAX_ge dm) as Hlmax.
  pose proof (to_size_t_range dm (-1)) as Hrange.
  fold (SIZE_ERROR dm) in Hrange.
  set (w2 := set_opened (opened w ++ [src; dst])
               (set_dir (<[canon w dst := file]> (dir w))
                  (set_files (<[file := []]> (files w))
                     (set_g_argv0 argv0 w)))).
  assert (Hempty : file_bytes (Stream file 0 false) (files w2) = [])
    by apply opened_in_place.
  assert (Hfaults2 : faults w2 = []) by done.
  assert (Ho : out_file (set_g_argv0 argv0 w) dst = file)
    by (by apply out_file_same).
  assert (Hleft : forall op target_size w',
            op <> CMD_NONE -> 0 <= target_size <= SIZE_ERROR dm ->
            main_run dm op target_size src dst (set_g_argv0 argv0 w)
              = (Exit 0, w') ->
            forall image,
            match op with
            | CMD_PAD =>
                image = replicate (Z.to_nat target_size) x00
            | CMD_STC => image = replicate (Z.to_nat (4 + 128 * 1024)) x00
            | CMD_PAK3 =>
                image = replicate (Z.to_nat 0x40030) x00
                        ++ [x4e; xf9; x00; xe0; x00; x00]
                        ++ replicate (Z.to_nat (512 * 1024 - 0x40036)) x00
            | CMD_NONE => True
            end -> left w' image).
  { intros op T w' Hop HT Hrun image Himage.
    apply (main_run_in_place dm op T src dst file) in Hrun
      as [Hsame Hrule]; try done.
    unfold left. rewrite Hsame.
    destruct op; [done| | |]; subst image; by rewrite Hrule. }
  split; [|split].
  - intros Hvalid.
    assert (Hsize : 0 <= target_size <= SIZE_ERROR dm).
    { subst target_size.
      destruct (get_size_value dm size w) as [t w1] eqn:Hsize.
      by apply get_size_value_effect in Hsize as [? _]. }
    rewrite (main_pad dm argv0 size src dst target_size w);
      [|by apply get_size_value_valid|done].
    destruct (cmd_pad_empty dm (Stream file 0 false) src (Stream file 0 false)
                dst target_size w2)
      as (infile' & outfile' & w3 & Hcmd & Hfaults3); cbn [f_pos]; try done;
      try lia.
    pose proof (main_run_commits dm CMD_PAD target_size src dst file
                  (set_g_argv0 argv0 w) infile' outfile' w3
                  ltac:(done) Hfaults Hsrc) as Hrun.
    cbv zeta in Hrun. rewrite Ho in Hrun. specialize (Hrun Hcmd Hfaults3).
    exists w3. split; [done|]. by apply (Hleft CMD_PAD target_size).
  - rewrite main_stc.
    destruct (cmd_stc_empty dm (Stream file 0 false) src (Stream file 0 false)
                dst w2)
      as (infile' & outfile' & w3 & Hcmd & Hfaults3); cbn [f_pos]; try done;
      try lia.
    pose proof (main_run_commits dm CMD_STC 0 src dst file
                  (set_g_argv0 argv0 w) infile' outfile' w3
                  ltac:(done) Hfaults Hsrc) as Hrun.
    cbv zeta in Hrun. rewrite Ho in Hrun. specialize (Hrun Hcmd Hfaults3).
    exists w3. split; [done|]. apply (Hleft CMD_STC 0); [done|lia|done|done].
  - rewrite main_pak3.
    destruct (cmd_pak3_empty dm (Stream file 0 false) src
                (Stream file 0 false) dst w2)
      as (infile' & outfile' & w3 & Hcmd & Hfaults3); cbn [f_pos]; try done;
      try lia.
    pose proof (main_run_commits dm CMD_PAK3 0 src dst file
                  (set_g_argv0 argv0 w) infile' outfile' w3
                  ltac:(done) Hfaults Hsrc) as Hrun.
    cbv zeta in Hrun. rewrite Ho in Hrun. specialize (Hrun Hcmd Hfaults3).
    exists w3. split; [done|]. apply (Hleft CMD_PAK3 0); [done|lia|done|done].
Qed.

(** * The primitives under any environment *)

(** X10.  [copy_stream] between two files returns 0 or 1.  When it returns
    1, whatever the faults, the source had [count] bytes from its position
    on, these bytes and no other went to the destination at its position,
    both streams are [count] bytes further and nothing was said; at the end
    of the destination, the bytes are appended.  With no fault and [count]
    bytes in the source it returns 1, and for [count = 0] it returns 1
    without a call to the library. *)
Theorem copy_stream_copies dm infile infilename outfile outfilename count w :
  0 <= count <= SIZE_ERROR dm ->
  f_file infile <> f_file outfile ->
  0 <= f_pos infile -> 0 <= f_pos outfile ->
  let data := file_bytes infile (files w) in
  let chunk := take (Z.to_nat count) (drop (Z.to_nat (f_pos infile)) data) in
  let '(r, infile', outfile', w') :=
    copy_stream dm infile infilename outfile outfilename count w in
  (r = 0 \/ r = 1)
  /\ (r = 1 ->
      zlength chunk = count
      /\ files w' = store outfile chunk (files w)
      /\ f_pos infile' = f_pos infile + count
      /\ f_pos outfile' = f_pos outfile + count
      /\ stdout w' = stdout w /\ stderr w' = stderr w
      /\ (f_pos outfile = zlength (file_bytes outfile (files w)) ->
          file_bytes outfile' (files w')
          = file_bytes outfile (files w) ++ chunk))
  /\ (faults w = [] -> f_pos infile + count <= zlength data -> r = 1)
  /\ (count = 0 -> r = 1 /\ w' = w).
Proof.
  intros Hcount Hpaths Hposi Hposo data chunk.
  destruct (copy_stream dm infile infilename outfile outfilename count w)
    as [[[r infile'] outfile'] w'] eqn:Hrun.
  pose proof (copy_stream_effect _ _ _ _ _ _ _ _ _ _ _ Hrun)
    as (Hpathi & Hpatho & _ & Hout & Hcase).
  split; [|split; [|split]].
  - destruct Hcase as [[-> _] | [-> _]]; auto.
  - intros ->. destruct Hcase as [[_ Herr] | [[=] _]].
    unfold copy_stream in Hrun.
    eapply copy_stream_loop_spec in Hrun; try done; [|by left].
    destruct Hrun as (Hchunk & Hposi' & Hposo' & Hfiles).
    fold data in Hchunk, Hfiles. fold chunk in Hchunk, Hfiles.
    repeat (split; [done|]).
    intros Hend. unfold file_bytes at 1. rewrite Hpatho, Hfiles.
    destruct chunk as [|b chunk'] eqn:Hshape.
    { by rewrite app_nil_r. }
    rewrite store_cons, lookup_insert_eq. cbn [default].
    rewrite Hend. unfold zlength. rewrite Nat2Z.id. apply write_at_end.
  - intros Hfaults Henough.
    destruct (copy_stream_ok dm infile infilename outfile outfilename count w)
      as [buf Hok]; try done.
    rewrite Hrun in Hok. by injection Hok as ->.
  - intros ->. rewrite copy_stream_zero in Hrun. by injection Hrun as <- _ _ <-.
Qed.

(** What [write_byte_block] has written when it returns, with 1 or with 0:
    copies of [value], [count] of them or fewer. *)
Lemma write_byte_block_loop_writes dm value outfilename rounds :
  forall count outfile w r outfile' w',
  0 <= count <= SIZE_ERROR dm ->
  (Z.to_nat count <= rounds)%nat ->
  0 <= f_pos outfile ->
  take (Z.to_nat (MIN BUFFER_SIZE count)) (g_buffer w)
    = replicate (Z.to_nat (MIN BUFFER_SIZE count)) value ->
  write_byte_block_loop dm rounds outfile outfilename count w
    = ((r, outfile'), w') ->
  exists k,
    0 <= k <= count
    /\ files w' = store outfile (replicate (Z.to_nat k) value) (files w)
    /\ f_pos outfile' = f_pos outfile + k
    /\ (r = 1 -> k = count) /\ (r = 0 -> k < count).
Proof.
  induction rounds as [|rounds IH]; intros count outfile w r outfile' w'
    Hcount Hrounds Hpos Hbuf Hrun.
  - assert (count = 0) as -> by lia. simpl in Hrun.
    injection Hrun as <- <- <-. exists 0. simpl.
    repeat split; try done; lia.
  - simpl in Hrun. destruct (Z.ltb_spec 0 count) as [Hgt|Hle].
    2:{ assert (count = 0) as -> by lia. injection Hrun as <- <- <-.
        exists 0. simpl. repeat split; try done; lia. }
    unfold bind, fwrite_g_buffer in Hrun. rewrite fwrite_eq in Hrun.
    rewrite Hbuf in Hrun. cbv beta iota zeta in Hrun.
    set (n := Z.to_nat (MIN BUFFER_SIZE count)) in *.
    assert (Hn : Z.of_nat n = MIN BUFFER_SIZE count).
    { subst n. rewrite MIN_spec. unfold BUFFER_SIZE. lia. }
    assert (Hmin : 0 < MIN BUFFER_SIZE count <= count).
    { rewrite MIN_spec. unfold BUFFER_SIZE. lia. }
    set (put := transfer (hd NoFault (faults w)) (replicate n value)) in *.
    assert (Hlen : (length put <= n)%nat).
    { pose proof (transfer_length (hd NoFault (faults w)) (replicate n value))
        as Hle. by rewrite length_replicate in Hle. }
    assert (Hput : put = replicate (length put) value).
    { unfold put at 1. rewrite transfer_prefix. fold put.
      rewrite take_replicate. f_equal. lia. }
    revert Hrun.
    destruct (Z.eqb_spec (zlength put) (MIN BUFFER_SIZE count)) as [Heq|Hne];
      cbn [negb]; intros Hrun.
    + rewrite to_size_t_small in Hrun by lia.
      eapply IH in Hrun; cbn [advance f_pos files set_files set_faults g_buffer];
        try lia.
      2:{ set (m := Z.to_nat (MIN BUFFER_SIZE (count - zlength put))).
          assert (Hm : (m <= n)%nat) by (subst m n; rewrite !MIN_spec; lia).
          replace (take m (g_buffer w)) with (take m (take n (g_buffer w)))
            by (rewrite take_take; f_equal; lia).
          rewrite Hbuf, take_replicate. f_equal. lia. }
      destruct Hrun as (k & Hk & Hfiles & Hpos' & Hone & Hzero).
      cbn [advance f_pos files set_files set_faults] in Hfiles, Hpos'.
      exists (zlength put + k). split; [lia|]. split.
      { rewrite Hfiles, store_store; cbn [advance f_file f_pos]; try done.
        f_equal. rewrite Hput at 1. rewrite <- replicate_add. f_equal.
        unfold zlength. lia. }
      split; [lia|]. split; intros Hr; [specialize (Hone Hr)|specialize (Hzero Hr)];
        lia.
    + norm_in Hrun. injection Hrun as <- <- <-.
      exists (zlength put). cbn [advance f_pos]. norm.
      split; [unfold zlength in *; lia|]. split.
      { f_equal. rewrite Hput at 1. f_equal. unfold zlength. lia. }
      split; [done|]. split; [done|]. intros _. unfold zlength in *. lia.
Qed.

(** X11.  [write_byte_block] returns 0 or 1 and writes copies of [value]
    and nothing else, whatever the faults: [count] of them when it returns
    1; fewer when it returns 0, which a write that took fewer bytes than
    it was offered brings about, and then one line on the standard error
    names the file.  The stream has moved by as many bytes as were
    written. *)
Theorem write_byte_block_short_write dm outfile outfilename value count w :
  0 <= count <= SIZE_ERROR dm ->
  0 <= f_pos outfile ->
  let '(r, outfile', w') :=
    write_byte_block dm outfile outfilename value count w in
  exists k,
    0 <= k <= count
    /\ files w' = store outfile (replicate (Z.to_nat k) value) (files w)
    /\ f_pos outfile' = f_pos outfile + k
    /\ ((r = 1 /\ k = count /\ stderr w' = stderr w)
        \/ (r = 0 /\ k < count
            /\ stderr w' = stderr w ++ [ErrErrno (g_argv0 w) outfilename]))
    /\ stdout w' = stdout w.
Proof.
  intros Hcount Hpos.
  destruct (write_byte_block dm outfile outfilename value count w)
    as [[r outfile'] w'] eqn:Hrun.
  pose proof (write_byte_block_effect _ _ _ _ _ _ _ _ _ Hrun)
    as (_ & _ & Hout & Hcase).
  unfold write_byte_block, bind, memset_g_buffer in Hrun.
  apply (write_byte_block_loop_writes dm value) in Hrun; norm; try done.
  2:{ rewrite take_app_length'; [done|]. by rewrite length_replicate. }
  destruct Hrun as (k & Hk & Hfiles & Hpos' & Hone & Hzero).
  norm_in Hfiles. exists k. split; [done|]. split; [done|]. split; [done|].
  split; [|done].
  destruct Hcase as [[-> Herr] | [-> Herr]]; [left|right]; auto.
Qed.

(** [get_file_size] has called the library four times when it returns a
    size, and none of the four calls has failed. *)
Lemma get_file_size_calls dm file filename w r file' w' :
  get_file_size dm file filename w = ((r, file'), w') ->
  r <> SIZE_ERROR dm ->
  hd NoFault (faults w) = NoFault
  /\ hd NoFault (tail (faults w)) = NoFault
  /\ hd NoFault (tail (tail (faults w))) = NoFault
  /\ hd NoFault (tail (tail (tail (faults w)))) = NoFault
  /\ 0 <= f_pos file <= LONG_MAX dm.
Proof.
  unfold get_file_size, bind. rewrite ftell_eq.
  destruct (hd NoFault (faults w)) eqn:Hf1; norm.
  2:{ by intros [= <- <- <-]. }
  destruct (Z.leb_spec (f_pos file) (LONG_MAX dm)) as [Hp1|Hp1]; norm.
  2:{ by intros [= <- <- <-]. }
  destruct (Z.eqb_spec (f_pos file) (-1)) as [Hm1|Hm1]; norm.
  { by intros [= <- <- <-]. }
  rewrite fseek_eq. norm.
  destruct (hd NoFault (tail (faults w))) eqn:Hf2; norm.
  2:{ by intros [= <- <- <-]. }
  rewrite Z.add_0_r.
  destruct (0 <=? zlength (file_bytes file (files w))); norm.
  2:{ by intros [= <- <- <-]. }
  rewrite ftell_eq. norm.
  destruct (hd NoFault (tail (tail (faults w)))) eqn:Hf3; norm.
  2:{ by intros [= <- <- <-]. }
  destruct (zlength (file_bytes file (files w)) <=? LONG_MAX dm); norm.
  2:{ by intros [= <- <- <-]. }
  destruct (zlength (file_bytes file (files w)) =? -1); norm.
  { by intros [= <- <- <-]. }
  rewrite fseek_eq. norm.
  destruct (hd NoFault (tail (tail (tail (faults w))))) eqn:Hf4; norm.
  2:{ by intros [= <- <- <-]. }
  destruct (Z.leb_spec 0 (f_pos file)) as [Hp0|Hp0]; norm.
  2:{ by intros [= <- <- <-]. }
  intros _ _. repeat split; try done; lia.
Qed.

(** X12.  [get_file_size] changes no file and writes nothing to the
    standard output.  It returns the length of the file with the stream as
    it was and without a word, or it returns [SIZE_ERROR] with one line on
    the standard error that names the file.  It returns [SIZE_ERROR] when
    one of its four calls to the library fails, when the file is longer
    than [LONG_MAX], and when the position of the stream is not one that
    [ftell] can return. *)
Theorem get_file_size_reports dm file filename w :
  let '(r, file', w') := get_file_size dm file filename w in
  let size := zlength (file_bytes file (files w)) in
  files w' = files w /\ stdout w' = stdout w /\ f_file file' = f_file file
  /\ ((r = size /\ r <> SIZE_ERROR dm /\ file' = file /\ stderr w' = stderr w)
      \/ (r = SIZE_ERROR dm
          /\ stderr w' = stderr w ++ [ErrErrno (g_argv0 w) filename]))
  /\ ((exists k n, (k < 4)%nat /\ faults w !! k = Some (FaultAfter n)) ->
      r = SIZE_ERROR dm)
  /\ (LONG_MAX dm < size -> r = SIZE_ERROR dm)
  /\ (f_pos file < 0 \/ LONG_MAX dm < f_pos file -> r = SIZE_ERROR dm).
Proof.
  destruct (get_file_size dm file filename w) as [[r file'] w'] eqn:Hrun.
  cbv zeta.
  pose proof (SIZE_ERROR_LONG_MAX dm) as Hmax.
  pose proof (LONG_MAX_ge dm) as Hlmax.
  pose proof (get_file_size_calls _ _ _ _ _ _ _ Hrun) as Hcalls.
  apply get_file_size_cases in Hrun
    as (Hfiles & _ & _ & _ & Hout & Hpath & Hcase).
  split; [done|]. split; [done|]. split; [done|]. split; [|split; [|split]].
  - destruct Hcase as [[-> Herr] | (-> & Hlong & -> & Herr & _)]; [by right|].
    left. repeat split; try done. lia.
  - intros (k & n & Hk & Hfault).
    destruct (Z.eq_dec r (SIZE_ERROR dm)) as [|Hvalid]; [done|exfalso].
    destruct (Hcalls Hvalid) as (H0 & H1 & H2 & H3 & _).
    destruct (faults w) as [|a [|b [|c [|d l]]]];
      destruct k as [|[|[|[|k]]]]; simpl in *; try lia; congruence.
  - intros Hlong.
    destruct Hcase as [[-> _] | (-> & Hle & _)]; [done|lia].
  - intros Hposition.
    destruct (Z.eq_dec r (SIZE_ERROR dm)) as [|Hvalid]; [done|exfalso].
    destruct (Hcalls Hvalid) as (_ & _ & _ & _ & Hpos). lia.
Qed.

(** * How the rules compose *)

Lemma store_fresh f bytes (fs : gmap file_id (list byte)) :
  fs !! f_file f = Some [] -> f_pos f = 0 ->
  store f bytes fs = <[f_file f := bytes]> fs.
Proof.
  intros Hempty Hpos. destruct bytes as [|b bytes].
  - by rewrite insert_id.
  - rewrite store_cons. unfold file_bytes. rewrite Hempty, Hpos.
    change (Z.to_nat 0) with 0%nat. cbn [default]. by rewrite write_at_fresh.
Qed.

(** [pad] from the command line with no fault to come: the run, the state
    of the files after it, and no fault to come after it. *)
Lemma main_pad_files dm argv0 size src dst data w :
  faults w = [] -> file_of w dst <> file_of w src ->
  contents w src = Some data ->
  let target_size := fst (get_size_value dm size w) in
  target_size <> SIZE_ERROR dm ->
  zlength data <= LONG_MAX dm ->
  zlength data <= target_size ->
  exists w',
    main dm [argv0; "pad"%string; size; src; dst] w = (Exit 0, w')
    /\ faults w' = [] /\ canon w' = canon w
    /\ dir w' = <[canon w dst := out_file w dst]> (dir w)
    /\ files w'
       = <[out_file w dst
           := data ++ replicate (Z.to_nat (target_size - zlength data)) x00]>
           (files w).
Proof.
  intros Hfaults Hne Hsrc target_size Hvalid Hlong Hfit.
  assert (Hsize : 0 <= target_size <= SIZE_ERROR dm).
  { subst target_size.
    destruct (get_size_value dm size w) as [t w1] eqn:Hsize.
    by apply get_size_value_effect in Hsize as [? _]. }
  apply contents_Some in Hsrc as (file & Hsrc & Hdata). rewrite Hsrc in Hne.
  pose proof (out_file_other w src dst file Hsrc Hne) as Hother.
  rewrite (main_pad dm argv0 size src dst target_size w);
    [|by apply get_size_value_valid|done].
  set (o := out_file w dst) in *.
  set (w2 := set_opened (opened w ++ [src; dst])
               (set_dir (<[canon w dst := o]> (dir w))
                  (set_files (<[o := []]> (files w)) (set_g_argv0 argv0 w)))).
  destruct (cmd_pad_ok dm (Stream file 0 false) src (Stream o 0 false) dst
              target_size w2)
    as [buf Hcmd]; subst w2; norm; try done;
    rewrite ?(opened_source file o data) by done; try lia.
  norm_in Hcmd. rewrite (opened_source file o data) in Hcmd by done.
  eexists. split.
  { eapply (main_run_commits dm CMD_PAD target_size src dst file
              (set_g_argv0 argv0 w)); [done|done|exact Hsrc|exact Hcmd|done]. }
  norm. split; [done|]. split; [done|]. split; [done|].
  rewrite (store_fresh (Stream o 0 false)); cbn [f_file f_pos]; try done.
  - by rewrite insert_insert_eq.
  - by rewrite lookup_insert_eq.
Qed.

(** X13.  Padding in two steps is padding in one: with no fault, [pad] to
    a first size into an intermediate file and [pad] of that file to a
    second size, not smaller, leave in the destination what [pad] of the
    source to the second size leaves.  When the two sizes are equal the
    second step is a plain copy.  The three paths are paths to three
    files, and the first size fits the [long] of [ftell], which measures
    the intermediate file. *)
Theorem pad_twice dm argv0 size1 size2 src mid dst data w :
  faults w = [] ->
  apart w src mid -> apart w mid dst -> apart w src dst ->
  contents w src = Some data ->
  let size_of s := fst (get_size_value dm s w) in
  size_of size1 <> SIZE_ERROR dm -> size_of size2 <> SIZE_ERROR dm ->
  zlength data <= size_of size1 <= size_of size2 ->
  size_of size1 <= LONG_MAX dm ->
  exists w1 w2 w3,
    main dm [argv0; "pad"%string; size1; src; mid] w = (Exit 0, w1)
    /\ main dm [argv0; "pad"%string; size2; mid; dst] w1 = (Exit 0, w2)
    /\ main dm [argv0; "pad"%string; size2; src; dst] w = (Exit 0, w3)
    /\ contents w2 dst = contents w3 dst
    /\ contents w3 dst
       = Some (data
               ++ replicate (Z.to_nat (size_of size2 - zlength data)) x00)
    /\ (size_of size1 = size_of size2 -> contents w2 dst = contents w1 mid).
Proof.
  intros Hfaults Hsm Hmd Hsd Hsrc size_of Hvalid1 Hvalid2 Hfit Hlong.
  pose proof (zlength_nonneg data) as Hnn.
  assert (Hfile : exists file, file_of w src = Some file).
  { apply contents_Some in Hsrc as (file & Hfile & _). eauto. }
  destruct Hfile as [file Hfile].
  assert (Hother : forall path, apart w src path ->
            file_of w path <> file_of w src).
  { intros path [_ [Hnone|Hne]]; congruence. }
  pose proof (main_pad_files dm argv0 size1 src mid data w Hfaults
                (Hother mid Hsm) Hsrc) as Hstep1.
  cbv zeta in Hstep1. fold (size_of size1) in Hstep1.
  destruct Hstep1 as (w1 & Hrun1 & Hfaults1 & Hcanon1 & Hdir1 & Hfiles1);
    [done|lia|lia|].
  set (o1 := out_file w mid) in *.
  set (image1 := data
                 ++ replicate (Z.to_nat (size_of size1 - zlength data)) x00)
    in *.
  assert (Hlen1 : zlength image1 = size_of size1).
  { subst image1. rewrite zlength_app, zlength_replicate. lia. }
  assert (Hvalue : forall s, fst (get_size_value dm s w1) = size_of s).
  { intros s. apply get_size_value_value. }
  assert (Hmid1 : file_of w1 mid = Some o1).
  { unfold file_of. by rewrite Hcanon1, Hdir1, lookup_insert_eq. }
  assert (Hcontents1 : contents w1 mid = Some image1).
  { apply contents_Some. exists o1. split; [done|].
    by rewrite Hfiles1, lookup_insert_eq. }
  assert (Hdst1 : file_of w1 dst <> file_of w1 mid).
  { rewrite Hmid1. unfold file_of. destruct Hmd as [Hnames Hfiles].
    rewrite Hcanon1, Hdir1, lookup_insert_ne by done.
    fold (file_of w dst). unfold o1, out_file.
    destruct Hfiles as [Hnone|Hne].
    - rewrite Hnone. cbn [default]. apply new_file_dir.
    - destruct (file_of w mid) as [m|] eqn:Hm; cbn [default];
        [intros Heq; apply Hne; by rewrite Heq|apply new_file_dir]. }
  pose proof (main_pad_files dm argv0 size2 mid dst image1 w1 Hfaults1
                Hdst1 Hcontents1) as Hstep2.
  cbv zeta in Hstep2. rewrite Hvalue, Hlen1 in Hstep2.
  destruct Hstep2 as (w2 & Hrun2 & _ & Hcanon2 & Hdir2 & Hfiles2);
    [done|lia|lia|].
  pose proof (main_pad_files dm argv0 size2 src dst data w Hfaults
                (Hother dst Hsd) Hsrc) as Hstep3.
  cbv zeta in Hstep3. fold (size_of size2) in Hstep3.
  destruct Hstep3 as (w3 & Hrun3 & _ & Hcanon3 & Hdir3 & Hfiles3);
    [done|lia|lia|].
  exists w1, w2, w3. split; [done|]. split; [done|]. split; [done|].
  assert (Hjoin :
    image1 ++ replicate (Z.to_nat (size_of size2 - size_of size1)) x00
    = data ++ replicate (Z.to_nat (size_of size2 - zlength data)) x00).
  { subst image1. rewrite <- app_assoc, <- replicate_add. do 2 f_equal. lia. }
  assert (Hcontents2 :
    contents w2 dst
    = Some (data ++ replicate (Z.to_nat (size_of size2 - zlength data)) x00)).
  { apply contents_Some. eexists. split.
    - unfold file_of. by rewrite Hcanon2, Hdir2, lookup_insert_eq.
    - by rewrite Hfiles2, lookup_insert_eq, <- Hjoin. }
  assert (Hcontents3 :
    contents w3 dst
    = Some (data ++ replicate (Z.to_nat (size_of size2 - zlength data)) x00)).
  { apply contents_Some. eexists. split.
    - unfold file_of. by rewrite Hcanon3, Hdir3, lookup_insert_eq.
    - by rewrite Hfiles3, lookup_insert_eq. }
  split; [congruence|]. split; [done|].
  intros Hsame. rewrite Hcontents2, Hcontents1, <- Hjoin.
  rewrite Hsame, Z.sub_diag. change (Z.to_nat 0) with 0%nat.
  cbn [replicate]. by rewrite app_nil_r.
Qed.

Lemma take_data_zeros (data : list byte) n m :
  (length data <= n <= m)%nat ->
  take n (data ++ replicate (m - length data) x00)
  = data ++ replicate (n - length data) x00.
Proof.
  intros Hle. rewrite take_app_ge by lia. f_equal.
  rewrite take_replicate. f_equal. lia.
Qed.

Lemma drop_data_zeros (data : list byte) n m :
  (length data <= n <= m)%nat ->
  drop n (data ++ replicate (m - length data) x00) = replicate (m - n) x00.
Proof.
  intros Hle. rewrite drop_app_ge by lia.
  rewrite drop_replicate. f_equal. lia.
Qed.

(** X14.  What [stc] and [pak3] make of a source, told by what [pad] makes
    of it, whatever the faults, as soon as the runs return 0 and no
    destination is one more name of the file of the source: the image of
    [stc] is four zero bytes followed by the image of [pad] for 128 KiB, and
    the image of [pak3] is the image of [pad] for 512 KiB with the six bytes
    from the offset 0x40030 on replaced by the jump. *)
Theorem stc_and_pak3_from_pad dm argv0 size src dst dst' w1 w1' w2 w2' :
  file_of w1 dst <> file_of w1 src -> file_of w2 dst' <> file_of w2 src ->
  contents w2 src = contents w1 src ->
  main dm [argv0; "pad"%string; size; src; dst] w1 = (Exit 0, w1') ->
  exists image,
    contents w1' dst = Some image
    /\ (fst (get_size_value dm size w1) = 128 * 1024 ->
        main dm [argv0; "stc"%string; src; dst'] w2 = (Exit 0, w2') ->
        contents w2' dst' = Some (replicate 4 x00 ++ image))
    /\ (fst (get_size_value dm size w1) = 512 * 1024 ->
        main dm [argv0; "pak3"%string; src; dst'] w2 = (Exit 0, w2') ->
        contents w2' dst'
        = Some (take (Z.to_nat 0x40030) image
                ++ [x4e; xf9; x00; xe0; x00; x00]
                ++ drop (Z.to_nat 0x40036) image)).
Proof.
  intros Hne Hne' Hsame Hpad.
  pose proof (to_size_t_range dm (-1)) as Hrange.
  fold (SIZE_ERROR dm) in Hrange.
  apply main_pad_returns_0 in Hpad as [Hsize Hpad].
  apply main_run_exit_0 in Hpad; [|done|lia].
  destruct Hpad as (data & Hsrc & _ & _ & _ & _ & _ & Hrule).
  norm_in Hrule. rewrite decide_False in Hrule by done.
  destruct Hrule as (Hfit & Himage & _).
  pose proof (zlength_nonneg data) as Hnn.
  eexists. split; [exact Himage|]. split.
  - intros Hsize128 Hstc. rewrite Hsize128. rewrite main_stc in Hstc.
    apply main_run_exit_0 in Hstc; [|done|lia].
    destruct Hstc as (data' & Hsrc' & _ & _ & _ & _ & _ & Hrule).
    change (contents (set_g_argv0 argv0 w2) src) with (contents w2 src)
      in Hsrc'.
    change (contents (set_g_argv0 argv0 w1) src) with (contents w1 src)
      in Hsrc.
    rewrite Hsame, Hsrc in Hsrc'. injection Hsrc' as <-.
    norm_in Hrule. rewrite decide_False in Hrule by done.
    by destruct Hrule as (_ & -> & _).
  - intros Hsize512 Hpak3. rewrite Hsize512. rewrite main_pak3 in Hpak3.
    apply main_run_exit_0 in Hpak3; [|done|lia].
    destruct Hpak3 as (data' & Hsrc' & _ & _ & _ & _ & _ & Hrule).
    change (contents (set_g_argv0 argv0 w2) src) with (contents w2 src)
      in Hsrc'.
    change (contents (set_g_argv0 argv0 w1) src) with (contents w1 src)
      in Hsrc.
    rewrite Hsame, Hsrc in Hsrc'. injection Hsrc' as <-.
    norm_in Hrule. rewrite decide_False in Hrule by done.
    destruct Hrule as (Hfit256 & -> & _). unfold jmp_instr.
    assert (Hlen : Z.to_nat (512 * 1024 - zlength data)
                   = (Z.to_nat (512 * 1024) - length data)%nat)
      by (unfold zlength; lia).
    rewrite Hlen, take_data_zeros, drop_data_zeros
      by (unfold zlength in *; lia).
    replace (Z.to_nat 262192 - length data)%nat
      with (Z.to_nat (262192 - zlength data)) by (unfold zlength; lia).
    replace (Z.to_nat (512 * 1024) - Z.to_nat 262198)%nat
      with (Z.to_nat (512 * 1024 - 262198)) by lia.
    by rewrite <- app_assoc.
Qed.

(** * One fault and no more *)

Lemma strikes_tail l : (strikes (tail l) <= strikes l)%nat.
Proof. destruct l as [|[|n] l]; simpl; lia. Qed.

Lemma strikes_hd l n :
  hd NoFault l = FaultAfter n -> (strikes (tail l) < strikes l)%nat.
Proof. destruct l as [|[|m] l]; simpl; intros [=]; lia. Qed.

Lemma strikes_none l : strikes l = 0%nat -> hd NoFault l = NoFault.
Proof. by destruct l as [|[|n] l]. Qed.

Lemma strikes_none_tail l : strikes l = 0%nat -> strikes (tail l) = 0%nat.
Proof. intros Hnone. pose proof (strikes_tail l). lia. Qed.

(** A write that takes fewer bytes than it is offered has met a fault. *)
Lemma fwrite_strikes bytes f w n f' w' :
  fwrite bytes f w = ((n, f'), w') ->
  (strikes (faults w') <= strikes (faults w))%nat
  /\ (n <> zlength bytes -> (strikes (faults w') < strikes (faults w))%nat).
Proof.
  rewrite fwrite_eq. cbv zeta. intros Hrun.
  pose proof (f_equal (fun x : Z * FILE * world => fst (fst x)) Hrun) as Hn.
  pose proof (f_equal (fun x : Z * FILE * world => snd x) Hrun) as Hw.
  cbn [fst snd] in Hn, Hw. subst n w'. norm.
  split; [apply strikes_tail|].
  destruct (hd NoFault (faults w)) as [|k] eqn:Hhd; cbn [transfer]; [done|].
  intros _. by eapply strikes_hd.
Qed.

(** A read that gives fewer bytes than the file has on offer has met a
    fault. *)
Lemma fread_g_buffer_strikes n f w got f' w' :
  fread_g_buffer n f w = ((got, f'), w') ->
  (strikes (faults w') <= strikes (faults w))%nat
  /\ (got <> zlength (take (Z.to_nat n)
                        (drop (Z.to_nat (f_pos f)) (file_bytes f (files w)))) ->
      (strikes (faults w') < strikes (faults w))%nat).
Proof.
  rewrite fread_g_buffer_eq. cbv zeta. intros Hrun.
  pose proof (f_equal (fun x : Z * FILE * world => fst (fst x)) Hrun) as Hn.
  pose proof (f_equal (fun x : Z * FILE * world => snd x) Hrun) as Hw.
  cbn [fst snd] in Hn, Hw. subst got w'. norm.
  split; [apply strikes_tail|].
  destruct (hd NoFault (faults w)) as [|k] eqn:Hhd; cbn [transfer]; [done|].
  intros _. by eapply strikes_hd.
Qed.

Lemma fclose_strikes f w err w' :
  fclose f w = (err, w') ->
  (strikes (faults w') <= strikes (faults w))%nat
  /\ (err <> 0 -> (strikes (faults w') < strikes (faults w))%nat).
Proof.
  unfold fclose, bind, next_fault. norm. intros [= <- <-]. norm.
  split; [apply strikes_tail|].
  destruct (hd NoFault (faults w)) as [|k] eqn:Hhd; [done|].
  intros _. by eapply strikes_hd.
Qed.

Lemma fopen_strikes filename mode w res w' :
  fopen filename mode w = (res, w') ->
  (strikes (faults w') <= strikes (faults w))%nat
  /\ (res = None ->
      (strikes (faults w') < strikes (faults w))%nat
      \/ (mode = mode_rb /\ file_of w filename = None)).
Proof.
  unfold fopen, bind, next_fault, file_of. norm.
  destruct (hd NoFault (faults w)) as [|k] eqn:Hhd, mode; norm.
  - destruct (dir w !! canon w filename) eqn:Hfile; intros [= <- <-]; norm;
      (split; [apply strikes_tail|]); [done|auto].
  - destruct (dir w !! canon w filename) eqn:Hfile; intros [= <- <-]; norm;
      (split; [apply strikes_tail|done]).
  - intros [= <- <-]. norm. split; [apply strikes_tail|].
    intros _. left. by eapply strikes_hd.
  - intros [= <- <-]. norm. split; [apply strikes_tail|].
    intros _. left. by eapply strikes_hd.
Qed.

Lemma fseek_strikes f offset w err f' w' :
  fseek f offset SEEK_SET w = ((err, f'), w') ->
  (strikes (faults w') <= strikes (faults w))%nat
  /\ (err <> 0 -> 0 <= offset ->
      (strikes (faults w') < strikes (faults w))%nat).
Proof.
  rewrite fseek_eq. cbv zeta.
  destruct (hd NoFault (faults w)) as [|k] eqn:Hhd.
  - destruct (Z.leb_spec 0 offset); intros [= <- <- <-]; norm;
      (split; [apply strikes_tail|]); [done|lia].
  - intros [= <- <- <-]. norm. split; [apply strikes_tail|].
    intros _ _. by eapply strikes_hd.
Qed.

(** With no fault to come, [remove] removes a file that is there. *)
Lemma remove_calm filename w :
  strikes (faults w) = 0%nat -> is_Some (file_of w filename) ->
  exists w',
    remove filename w = (0, w')
    /\ dir w' = delete (canon w filename) (dir w)
    /\ canon w' = canon w /\ files w' = files w
    /\ stderr w' = stderr w /\ stdout w' = stdout w.
Proof.
  intros Hcalm [file Hfile]. unfold remove, bind, next_fault, file_of in *.
  norm. rewrite (strikes_none _ Hcalm), Hfile. eexists. split; [done|].
  by norm.
Qed.

(** [write_byte_block] fails on a fault and on nothing else. *)
Lemma write_byte_block_loop_strikes dm value outfilename rounds :
  forall count outfile w r outfile' w',
  0 <= count <= SIZE_ERROR dm ->
  (Z.to_nat count <= rounds)%nat ->
  take (Z.to_nat (MIN BUFFER_SIZE count)) (g_buffer w)
    = replicate (Z.to_nat (MIN BUFFER_SIZE count)) value ->
  write_byte_block_loop dm rounds outfile outfilename count w
    = ((r, outfile'), w') ->
  (strikes (faults w') <= strikes (faults w))%nat
  /\ (r = 0 -> (strikes (faults w') < strikes (faults w))%nat).
Proof.
  induction rounds as [|rounds IH]; intros count outfile w r outfile' w'
    Hcount Hrounds Hbuf Hrun.
  - assert (count = 0) as -> by lia. simpl in Hrun.
    injection Hrun as <- <- <-. split; [lia|done].
  - simpl in Hrun. destruct (Z.ltb_spec 0 count) as [Hgt|Hle].
    2:{ injection Hrun as <- <- <-. split; [lia|done]. }
    unfold bind, fwrite_g_buffer in Hrun.
    destruct (fwrite (take (Z.to_nat (MIN BUFFER_SIZE count)) (g_buffer w))
                outfile w) as [[written outfile1] w1] eqn:Hwrite.
    pose proof (fwrite_strikes _ _ _ _ _ _ Hwrite) as [Hle Hlt].
    rewrite Hbuf, zlength_replicate in Hlt.
    assert (Hmin : 0 < MIN BUFFER_SIZE count <= count).
    { rewrite MIN_spec. unfold BUFFER_SIZE. lia. }
    rewrite Z2Nat.id in Hlt by lia.
    assert (Hbuf1 : g_buffer w1 = g_buffer w).
    { rewrite fwrite_eq in Hwrite. cbv zeta in Hwrite.
      pose proof (f_equal (fun x : Z * FILE * world => snd x) Hwrite) as Hw.
      cbn [snd] in Hw. by subst w1. }
    revert Hrun.
    destruct (Z.eqb_spec written (MIN BUFFER_SIZE count)) as [->|Hne];
      cbn [negb]; intros Hrun.
    + rewrite to_size_t_small in Hrun by lia.
      assert (Hbuf' :
        take (Z.to_nat (MIN BUFFER_SIZE (count - MIN BUFFER_SIZE count)))
          (g_buffer w1)
        = replicate
            (Z.to_nat (MIN BUFFER_SIZE (count - MIN BUFFER_SIZE count))) value).
      { rewrite Hbuf1.
        set (n := Z.to_nat (MIN BUFFER_SIZE count)) in *.
        set (m := Z.to_nat (MIN BUFFER_SIZE (count - MIN BUFFER_SIZE count))).
        assert (Hm : (m <= n)%nat) by (subst m n; rewrite !MIN_spec; lia).
        replace (take m (g_buffer w)) with (take m (take n (g_buffer w)))
          by (rewrite take_take; f_equal; lia).
        rewrite Hbuf, take_replicate. f_equal. lia. }
      apply (IH (count - MIN BUFFER_SIZE count) outfile1 w1 r outfile' w'
               ltac:(lia) ltac:(lia) Hbuf') in Hrun.
      destruct Hrun as [Hle' Hlt']. split; [lia|].
      intros Hr. specialize (Hlt' Hr). lia.
    + norm_in Hrun. injection Hrun as <- <- <-. norm. auto.
Qed.

Lemma write_byte_block_strikes dm outfile outfilename value count w r outfile' w' :
  0 <= count <= SIZE_ERROR dm ->
  write_byte_block dm outfile outfilename value count w = ((r, outfile'), w') ->
  (strikes (faults w') <= strikes (faults w))%nat
  /\ (r = 0 -> (strikes (faults w') < strikes (faults w))%nat).
Proof.
  intros Hcount Hrun. unfold write_byte_block, bind, memset_g_buffer in Hrun.
  apply (write_byte_block_loop_strikes dm value) in Hrun; norm; try done.
  rewrite take_app_length'; [done|]. by rewrite length_replicate.
Qed.

(** [copy_stream] on a source that has the bytes fails on a fault and on
    nothing else. *)
Lemma copy_stream_loop_strikes dm infilename outfilename rounds :
  forall count infile outfile w r infile' outfile' w',
  0 <= count <= SIZE_ERROR dm ->
  (Z.to_nat count <= rounds)%nat ->
  f_file infile <> f_file outfile ->
  0 <= f_pos infile ->
  f_pos infile + count <= zlength (file_bytes infile (files w)) ->
  copy_stream_loop dm rounds infile infilename outfile outfilename count w
    = ((r, infile', outfile'), w') ->
  (strikes (faults w') <= strikes (faults w))%nat
  /\ (r = 0 -> (strikes (faults w') < strikes (faults w))%nat).
Proof.
  induction rounds as [|rounds IH];
    intros count infile outfile w r infile' outfile' w'
      Hcount Hrounds Hpaths Hposi Henough Hrun.
  all: destruct (Z.eq_dec count 0) as [->|Hnz]; [|try lia].
  1,2: simpl in Hrun; change (MIN BUFFER_SIZE 0 =? 0) with true in Hrun;
       injection Hrun as <- <- <- <-; split; [lia|done].
  assert (Hmin : 0 < MIN BUFFER_SIZE count <= count).
  { rewrite MIN_spec. unfold BUFFER_SIZE. lia. }
  simpl in Hrun.
  destruct (Z.eqb_spec (MIN BUFFER_SIZE count) 0) as [|_]; [lia|].
  unfold bind in Hrun.
  destruct (fread_g_buffer (MIN BUFFER_SIZE count) infile w)
    as [[towrite infile1] w1] eqn:Hread.
  pose proof (fread_g_buffer_strikes _ _ _ _ _ _ Hread) as [Hle1 Hlt1].
  assert (Hwanted :
    zlength (take (Z.to_nat (MIN BUFFER_SIZE count))
               (drop (Z.to_nat (f_pos infile)) (file_bytes infile (files w))))
    = MIN BUFFER_SIZE count).
  { unfold zlength in *. rewrite length_take, length_drop. lia. }
  rewrite Hwanted in Hlt1.
  rewrite fread_g_buffer_eq in Hread. cbv zeta in Hread.
  set (data := drop (Z.to_nat (f_pos infile)) (file_bytes infile (files w))) in *.
  set (wanted := take (Z.to_nat (MIN BUFFER_SIZE count)) data) in *.
  set (got := transfer (hd NoFault (faults w)) wanted) in *.
  pose proof (f_equal (fun x : Z * FILE * world => fst (fst x)) Hread) as Hn.
  pose proof (f_equal (fun x : Z * FILE * world => snd (fst x)) Hread) as Hf.
  pose proof (f_equal (fun x : Z * FILE * world => snd x) Hread) as Hw.
  cbn [fst snd] in Hn, Hf, Hw. clear Hread. subst towrite.
  assert (Hgotlen : zlength got <= MIN BUFFER_SIZE count).
  { pose proof (transfer_length (hd NoFault (faults w)) wanted) as Hlen.
    fold got in Hlen. unfold zlength in *. lia. }
  destruct (Z.eqb_spec (zlength got) 0) as [Hzero|Hsome].
  { assert (Hstrike : (strikes (faults w1) < strikes (faults w))%nat)
      by (apply Hlt1; lia).
    destruct (ferror infile1); norm_in Hrun; injection Hrun as <- <- <- <-;
      norm; split; (lia || done). }
  unfold fwrite_g_buffer in Hrun.
  destruct (fwrite (take (Z.to_nat (zlength got)) (g_buffer w1)) outfile w1)
    as [[written outfile1] w2] eqn:Hwrite.
  pose proof (fwrite_strikes _ _ _ _ _ _ Hwrite) as [Hle2 Hlt2].
  assert (Hoffered : take (Z.to_nat (zlength got)) (g_buffer w1) = got).
  { subst w1. norm. apply take_zlength_app. }
  rewrite Hoffered in Hlt2, Hwrite.
  pose proof (fwrite_effect _ _ _ _ _ _ Hwrite) as (Hpatho & Hsame & _ & _).
  revert Hrun.
  destruct (Z.eqb_spec written (zlength got)) as [->|Hne]; cbn [negb]; intros Hrun.
  2:{ norm_in Hrun. injection Hrun as <- <- <- <-. norm.
      split; [lia|]. intros _. specialize (Hlt2 Hne). lia. }
  pose proof (zlength_nonneg got) as Hnn.
  rewrite to_size_t_small in Hrun by lia.
  assert (Hpath1 : f_file infile1 = f_file infile) by (by subst infile1).
  assert (Hpos1 : f_pos infile1 = f_pos infile + zlength got)
    by (by subst infile1).
  assert (Hdata2 : file_bytes infile1 (files w2) = file_bytes infile (files w)).
  { destruct Hsame as (Hframe & _). apply file_bytes_frame; [done|].
    rewrite Hframe by done. by subst w1. }
  apply (IH (count - zlength got) infile1 outfile1 w2 r infile' outfile' w'
           ltac:(lia) ltac:(lia)) in Hrun.
  - destruct Hrun as [Hle' Hlt']. split; [lia|].
    intros Hr. specialize (Hlt' Hr). lia.
  - congruence.
  - lia.
  - rewrite Hdata2. lia.
Qed.

(** [get_file_size] on a stream and a file within the range of [long]
    fails on a fault and on nothing else. *)
Lemma get_file_size_strikes dm file filename w r file' w' :
  get_file_size dm file filename w = ((r, file'), w') ->
  (strikes (faults w') <= strikes (faults w))%nat
  /\ (r = SIZE_ERROR dm ->
      0 <= f_pos file <= LONG_MAX dm ->
      zlength (file_bytes file (files w)) <= LONG_MAX dm ->
      (strikes (faults w') < strikes (faults w))%nat).
Proof.
  pose proof (zlength_nonneg (file_bytes file (files w))) as Hnn.
  pose proof (SIZE_ERROR_LONG_MAX dm) as Hmax.
  pose proof (LONG_MAX_ge dm) as Hlmax.
  pose proof (strikes_tail (faults w)) as Ht1.
  pose proof (strikes_tail (tail (faults w))) as Ht2.
  pose proof (strikes_tail (tail (tail (faults w)))) as Ht3.
  pose proof (strikes_tail (tail (tail (tail (faults w))))) as Ht4.
  unfold get_file_size, bind. rewrite ftell_eq.
  destruct (hd NoFault (faults w)) eqn:Hf1; norm.
  2:{ intros [= <- <- <-]. norm. apply strikes_hd in Hf1. split; intros; lia. }
  destruct (Z.leb_spec (f_pos file) (LONG_MAX dm)) as [Hp1|Hp1]; norm.
  2:{ intros [= <- <- <-]. norm. split; intros; lia. }
  destruct (Z.eqb_spec (f_pos file) (-1)) as [Hm1|Hm1]; norm.
  { intros [= <- <- <-]. norm. split; intros; lia. }
  rewrite fseek_eq. norm.
  destruct (hd NoFault (tail (faults w))) eqn:Hf2; norm.
  2:{ intros [= <- <- <-]. norm. apply strikes_hd in Hf2. split; intros; lia. }
  rewrite Z.add_0_r.
  destruct (Z.leb_spec 0 (zlength (file_bytes file (files w)))) as [_|Hneg];
    [|lia].
  norm. rewrite ftell_eq. norm.
  destruct (hd NoFault (tail (tail (faults w)))) eqn:Hf3; norm.
  2:{ intros [= <- <- <-]. norm. apply strikes_hd in Hf3. split; intros; lia. }
  destruct (Z.leb_spec (zlength (file_bytes file (files w))) (LONG_MAX dm))
    as [Hlen|Hlen]; norm.
  2:{ intros [= <- <- <-]. norm. split; intros; lia. }
  destruct (Z.eqb_spec (zlength (file_bytes file (files w))) (-1)) as [|_];
    [lia|].
  norm. rewrite fseek_eq. norm.
  destruct (hd NoFault (tail (tail (tail (faults w))))) eqn:Hf4; norm.
  2:{ intros [= <- <- <-]. norm. apply strikes_hd in Hf4. split; intros; lia. }
  destruct (Z.leb_spec 0 (f_pos file)) as [Hp0|Hp0]; norm.
  2:{ intros [= <- <- <-]. norm. split; intros; lia. }
  intros [= <- <- <-]. norm. split; [lia|].
  rewrite to_size_t_small by lia. lia.
Qed.

(** The rules on a source that fits fail on a fault and on nothing else. *)
Lemma append_and_pad_strikes dm infile infilename outfile outfilename
    target_size w r source_size infile' outfile' w' :
  f_file infile <> f_file outfile -> f_pos infile = 0 ->
  zlength (file_bytes infile (files w)) <= LONG_MAX dm ->
  zlength (file_bytes infile (files w)) <= target_size <= SIZE_ERROR dm ->
  append_and_pad dm infile infilename outfile outfilename target_size w
    = ((r, source_size, infile', outfile'), w') ->
  (strikes (faults w') <= strikes (faults w))%nat
  /\ (r = 0 -> (strikes (faults w') < strikes (faults w))%nat).
Proof.
  intros Hpaths Hposi Hlong Hfit Hrun.
  pose proof (zlength_nonneg (file_bytes infile (files w))) as Hnn.
  pose proof (SIZE_ERROR_LONG_MAX dm) as Hmax.
  pose proof (LONG_MAX_ge dm) as Hlmax.
  unfold append_and_pad, bind in Hrun.
  destruct (get_file_size dm infile infilename w) as [[s infile1] w1] eqn:Hprobe.
  pose proof (get_file_size_strikes _ _ _ _ _ _ _ Hprobe) as [Hle1 Hlt1].
  apply get_file_size_cases in Hprobe
    as (Hfiles1 & _ & _ & _ & _ & _ & Hcase1).
  destruct Hcase1 as [[-> _] | (-> & _ & -> & _ & _)].
  { rewrite Z.eqb_refl in Hrun. injection Hrun as <- <- <- <- <-.
    split; [done|]. intros _. apply Hlt1; [done|lia|done]. }
  revert Hrun.
  destruct (Z.eqb_spec (zlength (file_bytes infile (files w))) (SIZE_ERROR dm))
    as [|_]; [lia|].
  destruct (Z.ltb_spec target_size (zlength (file_bytes infile (files w))))
    as [|_]; [lia|].
  intros Hrun.
  destruct (copy_stream dm infile infilename outfile outfilename
              (zlength (file_bytes infile (files w))) w1)
    as [[[rc infile2] outfile2] w2] eqn:Hcopy.
  pose proof (copy_stream_effect _ _ _ _ _ _ _ _ _ _ _ Hcopy)
    as (_ & _ & _ & _ & Hcase2).
  unfold copy_stream in Hcopy.
  apply copy_stream_loop_strikes in Hcopy; try done; try lia.
  2:{ rewrite Hfiles1. lia. }
  destruct Hcopy as [Hle2 Hlt2].
  destruct Hcase2 as [[-> _] | [-> _]]; norm_in Hrun.
  2:{ injection Hrun as <- <- <- <- <-. split; [lia|].
      intros _. specialize (Hlt2 eq_refl). lia. }
  destruct (write_byte_block dm outfile2 outfilename x00 _ w2)
    as [[rp outfile3] w3] eqn:Hpad.
  pose proof (write_byte_block_effect _ _ _ _ _ _ _ _ _ Hpad)
    as (_ & _ & _ & Hcase3).
  apply write_byte_block_strikes in Hpad; [|apply to_size_t_range].
  destruct Hpad as [Hle3 Hlt3].
  destruct Hcase3 as [[-> _] | [-> _]]; norm_in Hrun;
    injection Hrun as <- <- <- <- <-; (split; [lia|]); [done|].
  intros _. specialize (Hlt3 eq_refl). lia.
Qed.

Lemma cmd_strikes dm op target_size infile infilename outfile outfilename
    w r infile' outfile' w' :
  f_file infile <> f_file outfile -> f_pos infile = 0 ->
  zlength (file_bytes infile (files w)) <= LONG_MAX dm ->
  zlength (file_bytes infile (files w))
    <= match op with
       | CMD_PAD => target_size
       | CMD_PAK3 => 256 * 1024
       | CMD_STC => 128 * 1024
       | CMD_NONE => 0
       end ->
  target_size <= SIZE_ERROR dm ->
  match op with
  | CMD_PAD => cmd_pad dm infile infilename outfile outfilename target_size
  | CMD_PAK3 => cmd_pak3 dm infile infilename outfile outfilename
  | CMD_STC => cmd_stc dm infile infilename outfile outfilename
  | CMD_NONE => ret (1, infile, outfile)
  end w = ((r, infile', outfile'), w') ->
  (strikes (faults w') <= strikes (faults w))%nat
  /\ (r = 0 -> (strikes (faults w') < strikes (faults w))%nat).
Proof.
  intros Hpaths Hposi Hlong Hfit Hsize Hrun.
  pose proof (zlength_nonneg (file_bytes infile (files w))) as Hnn.
  pose proof (SIZE_ERROR_LONG_MAX dm) as Hmax.
  pose proof (LONG_MAX_ge dm) as Hlmax.
  destruct op.
  - injection Hrun as <- <- <- <-. split; [lia|done].
  - unfold cmd_pad, bind in Hrun. norm_in Hrun.
    lazymatch type of Hrun with
    | context [append_and_pad dm ?i ?n ?o ?m ?t ?w0] =>
        destruct (append_and_pad dm i n o m t w0)
          as [[[[ra s] infile1] outfile1] w1] eqn:Happend
    end.
    pose proof (append_and_pad_spec _ _ _ _ _ _ _ _ _ _ _ _ Happend)
      as (_ & _ & _ & _ & Hcase).
    apply append_and_pad_strikes in Happend; norm; try done; try lia.
    destruct Happend as [Hle Hlt]. norm_in Hle. norm_in Hlt.
    destruct Hcase as [[-> _] | [-> _]]; norm_in Hrun;
      injection Hrun as <- <- <- <-; norm; auto.
  - unfold cmd_pak3, bind in Hrun. norm_in Hrun.
    lazymatch type of Hrun with
    | context [get_file_size dm ?i ?n ?w0] =>
        destruct (get_file_size dm i n w0) as [[s infile1] w1] eqn:Hprobe
    end.
    pose proof (get_file_size_strikes _ _ _ _ _ _ _ Hprobe) as [Hle1 Hlt1].
    apply get_file_size_cases in Hprobe
      as (Hfiles1 & _ & _ & _ & _ & _ & Hcase1).
    norm_in Hfiles1. norm_in Hcase1. norm_in Hle1. norm_in Hlt1.
    destruct Hcase1 as [[-> _] | (-> & _ & -> & _ & _)].
    { rewrite Z.eqb_refl in Hrun. injection Hrun as <- <- <- <-.
      split; [done|]. intros _. apply Hlt1; [done|lia|done]. }
    revert Hrun.
    destruct (Z.eqb_spec (zlength (file_bytes infile (files w))) (SIZE_ERROR dm))
      as [|_]; [lia|].
    destruct (Z.ltb_spec (256 * 1024) (zlength (file_bytes infile (files w))))
      as [|_]; [lia|].
    intros Hrun.
    destruct (append_and_pad dm infile infilename outfile outfilename
                (512 * 1024) w1)
      as [[[[ra s] infile2] outfile2] w2] eqn:Happend.
    pose proof (append_and_pad_spec _ _ _ _ _ _ _ _ _ _ _ _ Happend)
      as (_ & _ & _ & _ & Hcase2).
    apply append_and_pad_strikes in Happend; rewrite ?Hfiles1; try done;
      try lia.
    destruct Happend as [Hle2 Hlt2].
    destruct Hcase2 as [[-> _] | [-> _]]; norm_in Hrun.
    { injection Hrun as <- <- <- <-. split; [lia|].
      intros _. specialize (Hlt2 eq_refl). lia. }
    destruct (fseek outfile2 262192 SEEK_SET w2) as [[err outfile3] w3] eqn:Hseek.
    apply fseek_strikes in Hseek as [Hle3 Hlt3].
    revert Hrun. destruct (Z.eqb_spec err 0) as [->|Hfail]; norm; intros Hrun.
    2:{ injection Hrun as <- <- <- <-. norm. split; [lia|].
        intros _. specialize (Hlt3 Hfail ltac:(lia)). lia. }
    destruct (fwrite jmp_instr outfile3 w3) as [[written outfile4] w4] eqn:Hwrite.
    apply fwrite_strikes in Hwrite as [Hle4 Hlt4].
    revert Hrun.
    destruct (Z.eqb_spec written (zlength jmp_instr)) as [->|Hshort]; norm;
      intros Hrun; injection Hrun as <- <- <- <-; norm; (split; [lia|]);
      [done|].
    intros _. specialize (Hlt4 Hshort). lia.
  - unfold cmd_stc, bind in Hrun. norm_in Hrun.
    lazymatch type of Hrun with
    | context [get_file_size dm ?i ?n ?w0] =>
        destruct (get_file_size dm i n w0) as [[s infile1] w1] eqn:Hprobe
    end.
    pose proof (get_file_size_strikes _ _ _ _ _ _ _ Hprobe) as [Hle1 Hlt1].
    apply get_file_size_cases in Hprobe
      as (Hfiles1 & _ & _ & _ & _ & _ & Hcase1).
    norm_in Hfiles1. norm_in Hcase1. norm_in Hle1. norm_in Hlt1.
    destruct Hcase1 as [[-> _] | (-> & _ & -> & _ & _)].
    { rewrite Z.eqb_refl in Hrun. injection Hrun as <- <- <- <-.
      split; [done|]. intros _. apply Hlt1; [done|lia|done]. }
    revert Hrun.
    destruct (Z.eqb_spec (zlength (file_bytes infile (files w))) (SIZE_ERROR dm))
      as [|_]; [lia|].
    destruct (Z.ltb_spec (128 * 1024) (zlength (file_bytes infile (files w))))
      as [|_]; [lia|].
    intros Hrun.
    destruct (write_byte_block dm outfile outfilename x00 4 w1)
      as [[rh outfile2] w2] eqn:Hhead.
    pose proof (write_byte_block_effect _ _ _ _ _ _ _ _ _ Hhead)
      as (Hpatho2 & (Hframe2 & _) & _ & Hcase2).
    apply write_byte_block_strikes in Hhead; [|lia].
    destruct Hhead as [Hle2 Hlt2].
    destruct Hcase2 as [[-> _] | [-> _]]; norm_in Hrun.
    2:{ injection Hrun as <- <- <- <-. split; [lia|].
        intros _. specialize (Hlt2 eq_refl). lia. }
    destruct (copy_stream dm infile infilename outfile2 outfilename
                (zlength (file_bytes infile (files w))) w2)
      as [[[rc infile3] outfile3] w3] eqn:Hcopy.
    pose proof (copy_stream_effect _ _ _ _ _ _ _ _ _ _ _ Hcopy)
      as (_ & _ & _ & _ & Hcase3).
    unfold copy_stream in Hcopy.
    apply copy_stream_loop_strikes in Hcopy; try done; try lia;
      try congruence.
    2:{ rewrite (file_bytes_frame infile infile (files w) (files w2));
          [lia|done|]. rewrite Hframe2 by done. by rewrite Hfiles1. }
    destruct Hcopy as [Hle3 Hlt3].
    destruct Hcase3 as [[-> _] | [-> _]]; norm_in Hrun.
    2:{ injection Hrun as <- <- <- <-. split; [lia|].
        intros _. specialize (Hlt3 eq_refl). lia. }
    destruct (write_byte_block dm outfile3 outfilename x00 _ w3)
      as [[rp outfile4] w4] eqn:Hpad.
    pose proof (write_byte_block_effect _ _ _ _ _ _ _ _ _ Hpad)
      as (_ & _ & _ & Hcase4).
    apply write_byte_block_strikes in Hpad; [|apply to_size_t_range].
    destruct Hpad as [Hle4 Hlt4].
    destruct Hcase4 as [[-> _] | [-> _]]; norm_in Hrun;
      injection Hrun as <- <- <- <-; norm; (split; [lia|]); [done|].
    intros _. specialize (Hlt4 eq_refl). lia.
Qed.

(** What a rule that returns 1 has left in a destination that was empty. *)
Lemma cmd_image dm op target_size infile infilename outfile outfilename
    w infile' outfile' w' :
  f_file infile <> f_file outfile -> f_pos infile = 0 -> f_pos outfile = 0 ->
  files w !! f_file outfile = Some [] ->
  target_size <= SIZE_ERROR dm ->
  match op with
  | CMD_PAD => cmd_pad dm infile infilename outfile outfilename target_size
  | CMD_PAK3 => cmd_pak3 dm infile infilename outfile outfilename
  | CMD_STC => cmd_stc dm infile infilename outfile outfilename
  | CMD_NONE => ret (1, infile, outfile)
  end w = ((1, infile', outfile'), w') ->
  let data := file_bytes infile (files w) in
  files w' !! f_file outfile
  = Some match op with
         | CMD_PAD =>
             data ++ replicate (Z.to_nat (target_size - zlength data)) x00
         | CMD_PAK3 =>
             data ++ replicate (Z.to_nat (0x40030 - zlength data)) x00
             ++ jmp_instr ++ replicate (Z.to_nat (512 * 1024 - 0x40036)) x00
         | CMD_STC =>
             replicate 4 x00 ++ data
             ++ replicate (Z.to_nat (128 * 1024 - zlength data)) x00
         | CMD_NONE => []
         end.
Proof.
  intros Hpaths Hposi Hposo Hfresh Hsize Hcmd data. subst data.
  assert (Hposo' : 0 <= f_pos outfile) by lia.
  destruct op.
  - by injection Hcmd as _ _ <-.
  - apply cmd_pad_spec in Hcmd
      as (_ & _ & _ & [[[=] _] | (_ & _ & _ & _ & _ & Himage)]).
    rewrite (Himage Hsize (or_introl Hpaths) Hposi Hposo').
    by apply lookup_store_fresh.
  - apply cmd_pak3_spec in Hcmd
      as (_ & _ & _ & [[[=] _] | (_ & _ & Hfit & _ & Himage)]).
    rewrite (Himage (or_introl Hpaths) Hposi Hposo').
    destruct outfile as [p pos e]. cbn [f_pos f_file set_pos] in *. subst pos.
    by apply (pak3_image (Stream p 0 e)).
  - apply cmd_stc_spec in Hcmd
      as (_ & _ & _ & [[[=] _] | (_ & _ & _ & _ & Himage)]).
    rewrite (Himage (or_introl Hpaths) Hposi Hposo').
    by apply lookup_store_fresh.
Qed.

(** [main_run] when one library call at most fails, on a source that fits
    and a destination that is not one more name of the file of the source:
    the destination holds the whole image, or it names no file, or it is
    what it was. *)
Lemma main_run_one_fault dm op target_size src dst data w t w' :
  op <> CMD_NONE ->
  (strikes (faults w) <= 1)%nat ->
  file_of w dst <> file_of w src -> contents w src = Some data ->
  zlength data <= LONG_MAX dm ->
  zlength data
    <= match op with
       | CMD_PAD => target_size
       | CMD_PAK3 => 256 * 1024
       | CMD_STC => 128 * 1024
       | CMD_NONE => 0
       end ->
  target_size <= SIZE_ERROR dm ->
  main_run dm op target_size src dst w = (t, w') ->
  let image :=
    match op with
    | CMD_PAD => data ++ replicate (Z.to_nat (target_size - zlength data)) x00
    | CMD_PAK3 =>
        data ++ replicate (Z.to_nat (0x40030 - zlength data)) x00
        ++ jmp_instr ++ replicate (Z.to_nat (512 * 1024 - 0x40036)) x00
    | CMD_STC =>
        replicate 4 x00 ++ data
        ++ replicate (Z.to_nat (128 * 1024 - zlength data)) x00
    | CMD_NONE => []
    end in
  (t = Exit 0 /\ contents w' dst = Some image)
  \/ (t = Exit 1
      /\ (contents w' dst = None
          \/ contents w' dst = contents w dst
          \/ contents w' dst = Some image)).
Proof.
  intros Hop Hone Hne Hsrc Hlong Hfit Hsize Hrun image.
  apply contents_Some in Hsrc as (file & Hsrc & Hbytes). rewrite Hsrc in Hne.
  pose proof (out_file_other w src dst file Hsrc Hne) as Hother.
  unfold main_run in Hrun. unfold bind at 1 in Hrun.
  destruct (fopen src mode_rb w) as [[f1|] w1] eqn:Hopen1;
    pose proof (fopen_strikes _ _ _ _ _ Hopen1) as [Hle1 _];
    apply fopen_effect in Hopen1 as (_ & _ & _ & Hcanon1 & Hres1).
  2:{ destruct Hres1 as (Hfiles1 & Hdir1 & _). norm_in Hrun.
      injection Hrun as <- <-. unfold contents, file_of. norm.
      rewrite Hfiles1, Hdir1, Hcanon1. auto. }
  destruct Hres1 as (_ & Hinfile & Hsrc1 & Hfiles1 & Hdir1).
  assert (Hfile : f_file f1 = file) by congruence.
  rewrite Hfile in Hinfile. rewrite Hinfile in Hrun.
  clear Hinfile Hsrc1 Hfile f1.
  unfold bind at 1 in Hrun.
  destruct (fopen dst mode_wb w1) as [[outfile|] w2] eqn:Hopen2;
    pose proof (fopen_strikes _ _ _ _ _ Hopen2) as [Hle2 _];
    apply fopen_effect in Hopen2 as (_ & _ & _ & Hcanon2 & Hres2).
  2:{ destruct Hres2 as (Hfiles2 & Hdir2 & _). norm_in Hrun.
      injection Hrun as <- <-. unfold contents, file_of. norm.
      rewrite Hfiles2, Hdir2, Hcanon2, Hfiles1, Hdir1, Hcanon1. auto. }
  assert (Ho : out_file w1 dst = out_file w dst).
  { unfold out_file, new_file, file_of. by rewrite Hfiles1, Hdir1, Hcanon1. }
  rewrite Ho in Hres2. set (o := out_file w dst) in *.
  destruct Hres2 as (_ & -> & Hfiles2 & Hdir2).
  rewrite Hfiles1 in Hfiles2. rewrite Hdir1, Hcanon1 in Hdir2.
  set (infile := Stream file 0 false) in *.
  set (outfile := Stream o 0 false) in *.
  assert (Hdata : file_bytes infile (files w2) = data).
  { rewrite Hfiles2. by apply opened_source. }
  assert (Hfresh : files w2 !! f_file outfile = Some []).
  { cbn [outfile f_file]. by rewrite Hfiles2, lookup_insert_eq. }
  assert (Hcmd : exists r infile' outfile' w3,
            match op with
            | CMD_PAD => cmd_pad dm infile src outfile dst target_size
            | CMD_PAK3 => cmd_pak3 dm infile src outfile dst
            | CMD_STC => cmd_stc dm infile src outfile dst
            | CMD_NONE => ret (1, infile, outfile)
            end w2 = ((r, infile', outfile'), w3)).
  { destruct (match op with
              | CMD_PAD => cmd_pad dm infile src outfile dst target_size
              | CMD_PAK3 => cmd_pak3 dm infile src outfile dst
              | CMD_STC => cmd_stc dm infile src outfile dst
              | CMD_NONE => ret (1, infile, outfile)
              end w2) as [[[r infile'] outfile'] w3]. eauto. }
  destruct Hcmd as (r & infile' & outfile' & w3 & Hcmd).
  pose proof (cmd_effect _ _ _ _ _ _ _ _ _ _ _ _ Hcmd) as [Hsame Hcase].
  pose proof (cmd_dir _ _ _ _ _ _ _ _ _ _ Hcmd) as [Hdir3 Hcanon3].
  rewrite Hdir2 in Hdir3.
  assert (Hcanon : canon w3 = canon w) by congruence.
  assert (Hdst3 : file_of w3 dst = Some o).
  { unfold file_of. by rewrite Hcanon, Hdir3, lookup_insert_eq. }
  assert (Hspent :
    (strikes (faults w3) <= strikes (faults w2))%nat
    /\ (r = 0 -> (strikes (faults w3) < strikes (faults w2))%nat)).
  { apply (cmd_strikes dm op target_size infile src outfile dst w2 r
             infile' outfile' w3); rewrite ?Hdata; done. }
  destruct Hspent as [Hle3 Hlt3].
  assert (Hrest :
    (let finish : Z * FILE * FILE -> M termination :=
       fun '(r, infile, outfile) =>
       if r =? 0
       then exec fclose outfile ;; exec remove dst ;; ret (Exit 1)
       else
         do err <- fclose outfile ;;
         if negb (err =? 0)
         then exec remove dst ;; exec report_errno dst ;; ret (Exit 1)
         else
           do err <- fclose infile ;;
           if negb (err =? 0)
           then exec report_errno src ;; ret (Exit 1)
           else ret (Exit 0) in
     finish (r, infile', outfile') w3) = (t, w')).
  { destruct op; [done| | |]; unfold bind at 1 in Hrun;
      rewrite Hcmd in Hrun; exact Hrun. }
  clear Hrun. cbv zeta beta iota in Hrest.
  assert (Hgone : forall w5,
            dir w5 = delete (canon w3 dst) (dir w3) -> canon w5 = canon w3 ->
            contents w5 dst = None).
  { intros w5 Hdir5 Hcanon5. apply contents_None. unfold file_of.
    by rewrite Hcanon5, Hdir5, lookup_delete_eq. }
  destruct Hcase as [(-> & _) | (-> & _)].
  - specialize (Hlt3 eq_refl).
    change (0 =? 0) with true in Hrest. cbv iota in Hrest.
    unfold bind in Hrest.
    destruct (fclose outfile' w3) as [e1 w4] eqn:Hclose.
    pose proof (fclose_strikes _ _ _ _ Hclose) as [Hle4 _].
    apply fclose_effect in Hclose as ->.
    destruct (remove_calm dst (set_faults (tail (faults w3)) w3))
      as (w5 & Hremove & Hdir5 & Hcanon5 & _);
      [norm_in Hle4; norm; lia|by exists o|].
    rewrite Hremove in Hrest. injection Hrest as <- <-.
    right. split; [done|]. left. by apply Hgone.
  - assert (Himage : contents w3 dst = Some image).
    { apply contents_Some. exists o. split; [done|].
      pose proof (cmd_image dm op target_size infile src outfile dst w2
                    infile' outfile' w3 Hother eq_refl eq_refl Hfresh Hsize
                    Hcmd) as Himg.
      cbv zeta in Himg. cbn [outfile f_file] in Himg.
      by rewrite Himg, Hdata. }
    change (1 =? 0) with false in Hrest. cbv iota in Hrest.
    unfold bind in Hrest.
    destruct (fclose outfile' w3) as [e1 w4] eqn:Hclose.
    pose proof (fclose_strikes _ _ _ _ Hclose) as [Hle4 Hlt4].
    apply fclose_effect in Hclose as ->.
    revert Hrest. destruct (Z.eqb_spec e1 0) as [->|Hfail]; cbn [negb];
      intros Hrest.
    2:{ specialize (Hlt4 Hfail).
        destruct (remove_calm dst (set_faults (tail (faults w3)) w3))
          as (w5 & Hremove & Hdir5 & Hcanon5 & _);
          [norm_in Hlt4; norm; lia|by exists o|].
        rewrite Hremove in Hrest. norm_in Hrest. injection Hrest as <- <-.
        right. split; [done|]. left.
        change (contents (set_stderr ?e w5) dst) with (contents w5 dst).
        by apply Hgone. }
    destruct (fclose infile' _) as [e2 w5] eqn:Hclose.
    apply fclose_effect in Hclose as ->.
    destruct (negb (e2 =? 0)); norm_in Hrest; injection Hrest as <- <-;
      [right; split; [done|]; right; right|left; split; [done|]];
      exact Himage.
Qed.

(** X15.  One failing library call never leaves a partial image.  When
    one call at most is to fail, the source fits, its size fits the [long]
    of [ftell], and the destination is not one more name of the file of the
    source, each command ends in one of these ways: with status 0 and the
    whole image in the destination; or with status 1 and a destination
    that names no file, or is what it was before the run, or holds the
    whole image. *)
Theorem main_one_fault dm argv0 size src dst data w :
  (strikes (faults w) <= 1)%nat ->
  file_of w dst <> file_of w src -> contents w src = Some data ->
  zlength data <= LONG_MAX dm ->
  let whole (image : list byte) (run : termination * world) :=
    (fst run = Exit 0 /\ contents (snd run) dst = Some image)
    \/ (fst run = Exit 1
        /\ (contents (snd run) dst = None
            \/ contents (snd run) dst = contents w dst
            \/ contents (snd run) dst = Some image)) in
  (let target_size := fst (get_size_value dm size w) in
   target_size <> SIZE_ERROR dm -> zlength data <= target_size ->
   whole (data ++ replicate (Z.to_nat (target_size - zlength data)) x00)
     (main dm [argv0; "pad"%string; size; src; dst] w))
  /\ (zlength data <= 128 * 1024 ->
      whole (replicate 4 x00 ++ data
             ++ replicate (Z.to_nat (128 * 1024 - zlength data)) x00)
        (main dm [argv0; "stc"%string; src; dst] w))
  /\ (zlength data <= 256 * 1024 ->
      whole (data ++ replicate (Z.to_nat (0x40030 - zlength data)) x00
             ++ [x4e; xf9; x00; xe0; x00; x00]
             ++ replicate (Z.to_nat (512 * 1024 - 0x40036)) x00)
        (main dm [argv0; "pak3"%string; src; dst] w)).
Proof.
  intros Hone Hne Hsrc Hlong whole.
  pose proof (to_size_t_range dm (-1)) as Hrange.
  fold (SIZE_ERROR dm) in Hrange.
  assert (Hrun : forall op target_size,
            op <> CMD_NONE -> target_size <= SIZE_ERROR dm ->
            zlength data
              <= match op with
                 | CMD_PAD => target_size
                 | CMD_PAK3 => 256 * 1024
                 | CMD_STC => 128 * 1024
                 | CMD_NONE => 0
                 end ->
            whole
              match op with
              | CMD_PAD =>
                  data ++ replicate (Z.to_nat (target_size - zlength data)) x00
              | CMD_PAK3 =>
                  data ++ replicate (Z.to_nat (0x40030 - zlength data)) x00
                  ++ jmp_instr
                  ++ replicate (Z.to_nat (512 * 1024 - 0x40036)) x00
              | CMD_STC =>
                  replicate 4 x00 ++ data
                  ++ replicate (Z.to_nat (128 * 1024 - zlength data)) x00
              | CMD_NONE => []
              end
              (main_run dm op target_size src dst (set_g_argv0 argv0 w))).
  { intros op target_size Hop Hsize Hfit.
    destruct (main_run dm op target_size src dst (set_g_argv0 argv0 w))
      as [t w'] eqn:Hrun.
    by apply (main_run_one_fault dm op target_size src dst data) in Hrun. }
  split; [|split].
  - intros target_size Hvalid Hfit.
    assert (Hsize : 0 <= target_size <= SIZE_ERROR dm).
    { subst target_size.
      destruct (get_size_value dm size w) as [t w1] eqn:Hsize.
      by apply get_size_value_effect in Hsize as [? _]. }
    rewrite (main_pad dm argv0 size src dst target_size w);
      [|by apply get_size_value_valid|done].
    apply (Hrun CMD_PAD target_size); [done|lia|done].
  - intros Hfit. rewrite main_stc. apply (Hrun CMD_STC 0); [done|lia|done].
  - intros Hfit. rewrite main_pak3. apply (Hrun CMD_PAK3 0); [done|lia|done].
Qed.

(** * asm.h *)

(** ** [swpcopyw] *)

Lemma poke_eq a b m : poke a b m a = b.
Proof. unfold poke. by rewrite Z.eqb_refl. Qed.

Lemma poke_ne a b m x : x <> a -> poke a b m x = m x.
Proof. unfold poke. by destruct (Z.eqb_spec x a). Qed.

Lemma byte_to_Z_range (b : byte) : 0 <= Z.of_N (Byte.to_N b) < 256.
Proof. pose proof (Byte.to_N_bounded b). lia. Qed.

Lemma byte_to_Z_inj (b c : byte) :
  Z.of_N (Byte.to_N b) = Z.of_N (Byte.to_N c) -> b = c.
Proof.
  intros Heq. apply N2Z.inj in Heq.
  pose proof (Byte.of_to_N b) as Hb. rewrite Heq, Byte.of_to_N in Hb.
  by injection Hb.
Qed.

Lemma swpw_word w :
  0 <= w < 2 ^ 16 -> swpw w = (w mod 256) * 256 + w / 256.
Proof.
  intros Hw. unfold swpw, ror_w, rotate_right.
  change (2 ^ 16) with 65536 in *. change (2 ^ 8) with 256.
  change (2 ^ (16 - 8)) with 256.
  rewrite (Z.div_small w 65536), (Z.mod_small w 65536) by lia. lia.
Qed.

Lemma word_at_range m a : 0 <= word_at m a < 2 ^ 16.
Proof.
  unfold word_at. pose proof (byte_to_Z_range (m a)).
  pose proof (byte_to_Z_range (m (a + 1))). lia.
Qed.

Lemma swpw_word_at m a :
  swpw (word_at m a)
  = Z.of_N (Byte.to_N (m (a + 1))) * 256 + Z.of_N (Byte.to_N (m a)).
Proof.
  rewrite swpw_word by apply word_at_range. unfold word_at.
  pose proof (byte_to_Z_range (m a)) as Hhi.
  pose proof (byte_to_Z_range (m (a + 1))) as Hlo.
  set (hi := Z.of_N (Byte.to_N (m a))) in *.
  set (lo := Z.of_N (Byte.to_N (m (a + 1)))) in *.
  replace (hi * 256 + lo) with (lo + hi * 256) by lia.
  rewrite Z.mod_add, Z.div_add by lia.
  rewrite Z.mod_small, Z.div_small by lia. lia.
Qed.

(** X16.  [swpcopyw] between two addresses that differ: the destination
    holds the two bytes of the source in the other order, so that the word
    read there is what [swpw] makes of the word of the source; no other
    byte of the memory changes; and a second call, from the destination
    back to the source, gives the source the bytes it had.  The two words
    may overlap. *)
Theorem swpcopyw_swaps src dest m :
  src <> dest ->
  let m' := swpcopyw src dest m in
  m' dest = m (src + 1) /\ m' (dest + 1) = m src
  /\ (forall a, a <> dest -> a <> dest + 1 -> m' a = m a)
  /\ word_at m' dest = swpw (word_at m src)
  /\ (let m'' := swpcopyw dest src m' in
      m'' src = m src /\ m'' (src + 1) = m (src + 1)).
Proof.
  intros Hne m'.
  assert (H0 : m' dest = m (src + 1)).
  { subst m'. unfold swpcopyw. cbv zeta. rewrite !Z.add_0_r.
    rewrite poke_ne by lia. apply poke_eq. }
  assert (H1 : m' (dest + 1) = m src).
  { subst m'. unfold swpcopyw. cbv zeta. rewrite !Z.add_0_r.
    rewrite poke_eq. by apply poke_ne. }
  split; [done|]. split; [done|]. split; [|split].
  - intros a Ha Ha'. subst m'. unfold swpcopyw. cbv zeta.
    rewrite !Z.add_0_r. by rewrite !poke_ne.
  - rewrite swpw_word_at. unfold word_at. by rewrite H0, H1.
  - cbv zeta. unfold swpcopyw. cbv zeta. rewrite !Z.add_0_r. split.
    + rewrite poke_ne by lia. by rewrite poke_eq.
    + rewrite poke_eq. rewrite poke_ne by done. done.
Qed.

(** X17.  [swpcopyw] from a word to itself does not swap: the first
    assignment overwrites the byte that the second one copies, and both
    bytes end up as the second byte was.  The word read there is not what
    [swpw] makes of the word, unless its two bytes are equal. *)
Theorem swpcopyw_in_place a m :
  let m' := swpcopyw a a m in
  m' a = m (a + 1) /\ m' (a + 1) = m (a + 1)
  /\ (forall x, x <> a -> x <> a + 1 -> m' x = m x)
  /\ (word_at m' a = swpw (word_at m a) <-> m a = m (a + 1)).
Proof.
  intros m'.
  assert (H0 : m' a = m (a + 1)).
  { subst m'. unfold swpcopyw. cbv zeta. rewrite !Z.add_0_r.
    rewrite poke_ne by lia. apply poke_eq. }
  assert (H1 : m' (a + 1) = m (a + 1)).
  { subst m'. unfold swpcopyw. cbv zeta. rewrite !Z.add_0_r.
    by rewrite !poke_eq. }
  split; [done|]. split; [done|]. split.
  - intros x Hx Hx'. subst m'. unfold swpcopyw. cbv zeta.
    rewrite !Z.add_0_r. by rewrite !poke_ne.
  - rewrite swpw_word_at. unfold word_at. rewrite H0, H1. split.
    + intros Heq. symmetry. apply byte_to_Z_inj. lia.
    + by intros ->.
Qed.

(** ** The byte swaps *)

Lemma of_bytes_range A B C D :
  is_byte A -> is_byte B -> is_byte C -> is_byte D ->
  0 <= of_bytes A B C D < 2 ^ 32.
Proof. unfold is_byte, of_bytes. change (2 ^ 32) with 4294967296. lia. Qed.

Lemma ror_w_bytes A B C D :
  is_byte A -> is_byte B -> is_byte C -> is_byte D ->
  ror_w 8 (of_bytes A B C D) = of_bytes A B D C.
Proof.
  unfold is_byte, of_bytes, ror_w, rotate_right. intros HA HB HC HD.
  change (2 ^ 16) with 65536. change (2 ^ 8) with 256.
  change (2 ^ (16 - 8)) with 256.
  replace (((A * 256 + B) * 256 + C) * 256 + D)
    with ((C * 256 + D) + (A * 256 + B) * 65536) by lia.
  rewrite Z.div_add, Z.mod_add by lia.
  rewrite (Z.div_small (C * 256 + D)), (Z.mod_small (C * 256 + D)) by lia.
  replace (C * 256 + D) with (D + C * 256) by lia.
  rewrite Z.div_add, Z.mod_add by lia.
  rewrite (Z.div_small D), (Z.mod_small D) by lia. lia.
Qed.

Lemma swap_bytes A B C D :
  is_byte A -> is_byte B -> is_byte C -> is_byte D ->
  swap (of_bytes A B C D) = of_bytes C D A B.
Proof.
  unfold is_byte, of_bytes, swap. intros HA HB HC HD.
  change (2 ^ 16) with 65536.
  replace (((A * 256 + B) * 256 + C) * 256 + D)
    with ((C * 256 + D) + (A * 256 + B) * 65536) by lia.
  rewrite Z.div_add, Z.mod_add by lia.
  rewrite (Z.div_small (C * 256 + D)), (Z.mod_small (C * 256 + D)) by lia.
  lia.
Qed.

(** X18.  The three byte swaps do to the bytes of a register what the
    header says: [swpl] turns ABCD into DCBA, [swpw2] turns it into BADC,
    and [swpw] swaps the two bytes of the low-order word and leaves the
    high-order word alone.  Each of them undoes itself. *)
Theorem byte_swaps A B C D :
  is_byte A -> is_byte B -> is_byte C -> is_byte D ->
  let a := of_bytes A B C D in
  swpl a = of_bytes D C B A
  /\ swpw2 a = of_bytes B A D C
  /\ swpw a = of_bytes A B D C
  /\ swpl (swpl a) = a /\ swpw2 (swpw2 a) = a /\ swpw (swpw a) = a.
Proof.
  intros HA HB HC HD a. subst a. unfold swpl, swpw2, swpw.
  by rewrite ?ror_w_bytes, ?swap_bytes, ?ror_w_bytes, ?swap_bytes,
    ?ror_w_bytes, ?swap_bytes, ?ror_w_bytes, ?swap_bytes.
Qed.

(** ** The rotations *)

Section Rotations.

Variables bits n : Z.
Hypothesis Hn : 0 <= n <= bits.

Lemma rotate_split : 2 ^ (bits - n) * 2 ^ n = 2 ^ bits.
Proof. rewrite <- Z.pow_add_r by lia. f_equal. lia. Qed.

Lemma rotate_left_range x :
  0 <= x < 2 ^ bits -> 0 <= rotate_left bits n x < 2 ^ bits.
Proof.
  intros Hx. unfold rotate_left. pose proof rotate_split as Hsplit.
  assert (HP : 0 < 2 ^ (bits - n)) by (apply Z.pow_pos_nonneg; lia).
  assert (HQ : 0 < 2 ^ n) by (apply Z.pow_pos_nonneg; lia).
  pose proof (Z.mod_pos_bound x (2 ^ (bits - n)) HP) as Hr.
  assert (Hq : 0 <= x / 2 ^ (bits - n) < 2 ^ n).
  { split; [apply Z.div_pos; lia|].
    apply Z.div_lt_upper_bound; [done|]. lia. }
  nia.
Qed.

Lemma rotate_right_range x :
  0 <= x < 2 ^ bits -> 0 <= rotate_right bits n x < 2 ^ bits.
Proof.
  intros Hx. unfold rotate_right. pose proof rotate_split as Hsplit.
  assert (HP : 0 < 2 ^ (bits - n)) by (apply Z.pow_pos_nonneg; lia).
  assert (HQ : 0 < 2 ^ n) by (apply Z.pow_pos_nonneg; lia).
  pose proof (Z.mod_pos_bound x (2 ^ n) HQ) as Hr.
  assert (Hq : 0 <= x / 2 ^ n < 2 ^ (bits - n)).
  { split; [apply Z.div_pos; lia|].
    apply Z.div_lt_upper_bound; [done|]. lia. }
  nia.
Qed.

Lemma rotate_right_left x :
  0 <= x < 2 ^ bits -> rotate_right bits n (rotate_left bits n x) = x.
Proof.
  intros Hx. unfold rotate_left, rotate_right.
  pose proof rotate_split as Hsplit.
  assert (HP : 0 < 2 ^ (bits - n)) by (apply Z.pow_pos_nonneg; lia).
  assert (HQ : 0 < 2 ^ n) by (apply Z.pow_pos_nonneg; lia).
  assert (Hq : 0 <= x / 2 ^ (bits - n) < 2 ^ n).
  { split; [apply Z.div_pos; lia|].
    apply Z.div_lt_upper_bound; [done|]. lia. }
  set (q := x / 2 ^ (bits - n)) in *. set (r := x mod 2 ^ (bits - n)).
  replace (r * 2 ^ n + q) with (q + r * 2 ^ n) by lia.
  rewrite Z.div_add, Z.mod_add by lia.
  rewrite Z.div_small, Z.mod_small by lia.
  pose proof (Z.div_mod x (2 ^ (bits - n)) ltac:(lia)) as Hx'.
  fold q in Hx'. fold r in Hx'. lia.
Qed.

Lemma rotate_left_right x :
  0 <= x < 2 ^ bits -> rotate_left bits n (rotate_right bits n x) = x.
Proof.
  intros Hx. unfold rotate_left, rotate_right.
  pose proof rotate_split as Hsplit.
  assert (HP : 0 < 2 ^ (bits - n)) by (apply Z.pow_pos_nonneg; lia).
  assert (HQ : 0 < 2 ^ n) by (apply Z.pow_pos_nonneg; lia).
  assert (Hq : 0 <= x / 2 ^ n < 2 ^ (bits - n)).
  { split; [apply Z.div_pos; lia|].
    apply Z.div_lt_upper_bound; [done|]. lia. }
  set (q := x / 2 ^ n) in *. set (r := x mod 2 ^ n).
  rewrite Z.div_add, Z.mod_add by lia.
  rewrite Z.div_small, Z.mod_small by lia.
  pose proof (Z.div_mod x (2 ^ n) ltac:(lia)) as Hx'.
  fold q in Hx'. fold r in Hx'. lia.
Qed.

End Rotations.

Lemma word_parts d hi lo :
  0 <= lo < 2 ^ 16 -> d = hi * 2 ^ 16 + lo ->
  d / 2 ^ 16 = hi /\ d mod 2 ^ 16 = lo.
Proof.
  intros Hlo ->. change (2 ^ 16) with 65536 in *.
  replace (hi * 65536 + lo) with (lo + hi * 65536) by lia.
  rewrite Z.div_add, Z.mod_add by lia.
  rewrite Z.div_small, Z.mod_small by lia. lia.
Qed.

(** X19.  The rotations undo each other: [rorw1] undoes [rolw1] and
    [rolw1] undoes [rorw1], both leaving the high-order word of the
    register alone, and for a count from 1 to 8 [rorl] undoes [roll] and
    [roll] undoes [rorl]. *)
Theorem rotations_undo x :
  0 <= x < 2 ^ 32 ->
  rorw1 (rolw1 x) = x /\ rolw1 (rorw1 x) = x
  /\ rolw1 x / 2 ^ 16 = x / 2 ^ 16 /\ rorw1 x / 2 ^ 16 = x / 2 ^ 16
  /\ (forall n, 1 <= n <= 8 ->
      rorl (roll x n) n = x /\ roll (rorl x n) n = x
      /\ 0 <= roll x n < 2 ^ 32 /\ 0 <= rorl x n < 2 ^ 32).
Proof.
  intros Hx. unfold rorw1, rolw1, rorl, roll, ror_w, rol_w, ror_l, rol_l.
  assert (Hlo : 0 <= x mod 2 ^ 16 < 2 ^ 16) by (apply Z.mod_pos_bound; lia).
  pose proof (rotate_left_range 16 1 ltac:(lia) _ Hlo) as Hleft.
  pose proof (rotate_right_range 16 1 ltac:(lia) _ Hlo) as Hright.
  destruct (word_parts _ (x / 2 ^ 16) _ Hleft eq_refl) as [Hhl Hll].
  destruct (word_parts _ (x / 2 ^ 16) _ Hright eq_refl) as [Hhr Hlr].
  pose proof (Z.div_mod x (2 ^ 16) ltac:(lia)) as Hparts.
  split; [|split; [|split; [|split]]].
  - rewrite Hhl, Hll, rotate_right_left by (lia || done). lia.
  - rewrite Hhr, Hlr, rotate_left_right by (lia || done). lia.
  - done.
  - done.
  - intros n Hn. split; [|split; [|split]].
    + apply rotate_right_left; lia.
    + apply rotate_left_right; lia.
    + apply rotate_left_range; lia.
    + apply rotate_right_range; lia.
Qed.

(** ** [delay_loop] *)

Lemma subq_l_1 count :
  0 <= count < 2 ^ 32 ->
  subq_l 1 count
  = if count =? 0 then (2 ^ 32 - 1, true) else (count - 1, 2 ^ 31 <=? count - 1).
Proof.
  intros Hcount. unfold subq_l. cbv zeta.
  destruct (Z.eqb_spec count 0) as [->|Hpos]; [done|].
  by rewrite Z.mod_small by lia.
Qed.

Lemma delay_loop_counts rounds :
  forall count turns,
  0 <= count <= 2 ^ 31 -> (Z.to_nat count < rounds)%nat ->
  delay_loop rounds count turns = Some (2 ^ 32 - 1, turns + count + 1).
Proof.
  induction rounds as [|rounds IH]; intros count turns Hcount Hrounds; [lia|].
  cbn [delay_loop]. rewrite subq_l_1 by lia.
  destruct (Z.eqb_spec count 0) as [->|Hpos].
  - do 2 f_equal. lia.
  - destruct (Z.leb_spec (2 ^ 31) (count - 1)) as [|_]; [lia|].
    rewrite IH by lia. do 2 f_equal. lia.
Qed.

(** X20.  [delay_loop] on a count of at most [2^31] goes round the loop
    [count + 1] times and leaves [2^32 - 1] in the register; on a greater
    count, which is negative as a signed number once 1 is taken off, it
    goes round once and no more.  [count + 1] rounds are enough for the
    result, and more rounds do not change it. *)
Theorem delay_loop_turns count rounds :
  0 <= count < 2 ^ 32 ->
  (count <= 2 ^ 31 -> (Z.to_nat count < rounds)%nat ->
   delay_loop rounds count 0 = Some (2 ^ 32 - 1, count + 1))
  /\ (2 ^ 31 < count -> (0 < rounds)%nat ->
      delay_loop rounds count 0 = Some (count - 1, 1)).
Proof.
  intros Hcount. split.
  - intros Hle Hrounds. by rewrite delay_loop_counts by lia.
  - intros Hgt Hrounds. destruct rounds as [|rounds]; [lia|].
    cbn [delay_loop]. rewrite subq_l_1 by lia.
    destruct (Z.eqb_spec count 0) as [|_]; [lia|].
    by destruct (Z.leb_spec (2 ^ 31) (count - 1)) as [_|]; [|lia].
Qed.
(** * The further properties on concrete runs *)

Lemma example_in_bytes' data pos e :
  file_bytes (Stream (f_file example_in) pos e) (files (example_world data))
  = data.
Proof.
  unfold file_bytes, example_world, initial_world. norm.
  by rewrite lookup_insert_eq.
Qed.

Lemma main_never_aborts_witness :
  let w := set_faults [NoFault; NoFault; NoFault; FaultAfter 0]
             (one_file "in.img" [x60; x1a]) in
  let run := main LP64 ["mkrom"; "stc"; "in.img"; "out.img"]%string w in
  fst run = Exit 0 \/ fst run = Exit 1.
Proof. cbv zeta. apply main_never_aborts. discriminate. Defined.

(** The source of a run that fails half way is what it was. *)
Lemma main_only_touches_destination_witness :
  let w := set_faults [NoFault; NoFault; NoFault; FaultAfter 0]
             (one_file "in.img" [x60; x1a]) in
  let w' := snd (main LP64 ["mkrom"; "stc"; "in.img"; "out.img"]%string w) in
  files w' !! 1%nat = files w !! 1%nat
  /\ file_of w' "in.img" = Some 1%nat.
Proof.
  cbv zeta. apply main_only_touches_destination.
  - discriminate.
  - reflexivity.
  - intros dst Hlast. injection Hlast as <-. vm_compute. discriminate.
Defined.

Lemma main_reports_failure_witness :
  let w := one_file "in.img" [x60; x1a] in
  let argv := ["mkrom"; "pad"; "18446744073709551615"; "in.img"; "out.img"]%string in
  let t := Exit 1 in
  let w' := set_g_argv0 "mkrom" w in
  main LP64 argv w = (t, w')
  /\ ((t = Exit 0 /\ stderr w' = stderr w)
      \/ (t = Exit 1 /\ exists m l, stderr w' = stderr w ++ m :: l)
      \/ (t = Exit 1 /\ w' = set_g_argv0 (nth 0 argv EmptyString) w
          /\ zlength argv = 5 /\ nth 1 argv EmptyString = "pad"%string
          /\ fst (get_size_value LP64 (nth 2 argv EmptyString) w)
             = SIZE_ERROR LP64)).
Proof.
  cbv zeta. split; [reflexivity|].
  apply main_reports_failure; [discriminate|reflexivity].
Defined.

Lemma main_usage_witness :
  let w := one_file "in.img" [x60; x1a] in
  exists w',
    main LP64 ["mkrom"; "stc"; "16k"; "in.img"; "out.img"]%string w
    = (Exit 1, w')
    /\ dir w' = dir w /\ files w' = files w /\ opened w' = opened w
    /\ stdout w' = stdout w.
Proof.
  cbv zeta.
  destruct (main_usage LP64 ["mkrom"; "stc"; "16k"; "in.img"; "out.img"]%string
              (one_file "in.img" [x60; x1a]))
    as (w' & Hrun & _ & Hrest).
  - discriminate.
  - intros [_ Hcmd]. discriminate Hcmd.
  - intros [Hargc _]. discriminate Hargc.
  - intros [Hargc _]. discriminate Hargc.
  - exists w'. split; [exact Hrun|exact Hrest].
Defined.

(** No source: the destination that was there is left as it was. *)
Lemma main_missing_source_witness :
  let w := set_faults [FaultAfter 0] (one_file "out.img" [x4e; x71]) in
  let run := main LP64 ["mkrom"; "pak3"; "in.img"; "out.img"]%string w in
  fst run = Exit 1
  /\ stderr (snd run) = stderr w ++ [ErrErrno "mkrom" "in.img"]
  /\ dir (snd run) = dir w /\ files (snd run) = files w.
Proof.
  cbv zeta.
  destruct (main_missing_source LP64 "mkrom" "1k" "in.img" "out.img"
              (set_faults [FaultAfter 0] (one_file "out.img" [x4e; x71])))
    as (_ & (Hstatus & Herr & Hdir & Hfiles & _) & _).
  - reflexivity.
  - split; [exact Hstatus|]. split; [exact Herr|].
    split; [exact Hdir|exact Hfiles].
Defined.

(** A read that brings one byte of the two it was asked for: [pad] reads
    on, and its status 0 stands for the whole image. *)
Lemma main_pad_exit_0_witness :
  let w := set_faults [NoFault; NoFault; NoFault; NoFault; NoFault; NoFault;
                       FaultAfter 1]
             (one_file "in.img" [x60; x1a]) in
  let run := main LP64 ["mkrom"; "pad"; "4"; "in.img"; "out.img"]%string w in
  fst run = Exit 0
  /\ contents (snd run) "out.img" = Some [x60; x1a; x00; x00]
  /\ contents (snd run) "in.img" = Some [x60; x1a].
Proof.
  cbv zeta. split; [reflexivity|].
  destruct (main_pad_exit_0 LP64 "mkrom" "4" "in.img" "out.img"
              (set_faults [NoFault; NoFault; NoFault; NoFault; NoFault; NoFault;
                           FaultAfter 1]
                 (one_file "in.img" [x60; x1a]))
              (snd (main LP64 ["mkrom"; "pad"; "4"; "in.img"; "out.img"]%string
                      (set_faults [NoFault; NoFault; NoFault; NoFault; NoFault;
                                   NoFault; FaultAfter 1]
                         (one_file "in.img" [x60; x1a])))))
    as (data & Hsrc & _ & Hdst & Hkept & _).
  - vm_compute. discriminate.
  - vm_compute. reflexivity.
  - assert (Hdata : data = [x60; x1a]).
    { assert (Hlook : Some data = Some [x60; x1a])
        by (rewrite <- Hsrc; reflexivity).
      injection Hlook as ->. reflexivity. }
    rewrite Hdata in Hdst, Hkept. split; [exact Hdst|exact Hkept].
Defined.
Lemma main_stc_image_witness :
  let w := one_file "in.img" [x60; x1a] in
  let '(t, w') := main LP64 ["mkrom"; "stc"; "in.img"; "out.img"]%string w in
  t = Exit 0
  /\ contents w' "out.img"
     = Some (replicate 4 x00 ++ [x60; x1a]
             ++ replicate (Z.to_nat (128 * 1024 - zlength [x60; x1a])) x00)
  /\ contents w' "in.img" = Some [x60; x1a].
Proof.
  cbv zeta.
  pose proof (main_stc_image LP64 "mkrom" "in.img" "out.img" [x60; x1a]
                (one_file "in.img" [x60; x1a])
                ltac:(vm_compute; discriminate) ltac:(reflexivity)) as Hrun.
  destruct (main LP64 ["mkrom"; "stc"; "in.img"; "out.img"]%string
              (one_file "in.img" [x60; x1a]))
    as [t w'].
  destruct Hrun as (Hgood & Hfree & _).
  assert (Hstatus : t = Exit 0).
  { apply Hfree; [reflexivity|]. unfold zlength. cbn [length]. lia. }
  destruct (Hgood Hstatus) as (_ & Hdst & Hkept & _).
  split; [exact Hstatus|]. split; [exact Hdst|exact Hkept].
Defined.

Lemma main_pak3_image_witness :
  let w := one_file "in.img" [x60; x2e; x00] in
  let '(t, w') := main LP64 ["mkrom"; "pak3"; "in.img"; "out.img"]%string w in
  t = Exit 0
  /\ contents w' "out.img"
     = Some ([x60; x2e; x00]
             ++ replicate (Z.to_nat (0x40030 - zlength [x60; x2e; x00])) x00
             ++ [x4e; xf9; x00; xe0; x00; x00]
             ++ replicate (Z.to_nat (512 * 1024 - 0x40036)) x00).
Proof.
  cbv zeta.
  pose proof (main_pak3_image LP64 "mkrom" "in.img" "out.img" [x60; x2e; x00]
                (one_file "in.img" [x60; x2e; x00])
                ltac:(vm_compute; discriminate) ltac:(reflexivity)) as Hrun.
  destruct (main LP64 ["mkrom"; "pak3"; "in.img"; "out.img"]%string
              (one_file "in.img" [x60; x2e; x00]))
    as [t w'].
  destruct Hrun as (Hgood & Hfree & _).
  assert (Hstatus : t = Exit 0).
  { apply Hfree; [reflexivity|]. unfold zlength. cbn [length]. lia. }
  destruct (Hgood Hstatus) as (_ & Hdst & _).
  split; [exact Hstatus|exact Hdst].
Defined.

(** [pad 4 rom.img ./rom.img], where the destination is the source under
    another spelling, and [stc rom.img link.img], where it is a link to
    the source: status 0, and zeros under both names. *)
Lemma main_in_place_witness :
  let w := linked_world [x60; x1a] in
  (exists w',
     main LP64 ["mkrom"; "pad"; "4"; "rom.img"; "./rom.img"]%string w
     = (Exit 0, w')
     /\ contents w' "rom.img"
        = Some (replicate (Z.to_nat (fst (get_size_value LP64 "4" w))) x00)
     /\ contents w' "./rom.img"
        = Some (replicate (Z.to_nat (fst (get_size_value LP64 "4" w))) x00))
  /\ (exists w',
        main LP64 ["mkrom"; "stc"; "rom.img"; "link.img"]%string w
        = (Exit 0, w')
        /\ contents w' "rom.img"
           = Some (replicate (Z.to_nat (4 + 128 * 1024)) x00)
        /\ contents w' "link.img"
           = Some (replicate (Z.to_nat (4 + 128 * 1024)) x00)).
Proof.
  cbv zeta.
  destruct (main_in_place LP64 "mkrom" "4" "rom.img" "./rom.img" 1%nat
              (linked_world [x60; x1a])
              ltac:(reflexivity) ltac:(reflexivity) ltac:(reflexivity))
    as (Hpad & _).
  destruct (main_in_place LP64 "mkrom" "4" "rom.img" "link.img" 1%nat
              (linked_world [x60; x1a])
              ltac:(reflexivity) ltac:(reflexivity) ltac:(reflexivity))
    as (_ & Hstc & _).
  split; [|exact Hstc]. apply Hpad. discriminate.
Defined.

Lemma copy_stream_copies_witness :
  let w := example_world [x01; x02; x03; x04; x05] in
  let infile := Stream (f_file example_in) 1 false in
  let '(r, infile', outfile', w') :=
    copy_stream LP64 infile "in.img" example_out "out.img" 3 w in
  r = 1
  /\ files w' = store example_out [x02; x03; x04] (files w)
  /\ f_pos infile' = 4 /\ f_pos outfile' = 3.
Proof.
  cbv zeta.
  pose proof (copy_stream_copies LP64 (Stream (f_file example_in) 1 false)
                "in.img" example_out "out.img" 3
                (example_world [x01; x02; x03; x04; x05]))
    as Hrun.
  cbv zeta in Hrun.
  destruct (copy_stream LP64 (Stream (f_file example_in) 1 false) "in.img"
              example_out "out.img" 3 (example_world [x01; x02; x03; x04; x05]))
    as [[[r infile'] outfile'] w'].
  destruct Hrun as (_ & Hgood & Hfree & _).
  - split; [lia|]. apply (size_t_LP64 3). lia.
  - discriminate.
  - cbn [f_pos]. lia.
  - cbn [f_pos example_out]. lia.
  - assert (Hr : r = 1).
    { apply Hfree; [reflexivity|]. rewrite example_in_bytes'.
      unfold zlength. cbn [f_pos length]. lia. }
    destruct (Hgood Hr) as (_ & Hfiles & Hposi & Hposo & _).
    split; [exact Hr|]. split; [|split; [exact Hposi|exact Hposo]].
    rewrite Hfiles, example_in_bytes'. reflexivity.
Defined.

Lemma write_byte_block_short_write_witness :
  let w := set_faults [FaultAfter 2] (example_world []) in
  let '(r, outfile', w') :=
    write_byte_block LP64 example_out "out.img" xff 5 w in
  exists k,
    0 <= k <= 5
    /\ files w' = store example_out (replicate (Z.to_nat k) xff) (files w)
    /\ f_pos outfile' = f_pos example_out + k
    /\ ((r = 1 /\ k = 5 /\ stderr w' = stderr w)
        \/ (r = 0 /\ k < 5
            /\ stderr w' = stderr w ++ [ErrErrno (g_argv0 w) "out.img"]))
    /\ stdout w' = stdout w.
Proof.
  cbv zeta.
  apply (write_byte_block_short_write LP64 example_out "out.img" xff 5
           (set_faults [FaultAfter 2] (example_world []))).
  - split; [lia|]. apply (size_t_LP64 5). lia.
  - cbn [f_pos example_out]. lia.
Defined.

Lemma pad_twice_witness :
  let w := one_file "in.img" [x60; x1a] in
  exists w1 w2 w3,
    main LP64 ["mkrom"; "pad"; "1k"; "in.img"; "mid.img"]%string w
    = (Exit 0, w1)
    /\ main LP64 ["mkrom"; "pad"; "2k"; "mid.img"; "out.img"]%string w1
       = (Exit 0, w2)
    /\ main LP64 ["mkrom"; "pad"; "2k"; "in.img"; "out.img"]%string w
       = (Exit 0, w3)
    /\ contents w2 "out.img" = contents w3 "out.img".
Proof.
  cbv zeta.
  destruct (pad_twice LP64 "mkrom" "1k" "2k" "in.img" "mid.img" "out.img"
              [x60; x1a] (one_file "in.img" [x60; x1a]))
    as (w1 & w2 & w3 & Hrun1 & Hrun2 & Hrun3 & Hsame & _).
  - reflexivity.
  - split; [discriminate|]. right. vm_compute. discriminate.
  - split; [discriminate|]. left. reflexivity.
  - split; [discriminate|]. right. vm_compute. discriminate.
  - reflexivity.
  - discriminate.
  - discriminate.
  - split; [|discriminate]. discriminate.
  - discriminate.
  - exists w1, w2, w3.
    split; [exact Hrun1|]. split; [exact Hrun2|]. split; [exact Hrun3|].
    exact Hsame.
Defined.

(** The call that closes the source fails: status 1, and the whole image
    in a destination that held something else. *)
Lemma main_one_fault_witness :
  let w := set_faults [NoFault; NoFault; NoFault; NoFault; NoFault; NoFault;
                       NoFault; FaultAfter 1]
             (initial_world {[ "in.img"%string := 1%nat;
                               "out.img"%string := 2%nat ]}
                {[ 1%nat := [x60; x1a]; 2%nat := [x4e; x71] ]}) in
  let run := main LP64 ["mkrom"; "pad"; "4"; "in.img"; "out.img"]%string w in
  (fst run = Exit 0
   /\ contents (snd run) "out.img" = Some [x60; x1a; x00; x00])
  \/ (fst run = Exit 1
      /\ (contents (snd run) "out.img" = None
          \/ contents (snd run) "out.img" = contents w "out.img"
          \/ contents (snd run) "out.img" = Some [x60; x1a; x00; x00])).
Proof.
  cbv zeta.
  destruct (main_one_fault LP64 "mkrom" "4" "in.img" "out.img" [x60; x1a]
              (set_faults [NoFault; NoFault; NoFault; NoFault; NoFault; NoFault;
                           NoFault; FaultAfter 1]
                 (initial_world {[ "in.img"%string := 1%nat;
                                   "out.img"%string := 2%nat ]}
                    {[ 1%nat := [x60; x1a]; 2%nat := [x4e; x71] ]})))
    as (Hpad & _).
  - cbn [faults set_faults strikes]. lia.
  - vm_compute. discriminate.
  - reflexivity.
  - discriminate.
  - apply Hpad; discriminate.
Defined.

Lemma swpcopyw_swaps_witness :
  let m : memory := fun a => if a =? 100 then x12 else if a =? 101 then x34 else x00 in
  let m' := swpcopyw 100 101 m in
  m' 101 = x34 /\ m' 102 = x12 /\ m' 100 = x12
  /\ word_at m' 101 = swpw (word_at m 100).
Proof.
  cbv zeta.
  destruct (swpcopyw_swaps 100 101
              (fun a => if a =? 100 then x12 else if a =? 101 then x34 else x00))
    as (H0 & H1 & Hframe & Hword & _).
  - discriminate.
  - split; [exact H0|]. split; [exact H1|]. split; [|exact Hword].
    apply Hframe; discriminate.
Defined.

Lemma byte_swaps_witness :
  swpl 0x12345678 = 0x78563412
  /\ swpw2 0x12345678 = 0x34127856
  /\ swpw 0x12345678 = 0x12347856.
Proof.
  destruct (byte_swaps 0x12 0x34 0x56 0x78) as (Hl & Hw2 & Hw & _).
  - unfold is_byte. lia.
  - unfold is_byte. lia.
  - unfold is_byte. lia.
  - unfold is_byte. lia.
  - split; [exact Hl|]. split; [exact Hw2|exact Hw].
Defined.

Lemma rotations_undo_witness :
  rorw1 (rolw1 0x12348001) = 0x12348001
  /\ rorl (roll 0x80000001 8) 8 = 0x80000001.
Proof.
  destruct (rotations_undo 0x12348001) as (Hw & _); [lia|].
  destruct (rotations_undo 0x80000001) as (_ & _ & _ & _ & Hl); [lia|].
  destruct (Hl 8) as (Hl8 & _); [lia|].
  split; [exact Hw|exact Hl8].
Defined.

Lemma delay_loop_turns_witness :
  delay_loop 4 3 0 = Some (2 ^ 32 - 1, 3 + 1)
  /\ delay_loop 1 0x80000001 0 = Some (0x80000001 - 1, 1).
Proof.
  destruct (delay_loop_turns 3 4) as [Hsmall _]; [lia|].
  destruct (delay_loop_turns 0x80000001 1) as [_ Hbig]; [lia|].
  split; [apply Hsmall; lia|apply Hbig; lia].
Defined.

Lemma stc_and_pak3_from_pad_witness :
  let w := one_file "in.img" [x60; x1a] in
  let pad := main LP64 ["mkrom"; "pad"; "128k"; "in.img"; "pad.img"]%string w in
  let stc := main LP64 ["mkrom"; "stc"; "in.img"; "out.stc"]%string w in
  fst pad = Exit 0 /\ fst stc = Exit 0
  /\ exists image,
       contents (snd pad) "pad.img" = Some image
       /\ contents (snd stc) "out.stc" = Some (replicate 4 x00 ++ image).
Proof.
  cbv zeta.
  assert (Hpad :
    fst (main LP64 ["mkrom"; "pad"; "128k"; "in.img"; "pad.img"]%string
           (one_file "in.img" [x60; x1a])) = Exit 0).
  { destruct (main_pad_files LP64 "mkrom" "128k" "in.img" "pad.img" [x60; x1a]
                (one_file "in.img" [x60; x1a]))
      as (w' & Hrun & _).
    - reflexivity.
    - vm_compute. discriminate.
    - reflexivity.
    - discriminate.
    - discriminate.
    - discriminate.
    - rewrite Hrun. reflexivity. }
  assert (Hstc :
    fst (main LP64 ["mkrom"; "stc"; "in.img"; "out.stc"]%string
           (one_file "in.img" [x60; x1a])) = Exit 0).
  { apply (main_stc_runs LP64 "mkrom" "in.img" "out.stc" [x60; x1a]).
    - reflexivity.
    - vm_compute. discriminate.
    - reflexivity.
    - discriminate. }
  split; [exact Hpad|]. split; [exact Hstc|].
  destruct (main LP64 ["mkrom"; "pad"; "128k"; "in.img"; "pad.img"]%string
              (one_file "in.img" [x60; x1a]))
    as [t1 w1] eqn:Hrun1.
  destruct (main LP64 ["mkrom"; "stc"; "in.img"; "out.stc"]%string
              (one_file "in.img" [x60; x1a]))
    as [t2 w2] eqn:Hrun2.
  cbn [fst snd] in *. subst t1 t2.
  destruct (stc_and_pak3_from_pad LP64 "mkrom" "128k" "in.img" "pad.img"
              "out.stc" (one_file "in.img" [x60; x1a]) w1
              (one_file "in.img" [x60; x1a]) w2
              ltac:(vm_compute; discriminate) ltac:(vm_compute; discriminate)
              eq_refl Hrun1)
    as (image & Himage & Hfrom_pad & _).
  exists image. split; [exact Himage|].
  apply Hfrom_pad; [reflexivity|exact Hrun2].
Defined.
